(** * Jarvis voice service: a shallow embedding of [voice_service.py]

    The development follows [src/python/voice_service.py] (class
    [VoiceService]).  Python [str] values are sequences of Unicode code
    points; clock readings ([time.time()]) and the audio energy are exact
    rationals; every call that leaves the process (microphone, Whisper,
    Ollama, Kokoro, stdin) is represented by the value it hands back, which
    the functions below take as an input, and by an entry in the trace of
    effects they return. *)

From Stdlib Require Import String Ascii DecimalString.
From Stdlib Require Import Bool Arith ZArith NArith QArith Qround Lia Lqa List.
Import ListNotations.

Close Scope Q_scope.
Set Implicit Arguments.

(* ===================================================================== *)
(** ** Python strings *)
(* ===================================================================== *)

(** A [str] is a list of code points. *)
Definition pystr := list N.

(** [py "text"] is the Python literal ["text"] (ASCII source text). *)
Definition py (s : string) : pystr :=
  List.map N_of_ascii (list_ascii_of_string s).

Definition pystr_eqb (a b : pystr) : bool :=
  if list_eq_dec N.eq_dec a b then true else false.

(** Truth value of a [str]: non-empty. *)
Definition truthy (s : pystr) : bool :=
  match s with [] => false | _ :: _ => true end.

(** [Py_UNICODE_ISSPACE]: the code points removed by [str.strip()] and
    matched by [\s] in a [str] pattern. *)
Definition is_space (c : N) : bool :=
  ((9 <=? c) && (c <=? 13) || (28 <=? c) && (c <=? 32) ||
   (c =? 133) || (c =? 160) || (c =? 5760) ||
   (8192 <=? c) && (c <=? 8202) || (c =? 8232) || (c =? 8233) ||
   (c =? 8239) || (c =? 8287) || (c =? 12288))%N.

Fixpoint lstrip (s : pystr) : pystr :=
  match s with
  | c :: t => if is_space c then lstrip t else s
  | [] => []
  end.

Fixpoint rstrip (s : pystr) : pystr :=
  match s with
  | c :: t =>
      match rstrip t with
      | [] => if is_space c then [] else [c]
      | r => c :: r
      end
  | [] => []
  end.

(** [s.strip()] *)
Definition strip (s : pystr) : pystr := lstrip (rstrip s).

Fixpoint starts_with (p s : pystr) : bool :=
  match p, s with
  | [], _ => true
  | a :: p', b :: s' => (a =? b)%N && starts_with p' s'
  | _ :: _, [] => false
  end.

(** [needle in hay] *)
Fixpoint contains (needle hay : pystr) : bool :=
  starts_with needle hay ||
  match hay with
  | [] => false
  | _ :: t => contains needle t
  end.

(** [sep.join(parts)] *)
Fixpoint join (sep : pystr) (parts : list pystr) : pystr :=
  match parts with
  | [] => []
  | [p] => p
  | p :: rest => p ++ sep ++ join sep rest
  end.

(** [str(n)] for an [int]. *)
Definition str_of_Z (z : Z) : pystr := py (NilZero.string_of_int (Z.to_int z)).
Definition str_of_nat (n : nat) : pystr := str_of_Z (Z.of_nat n).

(** [s[:n]] *)
Definition str_prefix (n : nat) (s : pystr) : pystr := firstn n s.

(** The parts of the Python runtime whose tables are not part of the
    repository: [str.lower()] (full Unicode lowercasing, context
    sensitive), and [str.isalnum()] beyond ASCII (used by [\w], [\b]). *)
Class PyRuntime := {
  str_lower : pystr -> pystr;
  uni_alnum : N -> bool
}.

(* ===================================================================== *)
(** ** The fragment of [re] used by the service *)
(* ===================================================================== *)

Module Re.

(** One-character items. *)
Inductive cclass :=
| CLit (c : N)          (* a literal character *)
| CLitI (c : N)         (* an ASCII literal under re.IGNORECASE *)
| CSpace                (* \s *)
| CWord                 (* \w *)
| CRange (lo hi : N)    (* [lo-hi] *)
| CDot.                 (* . under re.DOTALL *)

Inductive re :=
| Eps
| One (c : cclass)
| Rep (greedy : bool) (c : cclass)   (* c* when greedy, c*? otherwise *)
| Cat (a b : re)
| Alt (a b : re)
| Grp (n : nat) (a : re)             (* capturing group number n *)
| Look (a : re)                      (* (?=a) *)
| Bow                                (* \b *)
| Eos.                               (* $ without re.MULTILINE *)

Definition ascii_lower (c : N) : N :=
  if ((65 <=? c) && (c <=? 90))%N then (c + 32)%N else c.

(** The simple lowercase mapping of [sre], given exactly where its value
    is an ASCII letter (U+0130 goes to [i], U+212A to [k]); other code
    points never reach an ASCII letter, dotless i or long s. *)
Definition sre_lower (x : N) : N :=
  if ((65 <=? x) && (x <=? 90))%N then (x + 32)%N
  else if (x =? 304)%N then 105%N
  else if (x =? 8490)%N then 107%N
  else x.

(** A literal ASCII pattern character [p] against [x] under IGNORECASE:
    [sre] compares lowercased code points and also accepts the
    equivalents dotless i (U+0131) for [i] and long s (U+017F) for [s]. *)
Definition lit_ignorecase (p x : N) : bool :=
  let lo := ascii_lower p in
  let lx := sre_lower x in
  ((lx =? lo) || (lo =? 105) && (lx =? 305) || (lo =? 115) && (lx =? 383))%N.

Definition ascii_word (c : N) : bool :=
  ((48 <=? c) && (c <=? 57) || (65 <=? c) && (c <=? 90) ||
   (97 <=? c) && (c <=? 122) || (c =? 95))%N.

Section Matcher.
Context {rt : PyRuntime}.

Definition is_word (c : N) : bool :=
  if (c <? 128)%N then ascii_word c else uni_alnum c.

Definition in_class (k : cclass) (x : N) : bool :=
  match k with
  | CLit c => (c =? x)%N
  | CLitI c => lit_ignorecase c x
  | CSpace => is_space x
  | CWord => is_word x
  | CRange lo hi => ((lo <=? x) && (x <=? hi))%N
  | CDot => true
  end.

(** Captured groups, most recent first. *)
Definition caps := list (nat * pystr).

(** A successful match: the text before the end of the match (reversed),
    the text after it, and the groups. *)
Definition mres := (pystr * pystr * caps)%type.

Definition kont := pystr -> pystr -> caps -> option mres.

Definition word_at (s : pystr) : bool :=
  match s with c :: _ => is_word c | [] => false end.

(** [c*]: as many characters of the class as possible, giving them back
    one at a time while the rest of the pattern fails. *)
Fixpoint rep_greedy (c : cclass) (k : pystr -> pystr -> option mres)
  (bef rest : pystr) {struct rest} : option mres :=
  match rest with
  | x :: xs =>
      if in_class c x then
        match rep_greedy c k (x :: bef) xs with
        | Some m => Some m
        | None => k bef rest
        end
      else k bef rest
  | [] => k bef rest
  end.

(** [c*?]: as few characters of the class as possible, taking one more
    while the rest of the pattern fails. *)
Fixpoint rep_lazy (c : cclass) (k : pystr -> pystr -> option mres)
  (bef rest : pystr) {struct rest} : option mres :=
  match k bef rest with
  | Some m => Some m
  | None =>
      match rest with
      | x :: xs => if in_class c x then rep_lazy c k (x :: bef) xs else None
      | [] => None
      end
  end.

(** Backtracking matcher.  [bef] is the subject before the cursor,
    reversed; [rest] is the subject from the cursor on; [k] is what is
    left of the pattern. *)
Fixpoint rmatch (r : re) (k : kont) (bef rest : pystr) (cs : caps)
  {struct r} : option mres :=
  match r with
  | Eps => k bef rest cs
  | One c =>
      match rest with
      | x :: xs => if in_class c x then k (x :: bef) xs cs else None
      | [] => None
      end
  | Rep true c => rep_greedy c (fun b r => k b r cs) bef rest
  | Rep false c => rep_lazy c (fun b r => k b r cs) bef rest
  | Cat a b => rmatch a (rmatch b k) bef rest cs
  | Alt a b =>
      match rmatch a k bef rest cs with
      | Some m => Some m
      | None => rmatch b k bef rest cs
      end
  | Grp n a =>
      rmatch a
        (fun bef' rest' cs' =>
           k bef' rest'
             ((n, rev (firstn (length bef' - length bef) bef')) :: cs'))
        bef rest cs
  | Look a =>
      match rmatch a (fun b r c => Some (b, r, c)) bef rest cs with
      | Some (_, _, cs') => k bef rest cs'
      | None => None
      end
  | Bow =>
      if xorb (word_at bef) (word_at rest) then k bef rest cs else None
  | Eos =>
      match rest with
      | [] => k bef rest cs
      | [c] => if (c =? 10)%N then k bef rest cs else None
      | _ => None
      end
  end.

Definition accept : kont := fun b r c => Some (b, r, c).

(** The pattern tried at the cursor. *)
Definition match_at (r : re) (bef rest : pystr) : option mres :=
  rmatch r accept bef rest [].

(** [re.search]: the first position, left to right, where the pattern
    matches (the end of the subject included). *)
Fixpoint search_from (r : re) (bef rest : pystr) : option mres :=
  match match_at r bef rest with
  | Some m => Some m
  | None =>
      match rest with
      | x :: xs => search_from r (x :: bef) xs
      | [] => None
      end
  end.

Definition search (r : re) (s : pystr) : option mres := search_from r [] s.

(** [m.group(n)] *)
Fixpoint lookup_group (n : nat) (cs : caps) : pystr :=
  match cs with
  | (i, g) :: t => if Nat.eqb i n then g else lookup_group n t
  | [] => []
  end.

Definition group (n : nat) (m : mres) : pystr := lookup_group n (snd m).

(** [re.sub]: non-overlapping matches, left to right, each replaced by
    [repl] of its groups; an empty match is replaced and the next
    character copied.  [fuel] bounds the number of positions visited. *)
Fixpoint sub_loop (fuel : nat) (r : re) (repl : caps -> pystr)
  (bef rest out : pystr) : pystr :=
  match fuel with
  | O => out ++ rest
  | S f =>
      match match_at r bef rest with
      | Some (bef', rest', cs) =>
          if Nat.eqb (length bef') (length bef) then
            match rest with
            | x :: xs => sub_loop f r repl (x :: bef) xs (out ++ repl cs ++ [x])
            | [] => out ++ repl cs
            end
          else sub_loop f r repl bef' rest' (out ++ repl cs)
      | None =>
          match rest with
          | x :: xs => sub_loop f r repl (x :: bef) xs (out ++ [x])
          | [] => out
          end
      end
  end.

Definition sub (r : re) (repl : caps -> pystr) (s : pystr) : pystr :=
  sub_loop (S (length s)) r repl [] s [].

End Matcher.

(** A literal word under re.IGNORECASE, one character after the other. *)
Definition lit_i (w : pystr) : re :=
  fold_right (fun c r => Cat (One (CLitI c)) r) Eps w.

(** [c+] *)
Definition plus (c : cclass) : re := Cat (One c) (Rep true c).

End Re.

Import Re.

(* ===================================================================== *)
(** ** Data model *)
(* ===================================================================== *)

(** The outcome of a call that may raise: the value, or [str(e)]. *)
Inductive py_result (A : Type) :=
| Ok (a : A)
| Raise (msg : pystr).
Arguments Ok {A} a.
Arguments Raise {A} msg.

(** What a Python function without a [return] statement hands back. *)
Inductive pyval :=
| PyNone
| PyBool (b : bool).

(** A conversation record, [{"role": role, "content": content}]. *)
Record turn := { role : pystr; content : pystr }.

(** One audio read: the signed 16-bit samples of the chunk. *)
Definition frame := list Z.

(** What the service does to the outside, in order. *)
Inductive effect :=
| Emit (msg_type : string) (fields : list (string * pystr))
    (* send_message: one JSON object on stdout *)
| CallTranscribe (frames : list frame)
    (* whisper_model.transcribe on the concatenated frames *)
| CallLLM (url : pystr) (messages : list turn)
    (* requests.post to url/api/chat *)
| CallTTS (text voice : pystr).
    (* kokoro_tts.create and playback *)

(** The fields of [VoiceService] that the logic reads or writes. *)
Record service := {
  ollama_url : pystr;
  system_prompt : pystr;
  is_muted : bool;
  should_stop : bool;
  sample_rate : Z;
  conversation_turns : list turn;
  max_turns : Z;
  last_activity_time : Q;
  context_timeout : Q;
  current_voice : pystr
}.

(** [__init__], at clock reading [now]; the prompt text is a constant of
    the constructor and is kept as a value. *)
Definition init_service (url prompt : pystr) (now : Q) : service :=
  {| ollama_url := url;
     system_prompt := prompt;
     is_muted := false;
     should_stop := false;
     sample_rate := 16000;
     conversation_turns := [];
     max_turns := 8;
     last_activity_time := now;
     context_timeout := 120;
     current_voice := py "af_bella" |}.

Definition set_context (s : service) (turns : list turn) (now : Q) : service :=
  {| ollama_url := ollama_url s;
     system_prompt := system_prompt s;
     is_muted := is_muted s;
     should_stop := should_stop s;
     sample_rate := sample_rate s;
     conversation_turns := turns;
     max_turns := max_turns s;
     last_activity_time := now;
     context_timeout := context_timeout s;
     current_voice := current_voice s |}.

Definition set_muted (s : service) (b : bool) : service :=
  {| ollama_url := ollama_url s;
     system_prompt := system_prompt s;
     is_muted := b;
     should_stop := should_stop s;
     sample_rate := sample_rate s;
     conversation_turns := conversation_turns s;
     max_turns := max_turns s;
     last_activity_time := last_activity_time s;
     context_timeout := context_timeout s;
     current_voice := current_voice s |}.

Definition set_stop (s : service) : service :=
  {| ollama_url := ollama_url s;
     system_prompt := system_prompt s;
     is_muted := is_muted s;
     should_stop := true;
     sample_rate := sample_rate s;
     conversation_turns := conversation_turns s;
     max_turns := max_turns s;
     last_activity_time := last_activity_time s;
     context_timeout := context_timeout s;
     current_voice := current_voice s |}.

Definition set_voice (s : service) (v : pystr) : service :=
  {| ollama_url := ollama_url s;
     system_prompt := system_prompt s;
     is_muted := is_muted s;
     should_stop := should_stop s;
     sample_rate := sample_rate s;
     conversation_turns := conversation_turns s;
     max_turns := max_turns s;
     last_activity_time := last_activity_time s;
     context_timeout := context_timeout s;
     current_voice := v |}.

Definition Qlt_bool (a b : Q) : bool := negb (Qle_bool b a).

(** [int(q)]: truncation toward zero. *)
Definition py_int (q : Q) : Z := Z.quot (Qnum q) (Z.pos (Qden q)).

(** [l[-k:]] *)
Definition last_k (A : Type) (k : nat) (l : list A) : list A :=
  skipn (length l - k) l.

(* ===================================================================== *)
(** ** Messages and conversation context *)
(* ===================================================================== *)

Definition send_message (msg_type : string) (fields : list (string * pystr))
  : effect := Emit msg_type fields.

Definition log_error (message : pystr) : effect :=
  send_message "error" [("message"%string, message)].

(** [send_message("debug", message=...)] *)
Definition debug (message : pystr) : effect :=
  send_message "debug" [("message"%string, message)].

(** [add_conversation_turn]; [now] is the reading of [time.time()]. *)
Definition add_conversation_turn (now : Q) (r c : pystr) (s : service)
  : service :=
  let appended := conversation_turns s ++ [{| role := r; content := c |}] in
  let kept :=
    if (Z.of_nat (length appended) >? max_turns s)%Z
    then tl appended            (* pop(0) *)
    else appended in
  set_context s kept now.

(** [check_context_timeout]; [now] is the clock read by the condition
    (read only when the history is non-empty), [now_reset] the one stored
    on reset.  The function has no [return] statement. *)
Definition check_context_timeout (now now_reset : Q) (s : service)
  : pyval * service * list effect :=
  match conversation_turns s with
  | _ :: _ =>
      if Qlt_bool (context_timeout s) (now - last_activity_time s) then
        (PyNone, set_context s [] now_reset,
         [debug (py "Auto-resetting context after 2 minutes of inactivity")])
      else (PyNone, s, [])
  | [] => (PyNone, s, [])
  end.

(* ===================================================================== *)
(** ** Response generation *)
(* ===================================================================== *)

Section Responses.
Context {rt : PyRuntime}.

(** r'\[ANSWER\]\s*(.*?)(?=\[INSTRUCTION\]|$)', DOTALL | IGNORECASE *)
Definition answer_re : re :=
  Cat (lit_i (py "[ANSWER]"))
    (Cat (Rep true CSpace)
       (Cat (Grp 1 (Rep false CDot))
          (Look (Alt (lit_i (py "[INSTRUCTION]")) Eos)))).

(** r'\[INSTRUCTION\]\s*(.*?)$', DOTALL | IGNORECASE *)
Definition instruction_re : re :=
  Cat (lit_i (py "[INSTRUCTION]"))
    (Cat (Rep true CSpace)
       (Cat (Grp 1 (Rep false CDot)) Eos)).

Definition _parse_dual_output (content : pystr) : pystr * pystr :=
  let answer_text :=
    match search answer_re content with
    | Some m => strip (group 1 m)
    | None => []
    end in
  let instruction_text :=
    match search instruction_re content with
    | Some m => strip (group 1 m)
    | None => []
    end in
  let answer_text :=
    if negb (truthy answer_text) && negb (truthy instruction_text)
    then strip content
    else answer_text in
  (answer_text, instruction_text).

Definition _fallback_response (user_input : pystr) : pystr :=
  let lower := str_lower user_input in
  if existsb (fun word => contains word lower)
       [py "hello"; py "hi"; py "hey"]
  then py "Hello!"
  else if existsb (fun phrase => contains phrase lower)
            [py "let's"; py "please"; py "can you"; py "could you"]
  then py "I'll work on that."
  else if contains (py "?") user_input
  then py "Let me think about that."
  else py "I'm listening.".

(** What [requests.post] and the decoding of its body come to.  For a
    response, [body] is [response.json()] followed by
    [result.get("message", {}).get("content", "")]: the content string,
    or the text of the exception either step raised. *)
Inductive http_result :=
| PostTimeout
| PostConnectionError
| PostRaises (msg : pystr)
| Response (status_code : Z) (body : py_result pystr).

Definition build_messages (s : service) (user_input : pystr) : list turn :=
  [{| role := py "system"; content := system_prompt s |}]
  ++ last_k 8 (conversation_turns s)
  ++ [{| role := py "user"; content := user_input |}].

Definition generate_fast_response (llm : http_result) (s : service)
  (user_input : pystr) : pystr * list effect :=
  let before :=
    [debug (py "Generating LLM response for: " ++ str_prefix 50 user_input);
     debug (py "Calling Ollama at " ++ ollama_url s ++ py "...");
     CallLLM (ollama_url s) (build_messages s user_input)] in
  match llm with
  | PostTimeout =>
      (_fallback_response user_input,
       before ++ [log_error (py "LLM timeout - Ollama may be slow or not running")])
  | PostConnectionError =>
      (_fallback_response user_input,
       before ++ [log_error (py "Cannot connect to Ollama - is it running?")])
  | PostRaises msg =>
      (_fallback_response user_input,
       before ++ [log_error (py "LLM response failed: " ++ msg)])
  | Response status_code body =>
      let responded :=
        before ++ [debug (py "Ollama responded: " ++ str_of_Z status_code)] in
      if (status_code =? 200)%Z then
        match body with
        | Raise msg =>
            (_fallback_response user_input,
             responded ++ [log_error (py "LLM response failed: " ++ msg)])
        | Ok raw =>
            let content := strip raw in
            let logged :=
              responded ++
              [debug (py "LLM content: '" ++ str_prefix 100 content ++ py "'")] in
            if negb (truthy content) then
              (_fallback_response user_input, logged)
            else
              let '(answer_text, instruction_text) :=
                _parse_dual_output content in
              let tr :=
                if truthy instruction_text
                then logged ++
                     [send_message "instruction_detected"
                        [("instruction"%string, instruction_text)]]
                else logged in
              (if truthy answer_text then answer_text
               else _fallback_response user_input, tr)
        end
      else
        (_fallback_response user_input,
         responded ++ [debug (py "Non-200 response, using fallback")])
  end.

(* ===================================================================== *)
(** ** Text clean-up for speech *)
(* ===================================================================== *)

(** The [replacements] dict, in insertion order: r'\bABBR' with the dots
    escaped, and the words substituted. *)
Definition replacements : list (re * pystr) :=
  List.map (fun '(abbr, full) => (Cat Bow (lit_i (py abbr)), py full))
    [("e.g.", "for example"); ("i.e.", "that is"); ("etc.", "et cetera");
     ("vs.", "versus"); ("Mr.", "Mister"); ("Mrs.", "Missus");
     ("Ms.", "Miss"); ("Dr.", "Doctor"); ("Prof.", "Professor");
     ("Sr.", "Senior"); ("Jr.", "Junior"); ("No.", "Number");
     ("St.", "Street"); ("Ave.", "Avenue"); ("Dept.", "Department");
     ("Co.", "Company"); ("Inc.", "Incorporated"); ("Ltd.", "Limited")]%string.

(** r'\1 \2' *)
Definition repl_1_space_2 (cs : caps) : pystr :=
  lookup_group 1 cs ++ py " " ++ lookup_group 2 cs.

(** [(r'(\w)\.(\w)', r'\1 \2')] and [(r'(\w)\.\s+([a-z])', r'\1 \2')] *)
Definition abbrev_patterns : list (re * (caps -> pystr)) :=
  [(Cat (Grp 1 (One CWord)) (Cat (One (CLit 46)) (Grp 2 (One CWord))),
    repl_1_space_2);
   (Cat (Grp 1 (One CWord))
      (Cat (One (CLit 46)) (Cat (plus CSpace) (Grp 2 (One (CRange 97 122))))),
    repl_1_space_2)].

Definition _format_for_tts (text : pystr) : pystr :=
  let text :=
    fold_left (fun t '(pattern, replacement) =>
                 sub pattern (fun _ => replacement) t)
      replacements text in
  let text :=
    fold_left (fun t '(pattern, replacement) => sub pattern replacement t)
      abbrev_patterns text in
  let text := sub (plus CSpace) (fun _ => py " ") text in
  strip text.

(** [speak_text]: synthesis and playback; an exception is logged. *)
Definition speak_text (tts : py_result unit) (s : service) (text : pystr)
  : list effect :=
  CallTTS text (current_voice s) ::
  match tts with
  | Ok _ => []
  | Raise msg => [log_error (py "TTS failed: " ++ msg)]
  end.

End Responses.

(* ===================================================================== *)
(** ** The main audio loop *)
(* ===================================================================== *)

Definition SILENCE_THRESHOLD : Q := 400.
Definition SILENCE_DURATION : Q := 1.
Definition MIN_SPEECH_DURATION : Q := 1 # 2.
Definition CHUNK_SIZE : Z := 1024.

(** [np.abs] on int16 wraps at the most negative sample. *)
Definition abs_int16 (x : Z) : Z :=
  if (x =? -32768)%Z then (-32768)%Z else Z.abs x.

(** [calculate_energy]: [np.abs(audio_chunk).mean()]. *)
Definition calculate_energy (audio_chunk : frame) : Q :=
  inject_Z (fold_right Z.add 0%Z (List.map abs_int16 audio_chunk))
  / inject_Z (Z.of_nat (length audio_chunk)).

(** [int(MIN_SPEECH_DURATION * self.sample_rate / CHUNK_SIZE)] *)
Definition min_speech_frames (s : service) : Z :=
  py_int (MIN_SPEECH_DURATION * inject_Z (sample_rate s) / inject_Z CHUNK_SIZE).

(** The local variables of [process_audio_loop]. *)
Record locals := {
  recording : bool;
  frames : list frame;
  silence_start : option Q;
  speech_detected : bool
}.

Definition idle : locals :=
  {| recording := false; frames := []; silence_start := None;
     speech_detected := false |}.

(** What the outside hands to one pass of the loop body, one entry per
    call site (each is reached at most once in a pass). *)
Record env := {
  now_ctx_check : Q;        (* time.time() in check_context_timeout's test *)
  now_ctx_reset : Q;        (* time.time() stored by check_context_timeout *)
  audio_read : py_result frame;   (* audio_stream.read, np.frombuffer *)
  now_silence_start : Q;    (* silence_start = time.time() *)
  now_silence_check : Q;    (* time.time() - silence_start *)
  transcribe_result : py_result (list pystr);  (* seg.text of each segment *)
  now_user_turn : Q;        (* time.time() when the user turn is added *)
  llm_result : http_result;
  now_assistant_turn : Q;   (* time.time() when the reply is added *)
  tts_result : py_result unit
}.

Inductive flow := Next | Break.

Section Loop.
Context {rt : PyRuntime}.

(** Lines 454-483: what is done with the transcription of a turn. *)
Definition respond_to_turn (e : env) (s : service) (transcription : pystr)
  : service * list effect * flow :=
  if truthy transcription then
    let heard :=
      [send_message "transcription" [("text"%string, transcription)]] in
    if contains (py "goodbye") (str_lower transcription)
       || contains (py "exit") (str_lower transcription)
    then
      let response := py "Goodbye!" in
      (set_stop s,
       heard
       ++ [send_message "jarvis_speaking" [("text"%string, response)]]
       ++ speak_text (tts_result e) s response,
       Break)
    else
      let s := add_conversation_turn (now_user_turn e) (py "user")
                 transcription s in
      let '(response, generated) :=
        generate_fast_response (llm_result e) s transcription in
      if truthy response then
        let s' := add_conversation_turn (now_assistant_turn e)
                    (py "assistant") response s in
        (s',
         heard ++ generated
         ++ [send_message "jarvis_speaking" [("text"%string, response)]]
         ++ [send_message "conversation_turn"
               [("user_text"%string, transcription);
                ("jarvis_response"%string, response)]]
         ++ speak_text (tts_result e) s' response
         ++ [send_message "listening" []],
         Next)
      else (s, heard ++ generated, Next)
  else (s, [], Next).

(** Lines 424-488: the read of one chunk and the energy-based voice
    activity detection, with what the [except Exception] clause does
    when the read or the transcription raises. *)
Definition vad_step (e : env) (s : service) (l : locals)
  : service * locals * list effect * flow :=
  match audio_read e with
  | Raise msg => (s, l, [log_error (py "Error in audio loop: " ++ msg)], Next)
  | Ok audio_chunk =>
      if Qlt_bool SILENCE_THRESHOLD (calculate_energy audio_chunk) then
        let started :=
          if recording l then [] else [send_message "user_speaking" []] in
        (s,
         {| recording := true;
            frames := frames l ++ [audio_chunk];
            silence_start := None;
            speech_detected :=
              if recording l then speech_detected l else true |},
         started, Next)
      else if recording l then
        let started_at :=
          match silence_start l with
          | None => now_silence_start e
          | Some t => t
          end in
        let buffered := frames l ++ [audio_chunk] in
        let waiting :=
          {| recording := true;
             frames := buffered;
             silence_start := Some started_at;
             speech_detected := speech_detected l |} in
        if Qle_bool SILENCE_DURATION (now_silence_check e - started_at) then
          if speech_detected l
             && (Z.of_nat (length buffered) >? min_speech_frames s)%Z
          then
            match transcribe_result e with
            | Raise msg =>
                (s, waiting,
                 [CallTranscribe buffered;
                  log_error (py "Error in audio loop: " ++ msg)], Next)
            | Ok segments =>
                let transcription := strip (join (py " ") segments) in
                let '(s', said, fl) := respond_to_turn e s transcription in
                (s',
                 match fl with Break => waiting | Next => idle end,
                 CallTranscribe buffered :: said, fl)
            end
          else (s, idle, [], Next)
        else (s, waiting, [], Next)
      else (s, l, [], Next)
  end.

(** One pass of the body of [while not self.should_stop]: the context
    check, the mute test ([sleep(0.1); continue]), then the chunk. *)
Definition loop_body (e : env) (s : service) (l : locals)
  : service * locals * list effect * flow :=
  let '(_, s, checked) :=
    check_context_timeout (now_ctx_check e) (now_ctx_reset e) s in
  if is_muted s then (s, l, checked, Next)
  else
    let '(s', l', tr, fl) := vad_step e s l in
    (s', l', checked ++ tr, fl).

Inductive loop_exit := Stopped | Running.

(** The [while] loop over the passes for which the outside has answers;
    [Running] when they run out before the loop ends. *)
Fixpoint while_loop (envs : list env) (s : service) (l : locals)
  : service * locals * list effect * loop_exit :=
  if should_stop s then (s, l, [], Stopped)
  else
    match envs with
    | [] => (s, l, [], Running)
    | e :: rest =>
        let '(s', l', tr, fl) := loop_body e s l in
        match fl with
        | Break => (s', l', tr, Stopped)
        | Next =>
            let '(s'', l'', tr', x) := while_loop rest s' l' in
            (s'', l'', tr ++ tr', x)
        end
    end.

Definition process_audio_loop (envs : list env) (s : service)
  : service * locals * list effect * loop_exit :=
  let '(s', l', tr, x) := while_loop envs s idle in
  (s', l', [send_message "ready" []; send_message "listening" []] ++ tr, x).

(* ===================================================================== *)
(** ** Commands from the parent process *)
(* ===================================================================== *)

(** The command dict, with the keys the handler reads; [None] is an
    absent key.  Values have the types of the protocol: strings and
    lists of strings. *)
Record command := {
  c_command : option pystr;
  c_voice : option pystr;
  c_text : option pystr;
  c_changes : option (list pystr);
  c_notes : option (list pystr);
  c_risks : option (list pystr);
  c_next_questions : option (list pystr)
}.

(** [d.get(key, default)] *)
Definition get_default (A : Type) (v : option A) (default : A) : A :=
  match v with Some x => x | None => default end.

(** The loop over [enumerate(items)] that the handler uses for changes,
    notes and risks: the first item as it is, the last one after
    [", and "], the others after [", "]; [n] is [len(items)]. *)
Fixpoint read_items_from (i n : nat) (items : list pystr) (announcement : pystr)
  : pystr :=
  match items with
  | [] => announcement
  | item :: more =>
      read_items_from (S i) n more
        (if Nat.eqb i 0 then announcement ++ item
         else if Nat.eqb i (n - 1) then announcement ++ py ", and " ++ item
         else announcement ++ py ", " ++ item)
  end.

Definition read_items (items : list pystr) (announcement : pystr) : pystr :=
  read_items_from 0 (length items) items announcement.

(** The loop [for i in range(3)] over [items[i]]. *)
Definition read_first_three (items : list pystr) (announcement : pystr)
  : pystr :=
  fold_left
    (fun a i =>
       if Nat.eqb i 0 then a ++ nth i items []
       else if Nat.eqb i 2 then a ++ py ", and " ++ nth i items []
       else a ++ py ", " ++ nth i items [])
    [0; 1; 2] announcement.

(** The loop over [enumerate(next_questions)]. *)
Fixpoint read_questions_from (i : nat) (questions : list pystr)
  (announcement : pystr) : pystr :=
  match questions with
  | [] => announcement
  | q :: more =>
      read_questions_from (S i) more
        (if Nat.eqb i 0 then announcement ++ q
         else announcement ++ py " Also, " ++ q)
  end.

(** Lines 527-602: the announcement before the clean-up for speech. *)
Definition build_announcement (text : pystr)
  (changes notes risks next_questions : list pystr) : pystr :=
  let announcement := text in
  let announcement :=
    match changes with
    | [] => announcement
    | _ :: _ =>
        if length changes <=? 3 then
          read_items changes (announcement ++ py ". ")
        else
          let a := read_first_three changes (announcement ++ py ". ") in
          let remaining := length changes - 3 in
          a ++ py ", and " ++ str_of_nat remaining ++ py " more change"
            ++ (if 1 <? remaining then py "s" else [])
    end in
  let announcement :=
    match notes with
    | [] => announcement
    | _ :: _ =>
        if length notes <=? 4 then
          read_items notes (announcement ++ py ". ")
        else
          let a := read_first_three notes (announcement ++ py ". ") in
          let remaining := length notes - 3 in
          a ++ py ". There are " ++ str_of_nat remaining
            ++ py " more important things that need further investigation"
    end in
  let announcement :=
    match risks with
    | [] => announcement
    | _ :: _ =>
        if length risks <=? 2 then
          read_items risks (announcement ++ py ". However, ")
        else
          announcement ++ py ". Note: " ++ str_of_nat (length risks)
            ++ py " potential risks to be aware of"
    end in
  match next_questions with
  | [] => announcement
  | _ :: _ => read_questions_from 0 next_questions (announcement ++ py ". ")
  end.

(** The text an [announce] command speaks. *)
Definition announcement_of (c : command) : pystr :=
  _format_for_tts
    (build_announcement
       (get_default (c_text c) (py "Task completed"))
       (get_default (c_changes c) [])
       (get_default (c_notes c) [])
       (get_default (c_risks c) [])
       (get_default (c_next_questions c) [])).

(** What the outside hands to one pass of the command listener. *)
Inductive json_outcome :=
| JSONDecodeError                 (* json.loads raised it *)
| Decoded (c : command)           (* a dict *)
| DecodedOther (why : pystr).     (* another value: [.get] fails on it *)

Record cmd_env := {
  line : py_result pystr;       (* sys.stdin.readline() *)
  decoded : json_outcome;       (* json.loads(line.strip()) *)
  now_command : Q;              (* time.time() in the handler *)
  now_announce_turn : Q;        (* time.time() when the announcement is added *)
  announce_tts : py_result unit
}.

(** [str(cmd)] in the message for an unknown command. *)
Definition str_of_cmd (c : option pystr) : pystr :=
  match c with Some x => x | None => py "None" end.

(** [cmd == "name"], where [cmd] is [None] for an absent key. *)
Definition cmd_eq (cmd : option pystr) (name : string) : bool :=
  match cmd with Some x => pystr_eqb x (py name) | None => false end.

Definition handle_command (e : cmd_env) (s : service) (c : command)
  : service * list effect :=
  let cmd := c_command c in
  if cmd_eq cmd "mute" then
    (set_muted s true, [send_message "muted" []])
  else if cmd_eq cmd "unmute" then
    (set_muted s false, [send_message "unmuted" []])
  else if cmd_eq cmd "reset_context" then
    (set_context s [] (now_command e),
     [debug (py "Conversation context manually reset")])
  else if cmd_eq cmd "change_voice" then
    let new_voice := get_default (c_voice c) (py "af_bella") in
    (set_voice s new_voice, [debug (py "Voice changed to: " ++ new_voice)])
  else if cmd_eq cmd "shutdown" then
    (set_stop s, [])
  else if cmd_eq cmd "announce" then
    let s := set_context s (conversation_turns s) (now_command e) in
    let announcement := announcement_of c in
    let s := add_conversation_turn (now_announce_turn e) (py "assistant")
               announcement s in
    (s,
     [debug (py "Announcing: " ++ announcement)]
     ++ speak_text (announce_tts e) s announcement
     ++ [send_message "jarvis_speaking" [("text"%string, announcement)]])
  else
    (s, [log_error (py "Unknown command: " ++ str_of_cmd cmd)]).

(** One pass of the body of [listen_for_commands], with its two
    [except] clauses; the [sleep(0.1)] that ends it has no effect on the
    state. *)
Definition listen_step (e : cmd_env) (s : service) : service * list effect :=
  match line e with
  | Raise msg => (s, [log_error (py "Error reading command: " ++ msg)])
  | Ok text =>
      if truthy text then
        match decoded e with
        | JSONDecodeError =>
            (s, [log_error (py "Invalid JSON command received")])
        | DecodedOther why =>
            (s, [log_error (py "Error reading command: " ++ why)])
        | Decoded c => handle_command e s c
        end
      else (s, [])
  end.

Fixpoint listen_for_commands (inputs : list cmd_env) (s : service)
  : service * list effect * loop_exit :=
  if should_stop s then (s, [], Stopped)
  else
    match inputs with
    | [] => (s, [], Running)
    | e :: rest =>
        let '(s', tr) := listen_step e s in
        let '(s'', tr', x) := listen_for_commands rest s' in
        (s'', tr ++ tr', x)
    end.

End Loop.

(* ===================================================================== *)
(** ** Vocabulary of the statements *)
(* ===================================================================== *)

(** The marker [w] starts [s], in any letter case: the matching of
    [re.IGNORECASE] on each character, which besides both cases of a
    letter takes U+017F for [s] and U+0130, U+0131 for [i]. *)
Fixpoint marker_here (w s : pystr) : bool :=
  match w, s with
  | [], _ => true
  | p :: w', x :: s' => lit_ignorecase p x && marker_here w' s'
  | _ :: _, [] => false
  end.

(** The index of the first occurrence of the marker in [s]. *)
Fixpoint find_marker (w s : pystr) : option nat :=
  if marker_here w s then Some 0
  else
    match s with
    | [] => None
    | _ :: t => option_map S (find_marker w t)
    end.

Definition ANSWER : pystr := py "[ANSWER]".
Definition INSTRUCTION : pystr := py "[INSTRUCTION]".

(** A sequence of [add_conversation_turn] calls: the clock reading, the
    role and the content of each. *)
Definition add_all (calls : list (Q * pystr * pystr)) (s : service) : service :=
  fold_left (fun s '(now, r, c) => add_conversation_turn now r c s) calls s.

Definition record_of (call : Q * pystr * pystr) : turn :=
  let '(_, r, c) := call in {| role := r; content := c |}.

(** The Turns handed to the transcriber, in order, each as the list of
    frames it contains. *)
Definition turns_emitted (tr : list effect) : list (list frame) :=
  flat_map (fun ef => match ef with CallTranscribe fr => [fr] | _ => [] end) tr.

(** The message lists posted to the LLM endpoint, in order. *)
Definition llm_messages (tr : list effect) : list (list turn) :=
  flat_map (fun ef => match ef with CallLLM _ ms => [ms] | _ => [] end) tr.

Definition trace_of (A B C : Type) (r : A * B * list effect * C) : list effect :=
  snd (fst r).

(** The read of this pass succeeds and its chunk is classified as speech. *)
Definition speech_env (e : env) : bool :=
  match audio_read e with
  | Ok c => Qlt_bool SILENCE_THRESHOLD (calculate_energy c)
  | Raise _ => false
  end.

(** The read of this pass succeeds and its chunk is classified as silence. *)
Definition silence_env (e : env) : bool :=
  match audio_read e with
  | Ok c => negb (Qlt_bool SILENCE_THRESHOLD (calculate_energy c))
  | Raise _ => false
  end.

Definition chunk_of (e : env) : frame :=
  match audio_read e with Ok c => c | Raise _ => [] end.

(** At this pass, [SILENCE_DURATION] has elapsed since [since]. *)
Definition timed_out (since : Q) (e : env) : bool :=
  Qle_bool SILENCE_DURATION (now_silence_check e - since).

(** A silent pass on which the timeout is not yet reached. *)
Definition waits_since (since : Q) (e : env) : bool :=
  silence_env e && negb (timed_out since e).

(** The clock reading taken when a run of silent passes begins. *)
Definition silence_begins (sil : list env) (otherwise : env) : Q :=
  now_silence_start (hd otherwise sil).

(** Locals while a turn is being recorded. *)
Definition recording_with (fr : list frame) (since : option Q) : locals :=
  {| recording := true; frames := fr; silence_start := since;
     speech_detected := true |}.

(** The clock reading from which the silence of this pass is measured. *)
Definition silence_since (e : env) (l : locals) : Q :=
  match silence_start l with
  | None => now_silence_start e
  | Some t => t
  end.

(** This pass ends a turn and obtains the transcript [t]: not muted, a
    silent chunk while recording after speech, the timeout reached, more
    frames than [min_speech_frames], and a transcription that succeeds. *)
Definition finalizes (e : env) (s : service) (l : locals) (t : pystr) : Prop :=
  is_muted s = false
  /\ silence_env e = true
  /\ recording l = true
  /\ speech_detected l = true
  /\ timed_out (silence_since e l) e = true
  /\ (Z.of_nat (length (frames l ++ [chunk_of e])) > min_speech_frames s)%Z
  /\ exists segments,
       transcribe_result e = Ok segments
       /\ strip (join (py " ") segments) = t.

(** The read of this pass succeeds. *)
Definition reads_ok (e : env) : bool :=
  match audio_read e with Ok _ => true | Raise _ => false end.

(** The service is running, not muted, at the sample rate of [__init__]. *)
Definition listening (s : service) : Prop :=
  is_muted s = false /\ should_stop s = false /\ sample_rate s = 16000%Z.

(** A pass in which every clock reading is [clock] and the chunk read is
    [chunk]; the transcriber finds no segment, the LLM is unreachable. *)
Definition pass_at (clock : Q) (chunk : frame) : env :=
  {| now_ctx_check := clock; now_ctx_reset := clock;
     audio_read := Ok chunk;
     now_silence_start := clock; now_silence_check := clock;
     transcribe_result := Ok [];
     now_user_turn := clock; llm_result := PostConnectionError;
     now_assistant_turn := clock; tts_result := Ok tt |}.

(** Chunks of 1024 samples, loud and quiet. *)
Definition loud : frame := repeat 1000%Z 1024.
Definition quiet : frame := repeat 0%Z 1024.

(** The time one chunk of 1024 samples takes at 16000 samples a second. *)
Definition chunk_seconds : Q := 1024 # 16000.

(** [n] passes reading [chunk], one every [chunk_seconds], from [start]. *)
Definition passes_from (start : Q) (n : nat) (chunk : frame) : list env :=
  List.map (fun k : nat => pass_at (start + inject_Z (Z.of_nat k) * chunk_seconds) chunk)
    (seq 0 n).

(** A list read in full: the items separated by [", "], with [", and "]
    before the last one when there are at least two. *)
Definition read_in_full (items : list pystr) : pystr :=
  match items with
  | [] => []
  | [x] => x
  | x :: rest =>
      x ++ concat (List.map (fun y => py ", " ++ y) (removelast rest))
        ++ py ", and " ++ last rest []
  end.

(** What an announcement says about the changes: up to 3 are read in
    full; of more, the first 3 are read and the number of the others is
    stated. *)
Definition changes_part (changes : list pystr) : pystr :=
  match changes with
  | [] => []
  | _ :: _ =>
      if length changes <=? 3 then py ". " ++ read_in_full changes
      else
        py ". " ++ read_in_full (firstn 3 changes)
        ++ py ", and " ++ str_of_nat (length changes - 3) ++ py " more change"
        ++ (if 1 <? length changes - 3 then py "s" else [])
  end.

(** About the notes: up to 4 are read in full; of more, the first 3 are
    read and the number of the others is stated. *)
Definition notes_part (notes : list pystr) : pystr :=
  match notes with
  | [] => []
  | _ :: _ =>
      if length notes <=? 4 then py ". " ++ read_in_full notes
      else
        py ". " ++ read_in_full (firstn 3 notes)
        ++ py ". There are " ++ str_of_nat (length notes - 3)
        ++ py " more important things that need further investigation"
  end.

(** About the risks: up to 2 are read in full; of more, none is read
    and their number is stated. *)
Definition risks_part (risks : list pystr) : pystr :=
  match risks with
  | [] => []
  | _ :: _ =>
      if length risks <=? 2 then py ". However, " ++ read_in_full risks
      else
        py ". Note: " ++ str_of_nat (length risks)
        ++ py " potential risks to be aware of"
  end.

(** The questions, all of them, each after the first behind ["Also,"]. *)
Definition questions_part (questions : list pystr) : pystr :=
  match questions with
  | [] => []
  | q :: more =>
      py ". " ++ q ++ concat (List.map (fun y => py " Also, " ++ y) more)
  end.

(** An [announce] command with the given lists and no other key. *)
Definition announce_command (changes notes risks : list pystr) : command :=
  {| c_command := Some (py "announce"); c_voice := None; c_text := None;
     c_changes := Some changes; c_notes := Some notes; c_risks := Some risks;
     c_next_questions := None |}.

(** The parts of the result of a pass or of a run. *)
Definition service_of (A B C : Type) (r : service * A * B * C) : service :=
  fst (fst (fst r)).

Definition locals_of (A B C : Type) (r : A * locals * B * C) : locals :=
  snd (fst (fst r)).

(** The history holds no more than [max_turns] records. *)
Definition history_bounded (s : service) : Prop :=
  (Z.of_nat (length (conversation_turns s)) <= max_turns s)%Z.

(** The locals of the loop agree with each other: either nothing is
    being recorded, the buffer is empty and no silence is timed; or a
    turn is being recorded, speech has been detected and the buffer is
    not empty. *)
Definition coherent (l : locals) : Prop :=
  l = idle
  \/ (recording l = true /\ speech_detected l = true /\ frames l <> []).

(** The event that reports the inactivity reset. *)
Definition auto_reset_event : effect :=
  debug (py "Auto-resetting context after 2 minutes of inactivity").

(** A command dict that holds the key ["command"] only. *)
Definition command_named (name : string) : command :=
  {| c_command := Some (py name); c_voice := None; c_text := None;
     c_changes := None; c_notes := None; c_risks := None;
     c_next_questions := None |}.

(** A line of input that decodes to the dict [c]. *)
Definition command_input (c : command) (now : Q) (tts : py_result unit)
  : cmd_env :=
  {| line := Ok (py "{...}" ++ [10%N]); decoded := Decoded c;
     now_command := now; now_announce_turn := now; announce_tts := tts |}.

(** The commands the handler knows. *)
Definition known_commands : list string :=
  ["mute"; "unmute"; "reset_context"; "change_voice"; "shutdown"; "announce"]%string.

(** The value of the key ["command"] is none of the known commands. *)
Definition unknown_command (c : command) : bool :=
  forallb (fun name => negb (cmd_eq (c_command c) name)) known_commands.

(** The instructions signalled to the parent process: the fields of the
    [instruction_detected] events, in order. *)
Definition instructions_signalled (tr : list effect) : list pystr :=
  flat_map
    (fun ef =>
       match ef with
       | Emit msg_type fields =>
           if String.eqb msg_type "instruction_detected"
           then List.map snd fields else []
       | _ => []
       end) tr.

(** The four replies of the fallback responder. *)
Definition fallback_replies : list pystr :=
  [py "Hello!"; py "I'll work on that."; py "Let me think about that.";
   py "I'm listening."].

(** Runs of whitespace replaced by one space each. *)
Fixpoint squeeze (s : pystr) : pystr :=
  match s with
  | [] => []
  | x :: t =>
      if is_space x then
        match t with
        | y :: _ => if is_space y then squeeze t else 32%N :: squeeze t
        | [] => [32%N]
        end
      else x :: squeeze t
  end.

(** No whitespace but the space character, and no two in a row. *)
Fixpoint single_spaced (s : pystr) : bool :=
  match s with
  | [] => true
  | x :: t =>
      (negb (is_space x) || (x =? 32)%N)
      && match t with
         | y :: _ => negb (is_space x && is_space y)
         | [] => true
         end
      && single_spaced t
  end.

(** Not whitespace at the first place. *)
Definition starts_clean (s : pystr) : bool :=
  match s with x :: _ => negb (is_space x) | [] => true end.

(** Not whitespace at the last place. *)
Definition ends_clean (s : pystr) : bool :=
  match s with
  | [] => true
  | _ :: _ => negb (is_space (last s 0%N))
  end.

(** What a call that [start] makes to the outside comes to: it
    returns, it raises an [Exception] with this [str(e)], or a
    [KeyboardInterrupt] arrives while it runs.  The same three are the
    ways a method of the service ends. *)
Inductive outcome :=
| Returns
| Raises (msg : pystr)
| Interrupted.

(** The component fields of the service, [None] until they are
    assigned: [true] for a field that holds its object. *)
Record components := {
  whisper_model : bool;
  kokoro_tts : bool;
  pyaudio_instance : bool;
  audio_stream : bool
}.

(** The fields as [__init__] leaves them. *)
Definition no_components : components :=
  {| whisper_model := false; kokoro_tts := false;
     pyaudio_instance := false; audio_stream := false |}.

(** The calls of [initialize_components], in their order. *)
Inductive init_step :=
| LoadWhisper      (* WhisperModel(...) *)
| LoadKokoro       (* import onnxruntime, Kokoro(...) *)
| Prewarm          (* kokoro_tts.create("Ready.", ...) *)
| OpenPyAudio.     (* pyaudio.PyAudio() *)

Definition status (message : pystr) : effect :=
  send_message "status" [("message"%string, message)].

(** The [except Exception] clause of [initialize_components]: an
    exception is logged and raised again; a [KeyboardInterrupt] is no
    [Exception] and passes through. *)
Definition init_stopped (o : outcome) (c : components) (tr : list effect)
  : outcome * components * list effect :=
  match o with
  | Raises msg =>
      (o, c, tr ++ [log_error (py "Failed to initialize components: " ++ msg)])
  | _ => (o, c, tr)
  end.

(** [initialize_components]; [call] says what each of its calls comes
    to.  A field is assigned when its call has returned. *)
Definition initialize_components (call : init_step -> outcome)
  (c : components) : outcome * components * list effect :=
  let tr := [status (py "Loading Whisper STT...")] in
  match call LoadWhisper with
  | Returns =>
      let c := {| whisper_model := true; kokoro_tts := kokoro_tts c;
                  pyaudio_instance := pyaudio_instance c;
                  audio_stream := audio_stream c |} in
      let tr := tr ++ [status (py "Loading Kokoro TTS with GPU...")] in
      match call LoadKokoro with
      | Returns =>
          let c := {| whisper_model := whisper_model c; kokoro_tts := true;
                      pyaudio_instance := pyaudio_instance c;
                      audio_stream := audio_stream c |} in
          let tr := tr ++ [status (py "Pre-warming TTS...")] in
          match call Prewarm with
          | Returns =>
              match call OpenPyAudio with
              | Returns =>
                  ( Returns,
                    {| whisper_model := whisper_model c;
                       kokoro_tts := kokoro_tts c;
                       pyaudio_instance := true;
                       audio_stream := audio_stream c |},
                    tr ++ [send_message "initialized" []] )
              | o => init_stopped o c tr
              end
          | o => init_stopped o c tr
          end
      | o => init_stopped o c tr
      end
  | o => init_stopped o c tr
  end.

(** [start_audio_stream]; [open] is what [pyaudio_instance.open] comes
    to. *)
Definition start_audio_stream (open : outcome) (c : components)
  : outcome * components * list effect :=
  match open with
  | Returns =>
      ( Returns,
        {| whisper_model := whisper_model c; kokoro_tts := kokoro_tts c;
           pyaudio_instance := pyaudio_instance c; audio_stream := true |},
        [send_message "audio_stream_started" []] )
  | Raises msg =>
      (open, c, [log_error (py "Failed to start audio stream: " ++ msg)])
  | Interrupted => (open, c, [])
  end.

(** [cleanup]: the handles that exist are stopped, closed and
    terminated, then the parent is told.  [close] is what those calls
    come to; they are made only for a handle that exists, while an
    interrupt can arrive in either case. *)
Definition cleanup (close : outcome) (c : components)
  : outcome * list effect :=
  match close with
  | Interrupted => (Interrupted, [])
  | Raises msg =>
      if audio_stream c || pyaudio_instance c then (Raises msg, [])
      else (Returns, [send_message "shutdown_complete" []])
  | Returns => (Returns, [send_message "shutdown_complete" []])
  end.

(** How [start] ends: it returns, an exception or an interrupt gets out
    of it, or the loop is still running when the passes given run out. *)
Inductive start_exit :=
| Returned
| Raised (msg : pystr)
| RaisedInterrupt
| StillRunning.

(** [except KeyboardInterrupt: pass], then [finally: self.cleanup()]:
    an interrupt in the body is swallowed, and what the clean-up raises
    replaces what the body ended with. *)
Definition finally_cleanup (body close : outcome) (c : components)
  (tr : list effect) : start_exit * list effect :=
  match cleanup close c with
  | (Returns, tr') =>
      (match body with Raises msg => Raised msg | _ => Returned end, tr ++ tr')
  | (Raises msg, tr') => (Raised msg, tr ++ tr')
  | (Interrupted, tr') => (RaisedInterrupt, tr ++ tr')
  end.

Section Start.
Context {rt : PyRuntime}.

(** [start].  The loop makes the passes of [envs]; when they run out
    with the loop still running, [cut] says whether a
    [KeyboardInterrupt] arrives in the pass that follows, and then what
    that pass had emitted and the state it left when it was cut.  The
    command listener that [start] launches runs beside the loop and is
    not part of this trace. *)
Definition start (call : init_step -> outcome) (open : outcome)
  (envs : list env) (cut : option (service * list effect)) (close : outcome)
  (s : service) : start_exit * service * components * list effect :=
  match initialize_components call no_components with
  | (Returns, c, tr) =>
      match start_audio_stream open c with
      | (Returns, c, tr2) =>
          let '(s', _, tr3, x) := process_audio_loop envs s in
          let tr := tr ++ tr2 ++ [send_message "ready" []] ++ tr3 in
          match x, cut with
          | Stopped, _ =>
              let '(x, tr) := finally_cleanup Returns close c tr in
              (x, s', c, tr)
          | Running, Some (s_cut, tr_cut) =>
              let '(x, tr) :=
                finally_cleanup Interrupted close c (tr ++ tr_cut) in
              (x, s_cut, c, tr)
          | Running, None => (StillRunning, s', c, tr)
          end
      | (o, c, tr2) =>
          let '(x, tr) := finally_cleanup o close c (tr ++ tr2) in
          (x, s, c, tr)
      end
  | (o, c, tr) =>
      let '(x, tr) := finally_cleanup o close c tr in
      (x, s, c, tr)
  end.

End Start.

(** The place of a step in [initialize_components]. *)
Definition step_index (st : init_step) : nat :=
  match st with
  | LoadWhisper => 0
  | LoadKokoro => 1
  | Prewarm => 2
  | OpenPyAudio => 3
  end.

(** The status lines of [initialize_components]; the last two steps
    share the third. *)
Definition status_lines : list effect :=
  [status (py "Loading Whisper STT...");
   status (py "Loading Kokoro TTS with GPU...");
   status (py "Pre-warming TTS...")].

(** The components assigned when step [st] is reached. *)
Definition loaded_before (st : init_step) : components :=
  {| whisper_model := 0 <? step_index st;
     kokoro_tts := 1 <? step_index st;
     pyaudio_instance := false;
     audio_stream := false |}.



(** The text up to the first occurrence of the marker; all of it when
    the marker does not occur. *)
Definition before_marker (w s : pystr) : pystr :=
  match find_marker w s with
  | Some j => firstn j s
  | None => s
  end.

(** What follows the marker in [answer_re]:
    r'\s*(.*?)(?=\[INSTRUCTION\]|$)'. *)
Definition answer_tail : re :=
  Cat (Rep true CSpace)
    (Cat (Grp 1 (Rep false CDot)) (Look (Alt (lit_i INSTRUCTION) Eos))).

(** The pattern matches nowhere in a text without a full stop. *)
Definition needs_dot {rt : PyRuntime} (r : re) : Prop :=
  forall bef rest : pystr, ~ In 46%N rest -> match_at r bef rest = None.

(* ===================================================================== *)
(** ** The decoder of the command lines *)
(* ===================================================================== *)

(** [json.loads] is not part of the repository.  It is modelled here as
    the decoder of CPython is written ([json/decoder.py] and the scanner
    of [_json.c]): the grammar of RFC 8259, and besides it the constants
    [NaN], [Infinity] and [-Infinity]. *)
Module Json.

(** The value [json.loads] builds. *)
#[local] Unset Elimination Schemes.
Inductive jvalue :=
| JNull                                (* None *)
| JBool (b : bool)
| JInt (literal : pystr)               (* int: no fraction, no exponent *)
| JFloat (literal : pystr)             (* float: any other number or constant *)
| JStr (s : pystr)
| JArr (items : list jvalue)
| JObj (pairs : list (pystr * jvalue)).  (* in order of appearance *)
#[local] Set Elimination Schemes.

(** What decoding comes to.  [Limit]: the text is nested deeper, or
    holds an [int] of more digits, than the model follows; there the
    limits of the interpreter decide (recursion depth, digits of an
    [int]), and they differ between versions. *)
Inductive loads_result :=
| Loaded (v : jvalue)
| DecodeError                          (* json.JSONDecodeError *)
| Limit.

(** Where two decoders differ. *)
Record dialect := {
  constants : bool;            (* NaN, Infinity, -Infinity are values *)
  depth : nat;                 (* levels of nesting that are followed *)
  int_digits : option nat      (* digits of an int that are followed *)
}.

(** A step of the scanner: a value and the text after it. *)
Inductive scan (A : Type) :=
| Found (a : A) (rest : pystr)
| Fails
| Beyond.
Arguments Found {A} a rest.
Arguments Fails {A}.
Arguments Beyond {A}.

(** [IS_WHITESPACE]: space, tab, line feed, carriage return. *)
Definition json_ws (c : N) : bool :=
  ((c =? 32) || (c =? 9) || (c =? 10) || (c =? 13))%N.

Fixpoint skip_ws (s : pystr) : pystr :=
  match s with
  | c :: t => if json_ws c then skip_ws t else s
  | [] => []
  end.

Definition is_digit (c : N) : bool := ((48 <=? c) && (c <=? 57))%N.

Definition hex_digit (c : N) : option N :=
  if is_digit c then Some (c - 48)%N
  else if ((97 <=? c) && (c <=? 102))%N then Some (c - 87)%N
  else if ((65 <=? c) && (c <=? 70))%N then Some (c - 55)%N
  else None.

(** The four hexadecimal digits of a [\uXXXX] escape. *)
Definition hex4 (s : pystr) : option (N * pystr) :=
  match s with
  | a :: b :: c :: d :: rest =>
      match hex_digit a, hex_digit b, hex_digit c, hex_digit d with
      | Some a, Some b, Some c, Some d =>
          Some ((((a * 16 + b) * 16 + c) * 16 + d)%N, rest)
      | _, _, _, _ => None
      end
  | _ => None
  end.

(** The character of a one-letter escape. *)
Definition simple_escape (c : N) : option N :=
  if (c =? 34)%N then Some 34%N            (* quotation mark *)
  else if (c =? 92)%N then Some 92%N       (* backslash *)
  else if (c =? 47)%N then Some 47%N       (* slash *)
  else if (c =? 98)%N then Some 8%N        (* b *)
  else if (c =? 102)%N then Some 12%N      (* f *)
  else if (c =? 110)%N then Some 10%N      (* n *)
  else if (c =? 114)%N then Some 13%N      (* r *)
  else if (c =? 116)%N then Some 9%N       (* t *)
  else None.

Definition high_surrogate (u : N) : bool := ((55296 <=? u) && (u <=? 56319))%N.
Definition low_surrogate (u : N) : bool := ((56320 <=? u) && (u <=? 57343))%N.

(** [scanstring] with [strict=True], from just after the opening
    quotation mark; [acc] holds the characters read, last first. *)
Fixpoint scan_string (fuel : nat) (s acc : pystr) : scan pystr :=
  match fuel with
  | O => Fails
  | S fuel =>
      match s with
      | [] => Fails
      | c :: t =>
          if (c =? 34)%N then Found (rev acc) t
          else if (c =? 92)%N then
            match t with
            | [] => Fails
            | e :: t' =>
                if (e =? 117)%N then
                  match hex4 t' with
                  | None => Fails
                  | Some (u, t2) =>
                      if high_surrogate u then
                        match t2 with
                        | 92%N :: 117%N :: t3 =>
                            match hex4 t3 with
                            | None => Fails
                            | Some (u2, t4) =>
                                if low_surrogate u2 then
                                  scan_string fuel t4
                                    ((65536 + (u - 55296) * 1024
                                      + (u2 - 56320))%N :: acc)
                                else scan_string fuel t2 (u :: acc)
                            end
                        | _ => scan_string fuel t2 (u :: acc)
                        end
                      else scan_string fuel t2 (u :: acc)
                  end
                else
                  match simple_escape e with
                  | Some ch => scan_string fuel t' (ch :: acc)
                  | None => Fails
                  end
            end
          else if (c <? 32)%N then Fails
          else scan_string fuel t (c :: acc)
      end
  end.

(** The digits at the head of the text, and the text after them. *)
Fixpoint digits (s : pystr) : pystr * pystr :=
  match s with
  | c :: t =>
      if is_digit c then let '(d, rest) := digits t in (c :: d, rest)
      else ([], s)
  | [] => ([], [])
  end.

(** The integer part: [0], or a digit from 1 to 9 and the digits after
    it. *)
Definition int_part (s : pystr) : option (pystr * pystr) :=
  match s with
  | c :: t =>
      if (c =? 48)%N then Some ([c], t)
      else if is_digit c then let '(d, rest) := digits t in Some (c :: d, rest)
      else None
  | [] => None
  end.

(** A full stop and at least one digit, when they come next. *)
Definition frac_part (s : pystr) : pystr * pystr :=
  match s with
  | 46%N :: t =>
      match digits t with
      | ([], _) => ([], s)
      | (d, rest) => (46%N :: d, rest)
      end
  | _ => ([], s)
  end.

(** [e] or [E], a sign or none, and at least one digit, when they come
    next. *)
Definition exp_part (s : pystr) : pystr * pystr :=
  match s with
  | e :: t =>
      if ((e =? 101) || (e =? 69))%N then
        let '(sign, t') :=
          match t with
          | c :: t' => if ((c =? 43) || (c =? 45))%N then ([c], t') else ([], t)
          | [] => ([], t)
          end in
        match digits t' with
        | ([], _) => ([], s)
        | (d, rest) => (e :: sign ++ d, rest)
        end
      else ([], s)
  | [] => ([], s)
  end.

(** [_match_number]: an [int] when there is neither fraction nor
    exponent, a [float] otherwise. *)
Definition scan_number (d : dialect) (s : pystr) : scan jvalue :=
  let '(sign, s1) :=
    match s with
    | 45%N :: t => ([45%N], t)
    | _ => ([], s)
    end in
  match int_part s1 with
  | None => Fails
  | Some (i, s2) =>
      let '(f, s3) := frac_part s2 in
      let '(e, s4) := exp_part s3 in
      match f, e with
      | [], [] =>
          match int_digits d with
          | Some most =>
              if most <? length i then Beyond else Found (JInt (sign ++ i)) s4
          | None => Found (JInt (sign ++ i)) s4
          end
      | _, _ => Found (JFloat (sign ++ i ++ f ++ e)) s4
      end
  end.

(** The text begins with this word. *)
Definition word (w : string) (s : pystr) : option pystr :=
  if starts_with (py w) s then Some (skipn (String.length w) s) else None.

(** [scan_once] at the head of the text, and the two loops it enters:
    the items of an array after its bracket, the members of an object
    after its brace.  [fuel] bounds the calls; twice the length of the
    text is enough. *)
Fixpoint scan_once (fuel : nat) (d : dialect) (deep : nat) (s : pystr)
  {struct fuel} : scan jvalue :=
  match fuel with
  | O => Beyond
  | S fuel =>
      match s with
      | [] => Fails
      | c :: t =>
          if (c =? 34)%N then
            match scan_string (length t) t [] with
            | Found str rest => Found (JStr str) rest
            | Fails => Fails
            | Beyond => Beyond
            end
          else if (c =? 123)%N then
            match deep with
            | O => Beyond
            | S deep =>
                match skip_ws t with
                | 125%N :: rest => Found (JObj []) rest
                | t' =>
                    match members fuel d deep t' [] with
                    | Found pairs rest => Found (JObj pairs) rest
                    | Fails => Fails
                    | Beyond => Beyond
                    end
                end
            end
          else if (c =? 91)%N then
            match deep with
            | O => Beyond
            | S deep =>
                match skip_ws t with
                | 93%N :: rest => Found (JArr []) rest
                | t' =>
                    match items fuel d deep t' [] with
                    | Found vs rest => Found (JArr vs) rest
                    | Fails => Fails
                    | Beyond => Beyond
                    end
                end
            end
          else
            match word "null" s, word "true" s, word "false" s with
            | Some rest, _, _ => Found JNull rest
            | _, Some rest, _ => Found (JBool true) rest
            | _, _, Some rest => Found (JBool false) rest
            | None, None, None =>
                match
                  (if constants d then
                     match word "NaN" s, word "Infinity" s,
                           word "-Infinity" s with
                     | Some rest, _, _ => Some (JFloat (py "NaN"), rest)
                     | _, Some rest, _ => Some (JFloat (py "Infinity"), rest)
                     | _, _, Some rest => Some (JFloat (py "-Infinity"), rest)
                     | None, None, None => None
                     end
                   else None)
                with
                | Some (v, rest) => Found v rest
                | None => scan_number d s
                end
            end
      end
  end

with items (fuel : nat) (d : dialect) (deep : nat) (s : pystr)
  (acc : list jvalue) {struct fuel} : scan (list jvalue) :=
  match fuel with
  | O => Beyond
  | S fuel =>
      match scan_once fuel d deep s with
      | Found v rest =>
          match skip_ws rest with
          | 93%N :: rest' => Found (rev (v :: acc)) rest'
          | 44%N :: rest' => items fuel d deep (skip_ws rest') (v :: acc)
          | _ => Fails
          end
      | Fails => Fails
      | Beyond => Beyond
      end
  end

with members (fuel : nat) (d : dialect) (deep : nat) (s : pystr)
  (acc : list (pystr * jvalue)) {struct fuel} : scan (list (pystr * jvalue)) :=
  match fuel with
  | O => Beyond
  | S fuel =>
      match s with
      | 34%N :: t =>
          match scan_string (length t) t [] with
          | Found key rest =>
              match skip_ws rest with
              | 58%N :: rest' =>
                  match scan_once fuel d deep (skip_ws rest') with
                  | Found v rest'' =>
                      match skip_ws rest'' with
                      | 125%N :: after => Found (rev ((key, v) :: acc)) after
                      | 44%N :: after =>
                          members fuel d deep (skip_ws after) ((key, v) :: acc)
                      | _ => Fails
                      end
                  | Fails => Fails
                  | Beyond => Beyond
                  end
              | _ => Fails
              end
          | Fails => Fails
          | Beyond => Beyond
          end
      | _ => Fails
      end
  end.

(** [JSONDecoder.decode]: whitespace, one value, whitespace, and
    nothing after it. *)
Definition decode_with (d : dialect) (s : pystr) : loads_result :=
  match scan_once (2 * length s + 2) d (depth d) (skip_ws s) with
  | Found v rest =>
      match skip_ws rest with
      | [] => Loaded v
      | _ :: _ => DecodeError
      end
  | Fails => DecodeError
  | Beyond => Limit
  end.

(** The decoder of Python.  Nesting is followed 100 levels deep, far
    from the recursion limit of any version, and an [int] up to the
    4300 digits that every version converts. *)
Definition python : dialect :=
  {| constants := true; depth := 100; int_digits := Some 4300 |}.

(** [json.loads(s)] for a [str]. *)
Definition loads (s : pystr) : loads_result := decode_with python s.

(** The spec's side of C9: what its words [valid JSON] say of a line, a
    JSON text by the grammar of RFC 8259, of any depth, without the
    constants of Python. *)
Definition valid_json (s : pystr) : bool :=
  match decode_with {| constants := false; depth := S (length s);
                       int_digits := None |} s with
  | Loaded _ => true
  | _ => false
  end.

(** [dict(pairs)[key]]: of equal keys the last one holds. *)
Fixpoint dict_get (key : pystr) (pairs : list (pystr * jvalue))
  : option jvalue :=
  match pairs with
  | [] => None
  | (k, v) :: rest =>
      match dict_get key rest with
      | Some later => Some later
      | None => if pystr_eqb k key then Some v else None
      end
  end.

End Json.

(** The decoded dict as the record of the keys the handler reads.  The
    record holds strings and lists of strings, the types of the
    protocol; [None] for a dict with another value under one of these
    keys, which the record does not describe.  A [null] under
    ["command"] reads as [None], like an absent key. *)
Definition string_key (key : string) (pairs : list (pystr * Json.jvalue))
  : option (option pystr) :=
  match Json.dict_get (py key) pairs with
  | None => Some None
  | Some (Json.JStr s) => Some (Some s)
  | Some _ => None
  end.

Definition strings_of (vs : list Json.jvalue) : option (list pystr) :=
  fold_right
    (fun v acc =>
       match v, acc with
       | Json.JStr s, Some l => Some (s :: l)
       | _, _ => None
       end)
    (Some []) vs.

Definition list_key (key : string) (pairs : list (pystr * Json.jvalue))
  : option (option (list pystr)) :=
  match Json.dict_get (py key) pairs with
  | None => Some None
  | Some (Json.JArr vs) =>
      match strings_of vs with
      | Some l => Some (Some l)
      | None => None
      end
  | Some _ => None
  end.

Definition command_of_dict (pairs : list (pystr * Json.jvalue))
  : option command :=
  match
    match Json.dict_get (py "command") pairs with
    | Some Json.JNull => Some None
    | _ => string_key "command" pairs
    end,
    string_key "voice" pairs, string_key "text" pairs,
    list_key "changes" pairs, list_key "notes" pairs,
    list_key "risks" pairs, list_key "next_questions" pairs
  with
  | Some cmd, Some voice, Some text, Some changes, Some notes, Some risks,
    Some questions =>
      Some {| c_command := cmd; c_voice := voice; c_text := text;
              c_changes := changes; c_notes := notes; c_risks := risks;
              c_next_questions := questions |}
  | _, _, _, _, _, _, _ => None
  end.

(** [str(e)] of the [AttributeError] that [command.get] raises on a
    value that is no dict. *)
Definition no_get (type_name : string) : pystr :=
  [39%N] ++ py type_name ++ [39%N] ++ py " object has no attribute "
  ++ [39%N] ++ py "get" ++ [39%N].

(** What [json.loads(text)] hands to the listener; [None] where the
    model does not follow the decoder or cannot hold the dict. *)
Definition decode (text : pystr) : option json_outcome :=
  match Json.loads text with
  | Json.DecodeError => Some JSONDecodeError
  | Json.Limit => None
  | Json.Loaded (Json.JObj pairs) =>
      match command_of_dict pairs with
      | Some c => Some (Decoded c)
      | None => None
      end
  | Json.Loaded (Json.JArr _) => Some (DecodedOther (no_get "list"))
  | Json.Loaded (Json.JStr _) => Some (DecodedOther (no_get "str"))
  | Json.Loaded (Json.JInt _) => Some (DecodedOther (no_get "int"))
  | Json.Loaded (Json.JFloat _) => Some (DecodedOther (no_get "float"))
  | Json.Loaded (Json.JBool _) => Some (DecodedOther (no_get "bool"))
  | Json.Loaded Json.JNull => Some (DecodedOther (no_get "NoneType"))
  end.

(** The pass reads the line [text], and what it decodes is what
    [json.loads(line.strip())] gives. *)
Definition reads_line (e : cmd_env) (text : pystr) : Prop :=
  line e = Ok text /\ decode (strip text) = Some (decoded e).

(** What follows the marker in [instruction_re]: r'\s*(.*?)$'. *)
Definition after_marker : re :=
  Cat (Rep true CSpace) (Cat (Grp 1 (Rep false CDot)) Eos).

(** A runtime for ASCII text: [str.lower()] on ASCII letters, and no
    word characters beyond ASCII. *)
Definition ascii_runtime : PyRuntime :=
  {| str_lower := List.map ascii_lower; uni_alnum := fun _ => false |}.

(* ===================================================================== *)
(** * Properties *)
(* ===================================================================== *)

(** ** Strings *)

Lemma rstrip_app_newline (g : pystr) : rstrip (g ++ [10%N]) = rstrip g.
Proof.
  induction g as [|c g IH]; simpl; [reflexivity|].
  rewrite IH. reflexivity.
Qed.

Lemma lstrip_rstrip_cons_space (c : N) (t : pystr) :
  is_space c = true -> lstrip (rstrip (c :: t)) = lstrip (rstrip t).
Proof.
  intros Hc. simpl. destruct (rstrip t) as [|r0 r] eqn:E.
  - rewrite Hc. reflexivity.
  - simpl. rewrite Hc. reflexivity.
Qed.

Lemma strip_lstrip (s : pystr) : strip (lstrip s) = strip s.
Proof.
  unfold strip. induction s as [|c t IH]; [reflexivity|].
  simpl lstrip at 2. destruct (is_space c) eqn:Hc.
  - rewrite IH. symmetry. apply lstrip_rstrip_cons_space. exact Hc.
  - reflexivity.
Qed.

Lemma strip_app_tail (g tl : pystr) :
  tl = [] \/ tl = [10%N] -> strip (g ++ tl) = strip g.
Proof.
  intros [-> | ->]; unfold strip.
  - rewrite app_nil_r. reflexivity.
  - rewrite rstrip_app_newline. reflexivity.
Qed.

Lemma truthy_false_nil (s : pystr) : truthy s = false <-> s = [].
Proof. destruct s; simpl; split; congruence. Qed.

Lemma truthy_true_iff (s : pystr) : truthy s = true <-> s <> [].
Proof. destruct s; simpl; split; congruence. Qed.

(** ** The matcher on the two response patterns *)

Section RegexFacts.
Context {rt : PyRuntime}.

(** A literal word consumes exactly an occurrence of the marker. *)
Lemma rmatch_lit_i (w : pystr) : forall (k : kont) (bef rest : pystr) (cs : caps),
  rmatch (lit_i w) k bef rest cs =
  if marker_here w rest
  then k (rev (firstn (length w) rest) ++ bef) (skipn (length w) rest) cs
  else None.
Proof.
  induction w as [|c w IH]; intros k bef rest cs.
  - reflexivity.
  - change (lit_i (c :: w)) with (Cat (One (CLitI c)) (lit_i w)).
    destruct rest as [|x xs]; [reflexivity|].
    simpl. destruct (lit_ignorecase c x); simpl; [|reflexivity].
    rewrite IH. destruct (marker_here w xs); [|reflexivity].
    rewrite <- app_assoc. reflexivity.
Qed.

(** A pattern that starts with a marker finds nothing where the marker
    does not occur. *)
Lemma search_from_no_marker (w : pystr) (r : re) : forall (rest bef : pystr),
  find_marker w rest = None ->
  search_from (Cat (lit_i w) r) bef rest = None.
Proof.
  induction rest as [|x xs IH]; intros bef H; simpl in H.
  - destruct (marker_here w []) eqn:E; [discriminate|].
    simpl. unfold match_at. simpl. rewrite rmatch_lit_i, E. reflexivity.
  - destruct (marker_here w (x :: xs)) eqn:E; [discriminate|].
    destruct (find_marker w xs) eqn:F; [discriminate|].
    simpl. unfold match_at. simpl rmatch. rewrite rmatch_lit_i, E.
    apply IH. reflexivity.
Qed.

(** It matches at the first occurrence when the rest of the pattern
    succeeds there. *)
Lemma search_from_first_marker (w : pystr) (r : re) :
  forall (rest bef : pystr) (i : nat),
  find_marker w rest = Some i ->
  (forall b t, rmatch r accept b t [] <> None) ->
  search_from (Cat (lit_i w) r) bef rest =
  rmatch r accept
    (rev (firstn (length w) (skipn i rest)) ++ rev (firstn i rest) ++ bef)
    (skipn (length w) (skipn i rest)) [].
Proof.
  induction rest as [|x xs IH]; intros bef i H Hr; simpl in H.
  - destruct (marker_here w []) eqn:E; [|discriminate].
    injection H as <-. simpl. unfold match_at. simpl.
    rewrite rmatch_lit_i, E.
    destruct (rmatch r accept _ _ []) eqn:R; [reflexivity|].
    exfalso. eapply Hr. exact R.
  - destruct (marker_here w (x :: xs)) eqn:E.
    + injection H as <-. simpl skipn. simpl firstn at 2. simpl rev at 2.
      simpl app at 2.
      simpl. unfold match_at. simpl rmatch. rewrite rmatch_lit_i, E.
      destruct (rmatch r accept _ _ []) eqn:R; [reflexivity|].
      exfalso. eapply Hr. exact R.
    + destruct (find_marker w xs) as [j|] eqn:F; [|discriminate].
      injection H as <-.
      simpl. unfold match_at. simpl rmatch. rewrite rmatch_lit_i, E.
      rewrite (IH (x :: bef) j eq_refl Hr).
      rewrite <- (app_assoc (rev (firstn j xs)) [x] bef). reflexivity.
Qed.

End RegexFacts.

Section InstructionPattern.
Context {rt : PyRuntime}.

Lemma firstn_consumed (acc b0 : pystr) :
  rev (firstn (length (rev acc ++ b0) - length b0) (rev acc ++ b0)) = acc.
Proof.
  rewrite length_app, Nat.add_sub, firstn_app, Nat.sub_diag.
  rewrite firstn_all, firstn_O, app_nil_r. apply rev_involutive.
Qed.

(** The lazy group followed by [$] always succeeds; it stops at the end
    of the text or just before a final newline. *)
Lemma lazy_group_eos (b0 : pystr) (cs : caps) : forall (r acc : pystr),
  exists g tl,
    rep_lazy CDot
      (fun b' r' =>
         rmatch Eos accept b' r'
           ((1, rev (firstn (length b' - length b0) b')) :: cs))
      (rev acc ++ b0) r
    = Some (rev g ++ b0, tl, (1, g) :: cs)
    /\ acc ++ r = g ++ tl
    /\ (tl = [] \/ tl = [10%N]).
Proof.
  induction r as [|x xs IH]; intros acc.
  - exists acc, []. simpl. rewrite firstn_consumed, app_nil_r.
    repeat split. left; reflexivity.
  - assert (Hstep :
      exists g tl,
        rep_lazy CDot
          (fun b' r' =>
             rmatch Eos accept b' r'
               ((1, rev (firstn (length b' - length b0) b')) :: cs))
          (x :: rev acc ++ b0) xs
        = Some (rev g ++ b0, tl, (1, g) :: cs)
        /\ acc ++ x :: xs = g ++ tl /\ (tl = [] \/ tl = [10%N])).
    { destruct (IH (acc ++ [x])) as (g & tl & E & A & T).
      exists g, tl. rewrite rev_unit in E. simpl in E.
      rewrite <- app_assoc in A. simpl in A. auto. }
    destruct xs as [|y ys].
    + simpl. destruct (x =? 10)%N eqn:E10.
      * apply N.eqb_eq in E10. subst x.
        exists acc, [10%N]. unfold accept. rewrite firstn_consumed.
        repeat split. right; reflexivity.
      * simpl in Hstep. exact Hstep.
    + simpl. simpl in Hstep. exact Hstep.
Qed.

(** Greedy [\s*] in front of something that always succeeds consumes
    the whole run of leading whitespace. *)
Lemma greedy_space_total (K : pystr -> pystr -> option mres) :
  (forall b r, K b r <> None) ->
  forall rest bef,
    exists ws, rep_greedy CSpace K bef rest = K (rev ws ++ bef) (lstrip rest)
               /\ rest = ws ++ lstrip rest.
Proof.
  intros HK. induction rest as [|x xs IH]; intros bef.
  - exists []. split; reflexivity.
  - simpl. destruct (is_space x) eqn:Hx.
    + destruct (IH (x :: bef)) as (ws & E & A).
      exists (x :: ws). rewrite E. split.
      * simpl. rewrite <- app_assoc. simpl.
        destruct (K (rev ws ++ x :: bef) (lstrip xs)) eqn:R; [reflexivity|].
        exfalso. eapply HK. exact R.
      * simpl. f_equal. exact A.
    + exists []. split; reflexivity.
Qed.

Lemma after_marker_matches (b t : pystr) :
  exists m, rmatch after_marker accept b t [] = Some m
            /\ strip (group 1 m) = strip t.
Proof.
  unfold after_marker. simpl rmatch.
  set (K := fun b0 r0 =>
              rep_lazy CDot
                (fun b' r' =>
                   rmatch Eos accept b' r'
                     ((1, rev (firstn (length b' - length b0) b')) :: []))
                b0 r0).
  assert (HK : forall b0 r0, exists g tl,
             K b0 r0 = Some (rev g ++ b0, tl, [(1, g)])
             /\ r0 = g ++ tl /\ (tl = [] \/ tl = [10%N])).
  { intros b0 r0. destruct (lazy_group_eos b0 [] r0 []) as (g & tl & E & A & T).
    exists g, tl. simpl in E. auto. }
  destruct (greedy_space_total K) with (rest := t) (bef := b) as (ws & E & A).
  { intros b0 r0 H. destruct (HK b0 r0) as (g & tl & E & _). congruence. }
  destruct (HK (rev ws ++ b) (lstrip t)) as (g & tl & Eg & Ag & T).
  exists (rev g ++ rev ws ++ b, tl, [(1, g)]). split.
  - change (rep_greedy CSpace K b t = Some (rev g ++ rev ws ++ b, tl, [(1, g)])).
    rewrite E. exact Eg.
  - unfold group. simpl.
    rewrite <- (strip_lstrip t), Ag. symmetry. apply strip_app_tail. exact T.
Qed.

Lemma after_marker_total (b t : pystr) : rmatch after_marker accept b t [] <> None.
Proof.
  destruct (after_marker_matches b t) as (m & E & _). congruence.
Qed.

(** [instruction_re] finds the first marker and captures what follows. *)
Lemma search_instruction (s : pystr) (i : nat) :
  find_marker INSTRUCTION s = Some i ->
  exists m, search instruction_re s = Some m
            /\ strip (group 1 m) = strip (skipn (i + 13) s).
Proof.
  intros H. unfold search.
  change instruction_re with (Cat (lit_i INSTRUCTION) after_marker).
  rewrite (search_from_first_marker INSTRUCTION after_marker s [] H
             after_marker_total).
  destruct (after_marker_matches
              (rev (firstn (length INSTRUCTION) (skipn i s)) ++ rev (firstn i s) ++ [])
              (skipn (length INSTRUCTION) (skipn i s))) as (m & E & G).
  exists m. split; [exact E|].
  rewrite G, skipn_skipn. change (length INSTRUCTION) with 13.
  rewrite Nat.add_comm. reflexivity.
Qed.

Lemma search_answer_none (s : pystr) :
  find_marker ANSWER s = None -> search answer_re s = None.
Proof.
  intros H. unfold search, answer_re.
  apply (search_from_no_marker ANSWER). exact H.
Qed.

Lemma search_instruction_none (s : pystr) :
  find_marker INSTRUCTION s = None -> search instruction_re s = None.
Proof.
  intros H. unfold search, instruction_re.
  apply (search_from_no_marker INSTRUCTION). exact H.
Qed.

End InstructionPattern.

(* ===================================================================== *)
(** ** C1: the dual-channel parser *)
(* ===================================================================== *)

(** C1, as amended.  On the spec's example the parser returns answer
    "Hi there." and instruction "Create a file".  For every input with
    neither an [ANSWER] nor an [INSTRUCTION] marker (in any letter case)
    the whole trimmed input is the answer and the instruction is absent
    (the empty string).  For every input with an [INSTRUCTION] marker and
    no [ANSWER] marker, in which something other than whitespace follows
    the first [INSTRUCTION] marker, the answer is the empty string and
    the instruction is the trimmed text after that marker. *)
Theorem C1_parse_dual_output {rt : PyRuntime} :
  _parse_dual_output (py "[ANSWER] Hi there. [INSTRUCTION] Create a file")
    = (py "Hi there.", py "Create a file")
  /\ (forall s,
        find_marker ANSWER s = None ->
        find_marker INSTRUCTION s = None ->
        _parse_dual_output s = (strip s, []))
  /\ (forall s i,
        find_marker ANSWER s = None ->
        find_marker INSTRUCTION s = Some i ->
        strip (skipn (i + 13) s) <> [] ->
        _parse_dual_output s = ([], strip (skipn (i + 13) s))).
Proof.
  split; [vm_compute; reflexivity|]. split.
  - intros s HA HI. unfold _parse_dual_output.
    rewrite (search_answer_none s HA), (search_instruction_none s HI).
    reflexivity.
  - intros s i HA HI Hne. unfold _parse_dual_output.
    rewrite (search_answer_none s HA).
    destruct (search_instruction s HI) as (m & -> & G).
    rewrite G. apply truthy_true_iff in Hne. rewrite Hne. reflexivity.
Qed.

(** The theorem at two inputs: plain text, and a lone instruction. *)
Lemma C1_parse_dual_output_witness :
  @_parse_dual_output ascii_runtime (py " Just chatting.  ")
    = (py "Just chatting.", [])
  /\ @_parse_dual_output ascii_runtime (py "  [instruction]  do it ")
    = ([], py "do it").
Proof.
  split.
  - apply (proj1 (proj2 (@C1_parse_dual_output ascii_runtime))
             (py " Just chatting.  ")); vm_compute; reflexivity.
  - apply (proj2 (proj2 (@C1_parse_dual_output ascii_runtime))
             (py "  [instruction]  do it ") 2);
      vm_compute; congruence.
Defined.

(** C1 as stated fails on an [INSTRUCTION] marker with nothing after it:
    the input holds only that marker, yet the answer is the whole input
    and the instruction is absent. *)
Lemma C1_counterexample :
  find_marker ANSWER (py "[INSTRUCTION]") = None
  /\ find_marker INSTRUCTION (py "[INSTRUCTION]") = Some 0
  /\ @_parse_dual_output ascii_runtime (py "[INSTRUCTION]")
     = (py "[INSTRUCTION]", []).
Proof. vm_compute. repeat split. Qed.

(* ===================================================================== *)
(** ** C2: the bounded history *)
(* ===================================================================== *)

Lemma last_k_short (A : Type) (k : nat) (l : list A) :
  length l <= k -> last_k k l = l.
Proof.
  intros H. unfold last_k. replace (length l - k) with 0 by lia. reflexivity.
Qed.

Lemma last_k_cons_full (A : Type) (k : nat) (x : A) (l : list A) :
  k <= length l -> last_k k (x :: l) = last_k k l.
Proof.
  intros H. unfold last_k. simpl length.
  replace (S (length l) - k) with (S (length l - k)) by lia. reflexivity.
Qed.

Lemma last_k_length (A : Type) (k : nat) (l : list A) :
  length (last_k k l) <= k.
Proof. unfold last_k. rewrite length_skipn. lia. Qed.

Lemma add_conversation_turn_max (now : Q) (r c : pystr) (s : service) :
  max_turns (add_conversation_turn now r c s) = max_turns s.
Proof. reflexivity. Qed.

(** One call keeps the last [max_turns] records of the old ones followed
    by the new one. *)
Lemma add_conversation_turn_last_k (now : Q) (r c : pystr) (s : service)
  (later : list turn) :
  (0 <= max_turns s)%Z ->
  (Z.of_nat (length (conversation_turns s)) <= max_turns s)%Z ->
  let s' := add_conversation_turn now r c s in
  (Z.of_nat (length (conversation_turns s')) <= max_turns s)%Z
  /\ last_k (Z.to_nat (max_turns s)) (conversation_turns s' ++ later)
     = last_k (Z.to_nat (max_turns s))
         (conversation_turns s ++ {| role := r; content := c |} :: later).
Proof.
  intros Hm Hl. simpl.
  set (rec := {| role := r; content := c |}).
  change (conversation_turns s ++ rec :: later)
    with (conversation_turns s ++ [rec] ++ later).
  rewrite app_assoc.
  destruct (Z.of_nat (length (conversation_turns s ++ [rec])) >? max_turns s)%Z
    eqn:E.
  - apply Z.gtb_lt in E. rewrite length_app in E. simpl in E.
    destruct (conversation_turns s ++ [rec]) as [|x l] eqn:L.
    + destruct (conversation_turns s); discriminate.
    + assert (HL : length (x :: l) = length (conversation_turns s) + 1)
        by (rewrite <- L, length_app; reflexivity).
      simpl in HL. simpl tl. split; [lia|].
      change ((x :: l) ++ later) with (x :: (l ++ later)).
      rewrite last_k_cons_full; [reflexivity|].
      rewrite length_app. lia.
  - split; [|reflexivity].
    destruct (Z.gtb_spec (Z.of_nat (length (conversation_turns s ++ [rec])))
                (max_turns s)); [discriminate|assumption].
Qed.

Lemma add_all_last_k : forall (calls : list (Q * pystr * pystr)) (s : service),
  (0 <= max_turns s)%Z ->
  (Z.of_nat (length (conversation_turns s)) <= max_turns s)%Z ->
  max_turns (add_all calls s) = max_turns s
  /\ conversation_turns (add_all calls s)
     = last_k (Z.to_nat (max_turns s))
         (conversation_turns s ++ List.map record_of calls).
Proof.
  induction calls as [|[[now r] c] calls IH]; intros s Hm Hl.
  - simpl. rewrite app_nil_r. split; [reflexivity|].
    symmetry. apply last_k_short. lia.
  - destruct (add_conversation_turn_last_k now r c s
                (List.map record_of calls) Hm Hl) as [Hl' Hk].
    change (add_all ((now, r, c) :: calls) s)
      with (add_all calls (add_conversation_turn now r c s)).
    destruct (IH (add_conversation_turn now r c s)) as [IHm IHt].
    + rewrite add_conversation_turn_max. exact Hm.
    + rewrite add_conversation_turn_max. exact Hl'.
    + rewrite add_conversation_turn_max in IHm, IHt.
      split; [exact IHm|]. rewrite IHt. exact Hk.
Qed.

(** C2.  From an empty history, after any sequence of
    [add_conversation_turn] calls the number of stored records is at most
    [max_turns]; the stored records are the last [max_turns] of the
    records added, in the order they were added; and a call made when
    the history is full drops exactly the oldest record. *)
Theorem C2_history_bounded_fifo (s0 : service)
  (calls : list (Q * pystr * pystr)) :
  conversation_turns s0 = [] ->
  (0 <= max_turns s0)%Z ->
  (Z.of_nat (length (conversation_turns (add_all calls s0))) <= max_turns s0)%Z
  /\ conversation_turns (add_all calls s0)
     = last_k (Z.to_nat (max_turns s0)) (List.map record_of calls)
  /\ (forall now r c,
        let s := add_all calls s0 in
        (0 < max_turns s0)%Z ->
        Z.of_nat (length (conversation_turns s)) = max_turns s0 ->
        conversation_turns (add_conversation_turn now r c s)
        = tl (conversation_turns s) ++ [{| role := r; content := c |}]).
Proof.
  intros Hempty Hm.
  destruct (add_all_last_k calls s0 Hm) as [Hmax Ht].
  { rewrite Hempty. simpl. exact Hm. }
  rewrite Hempty in Ht. simpl in Ht. repeat split.
  - rewrite Ht. pose proof (last_k_length (Z.to_nat (max_turns s0))
                              (List.map record_of calls)). lia.
  - exact Ht.
  - intros now r c s Hpos Hfull. unfold add_conversation_turn. simpl.
    fold s. rewrite length_app. simpl.
    unfold s at 2. rewrite Hmax.
    replace (Z.of_nat (length (conversation_turns s) + 1) >? max_turns s0)%Z
      with true by (symmetry; apply Z.gtb_lt; lia).
    destruct (conversation_turns s) as [|x l] eqn:L; [simpl in Hfull; lia|].
    reflexivity.
Qed.

(** The theorem on the service as constructed ([max_turns] = 8) and ten
    calls: the two oldest records are gone. *)
Lemma C2_history_bounded_fifo_witness :
  let s0 := init_service (py "http://localhost:11434") (py "prompt") 0 in
  let calls :=
    List.map (fun n : nat => (inject_Z (Z.of_nat n), py "user", str_of_nat n))
      (seq 0 10) in
  conversation_turns (add_all calls s0)
  = List.map (fun n : nat => {| role := py "user"; content := str_of_nat n |})
      (seq 2 8).
Proof.
  intros s0 calls.
  rewrite (proj1 (proj2 (C2_history_bounded_fifo s0 calls eq_refl
                           ltac:(vm_compute; congruence)))).
  vm_compute. reflexivity.
Defined.

(* ===================================================================== *)
(** ** C5: the inactivity reset *)
(* ===================================================================== *)

Lemma Qlt_bool_true (a b : Q) : Qlt_bool a b = true <-> (a < b)%Q.
Proof.
  unfold Qlt_bool. rewrite negb_true_iff. split.
  - intros H. apply Qnot_le_lt. intros L. apply Qle_bool_iff in L. congruence.
  - intros H. destruct (Qle_bool b a) eqn:E; [|reflexivity].
    apply Qle_bool_iff in E. exfalso. apply (Qlt_not_le a b H E).
Qed.

Lemma Qlt_bool_false (a b : Q) : Qlt_bool a b = false <-> (b <= a)%Q.
Proof.
  unfold Qlt_bool. rewrite negb_false_iff. apply Qle_bool_iff.
Qed.

(** C5, as amended.  [check_context_timeout] changes nothing and emits
    nothing when the clock is before [last_activity_time +
    context_timeout]; with a non-empty history and more than
    [context_timeout] since the last activity it empties the history and
    stores the current time as [last_activity_time]; it hands back
    [None] in every case, and a reset is reported by a debug message. *)
Theorem C5_check_context_timeout (now now_reset : Q) (s : service) :
  ((now < last_activity_time s + context_timeout s)%Q ->
   check_context_timeout now now_reset s = (PyNone, s, []))
  /\ (conversation_turns s <> [] ->
      (context_timeout s < now - last_activity_time s)%Q ->
      check_context_timeout now now_reset s
      = (PyNone, set_context s [] now_reset,
         [debug (py "Auto-resetting context after 2 minutes of inactivity")])
      /\ conversation_turns (snd (fst (check_context_timeout now now_reset s)))
         = []
      /\ last_activity_time (snd (fst (check_context_timeout now now_reset s)))
         = now_reset)
  /\ fst (fst (check_context_timeout now now_reset s)) = PyNone.
Proof.
  unfold check_context_timeout. repeat split.
  - intros H. destruct (conversation_turns s); [reflexivity|].
    replace (Qlt_bool (context_timeout s) (now - last_activity_time s))
      with false; [reflexivity|].
    symmetry. apply Qlt_bool_false. lra.
  - destruct (conversation_turns s); [congruence|].
    apply Qlt_bool_true in H0. rewrite H0. reflexivity.
  - destruct (conversation_turns s); [congruence|].
    apply Qlt_bool_true in H0. rewrite H0. reflexivity.
  - destruct (conversation_turns s); [congruence|].
    apply Qlt_bool_true in H0. rewrite H0. reflexivity.
  - destruct (conversation_turns s); [reflexivity|].
    destruct (Qlt_bool _ _); reflexivity.
Qed.

(** The theorem with [max_turns] = 8 and [context_timeout] = 120: one
    record added at time 0, checked at 119 and at 121. *)
Lemma C5_check_context_timeout_witness :
  let s := add_conversation_turn 0 (py "user") (py "hello")
             (init_service (py "http://localhost:11434") (py "prompt") 0) in
  check_context_timeout 119 119 s = (PyNone, s, [])
  /\ conversation_turns (snd (fst (check_context_timeout 121 122 s))) = []
  /\ last_activity_time (snd (fst (check_context_timeout 121 122 s))) = 122%Q.
Proof.
  intros s. split.
  - apply (proj1 (C5_check_context_timeout 119 119 s)).
    vm_compute. reflexivity.
  - apply (proj1 (proj2 (C5_check_context_timeout 121 122 s))).
    + vm_compute. congruence.
    + vm_compute. reflexivity.
Defined.

(** C5 as stated fails on the value handed back: a call that resets and
    a call that does not both return [None]. *)
Lemma C5_counterexample :
  let s := add_conversation_turn 0 (py "user") (py "hello")
             (init_service (py "http://localhost:11434") (py "prompt") 0) in
  conversation_turns (snd (fst (check_context_timeout 121 122 s))) = []
  /\ conversation_turns (snd (fst (check_context_timeout 119 119 s))) <> []
  /\ fst (fst (check_context_timeout 121 122 s)) = PyNone
  /\ fst (fst (check_context_timeout 119 119 s)) = PyNone.
Proof. vm_compute. repeat split. congruence. Qed.

(* ===================================================================== *)
(** ** C6: a spoken answer always exists *)
(* ===================================================================== *)

Lemma fallback_response_nonempty {rt : PyRuntime} (user_input : pystr) :
  _fallback_response user_input <> [].
Proof.
  unfold _fallback_response.
  destruct (existsb _ _); [vm_compute; congruence|].
  destruct (existsb _ _); [vm_compute; congruence|].
  destruct (contains _ _); vm_compute; congruence.
Qed.

(** C6.  Whatever the LLM call comes to, and for every input,
    [generate_fast_response] returns a non-empty answer; on a timeout, a
    connection error, a status other than 200, or an empty content it
    returns what the fallback responder says; and the fallback responder
    returns a non-empty string for every input. *)
Theorem C6_answer_never_empty {rt : PyRuntime} (s : service)
  (user_input : pystr) :
  (forall llm, fst (generate_fast_response llm s user_input) <> [])
  /\ fst (generate_fast_response PostTimeout s user_input)
     = _fallback_response user_input
  /\ fst (generate_fast_response PostConnectionError s user_input)
     = _fallback_response user_input
  /\ (forall msg,
        fst (generate_fast_response (PostRaises msg) s user_input)
        = _fallback_response user_input)
  /\ (forall status_code body,
        status_code <> 200%Z ->
        fst (generate_fast_response (Response status_code body) s user_input)
        = _fallback_response user_input)
  /\ (forall raw,
        strip raw = [] ->
        fst (generate_fast_response (Response 200 (Ok raw)) s user_input)
        = _fallback_response user_input)
  /\ _fallback_response user_input <> [].
Proof.
  pose proof (fallback_response_nonempty user_input) as Hf.
  repeat split; try exact Hf; try reflexivity.
  - intros llm. unfold generate_fast_response.
    destruct llm as [| |msg|status_code body]; try exact Hf.
    destruct (status_code =? 200)%Z; [|exact Hf].
    destruct body as [raw|msg]; [|exact Hf].
    destruct (truthy (strip raw)); [|exact Hf]. simpl negb. cbv iota.
    destruct (_parse_dual_output (strip raw)) as [answer_text instruction_text].
    simpl fst. destruct (truthy answer_text) eqn:E; [|exact Hf].
    apply truthy_true_iff. exact E.
  - intros status_code body H. unfold generate_fast_response.
    apply Z.eqb_neq in H. rewrite H. reflexivity.
  - intros raw H. unfold generate_fast_response. simpl. rewrite H. reflexivity.
Qed.

(** The theorem on a 503 response and on a blank content. *)
Lemma C6_answer_never_empty_witness :
  let s := init_service (py "http://localhost:11434") (py "prompt") 0 in
  fst (@generate_fast_response ascii_runtime (Response 503 (Ok (py "busy"))) s
         (py "Can you fix it"))
  = py "I'll work on that."
  /\ fst (@generate_fast_response ascii_runtime (Response 200 (Ok (py "  "))) s
            (py "Why so?"))
     = py "Let me think about that.".
Proof.
  intros s. split.
  - rewrite (proj1 (proj2 (proj2 (proj2 (proj2
               (@C6_answer_never_empty ascii_runtime s (py "Can you fix it"))))))
               503%Z (Ok (py "busy"))).
    + vm_compute. reflexivity.
    + vm_compute. congruence.
  - rewrite (proj1 (proj2 (proj2 (proj2 (proj2 (proj2
               (@C6_answer_never_empty ascii_runtime s (py "Why so?")))))))
               (py "  ")).
    + vm_compute. reflexivity.
    + vm_compute. reflexivity.
Defined.

(* ===================================================================== *)
(** ** C9: a line that is not JSON *)
(* ===================================================================== *)

(** C9, as amended.  When [json.loads] raises [JSONDecodeError] on the
    stripped line, the listener emits one error event and nothing
    else: the service state is unchanged, no command is handled, and
    the loop goes on with the next line. *)
Theorem C9_invalid_json_ignored {rt : PyRuntime} (e : cmd_env) (s : service)
  (text : pystr) :
  reads_line e text ->
  text <> [] ->
  Json.loads (strip text) = Json.DecodeError ->
  listen_step e s = (s, [log_error (py "Invalid JSON command received")])
  /\ (forall rest,
        should_stop s = false ->
        listen_for_commands (e :: rest) s
        = let '(s', tr, x) := listen_for_commands rest s in
          (s', log_error (py "Invalid JSON command received") :: tr, x)).
Proof.
  intros [Hl Hd] Ht Hj.
  unfold decode in Hd. rewrite Hj in Hd. injection Hd as Hd.
  assert (Hstep : listen_step e s
                  = (s, [log_error (py "Invalid JSON command received")])).
  { unfold listen_step. rewrite Hl, <- Hd.
    apply truthy_true_iff in Ht. rewrite Ht. reflexivity. }
  split; [exact Hstep|].
  intros rest Hs. simpl. rewrite Hs, Hstep.
  destruct (listen_for_commands rest s) as [[s' tr] x]. reflexivity.
Qed.

(** The theorem on a garbled line followed by a [mute] command: the
    error is reported and the command after it still takes effect. *)
Lemma C9_invalid_json_ignored_witness :
  let s := init_service (py "http://localhost:11434") (py "prompt") 0 in
  let garbled :=
    {| line := Ok (py "{mute" ++ [10%N]); decoded := JSONDecodeError;
       now_command := 1; now_announce_turn := 1; announce_tts := Ok tt |} in
  let mute :=
    {| line := Ok (py "{" ++ [34%N] ++ py "command" ++ [34%N] ++ py ": "
                   ++ [34%N] ++ py "mute" ++ [34%N] ++ py "}" ++ [10%N]);
       decoded := Decoded {| c_command := Some (py "mute"); c_voice := None;
                             c_text := None; c_changes := None;
                             c_notes := None; c_risks := None;
                             c_next_questions := None |};
       now_command := 2; now_announce_turn := 2; announce_tts := Ok tt |} in
  @listen_step ascii_runtime garbled s
  = (s, [log_error (py "Invalid JSON command received")])
  /\ @listen_for_commands ascii_runtime [garbled; mute] s
     = (set_muted s true,
        [log_error (py "Invalid JSON command received");
         send_message "muted" []], Running).
Proof.
  intros s garbled mute.
  destruct (@C9_invalid_json_ignored ascii_runtime garbled s
              (py "{mute" ++ [10%N])
              ltac:(split; vm_compute; reflexivity)
              ltac:(vm_compute; congruence)
              ltac:(vm_compute; reflexivity)) as [H1 H2].
  split; [exact H1|].
  rewrite (H2 [mute] eq_refl). vm_compute. reflexivity.
Defined.

(** C9 as stated fails on lines that are not valid JSON and that the
    decoder accepts all the same.  [line.strip()] removes a form feed,
    which is no whitespace of JSON; and [json.loads] takes [NaN] for a
    value.  On both lines below the command is applied: the service is
    muted and no error event is emitted. *)
Lemma C9_counterexample :
  let s := init_service (py "http://localhost:11434") (py "prompt") 0 in
  let quoted (w : string) : pystr := [34%N] ++ py w ++ [34%N] in
  let padded :=
    [12%N] ++ py "{" ++ quoted "command"%string ++ py ": " ++ quoted "mute"%string
    ++ py "}" ++ [10%N] in
  let with_nan :=
    py "{" ++ quoted "command"%string ++ py ": " ++ quoted "mute"%string ++ py ", "
    ++ quoted "x"%string ++ py ": NaN}" ++ [10%N] in
  let pass (text : pystr) :=
    {| line := Ok text; decoded := Decoded (command_named "mute");
       now_command := 1; now_announce_turn := 1; announce_tts := Ok tt |} in
  (Json.valid_json padded = false
   /\ reads_line (pass padded) padded
   /\ @listen_step ascii_runtime (pass padded) s
      = (set_muted s true, [send_message "muted" []]))
  /\ (Json.valid_json with_nan = false
      /\ reads_line (pass with_nan) with_nan
      /\ @listen_step ascii_runtime (pass with_nan) s
         = (set_muted s true, [send_message "muted" []])).
Proof. vm_compute. repeat split. Qed.

(* ===================================================================== *)
(** ** The passes of the audio loop *)
(* ===================================================================== *)

Lemma turns_emitted_app (a b : list effect) :
  turns_emitted (a ++ b) = turns_emitted a ++ turns_emitted b.
Proof. apply flat_map_app. Qed.

Lemma llm_messages_app (a b : list effect) :
  llm_messages (a ++ b) = llm_messages a ++ llm_messages b.
Proof. apply flat_map_app. Qed.

Lemma check_context_timeout_empty (now now_reset : Q) (s : service) :
  conversation_turns s = [] ->
  check_context_timeout now now_reset s = (PyNone, s, []).
Proof. unfold check_context_timeout. intros ->. reflexivity. Qed.

Lemma check_context_timeout_keeps (now now_reset : Q) (s : service) :
  let s1 := snd (fst (check_context_timeout now now_reset s)) in
  is_muted s1 = is_muted s /\ should_stop s1 = should_stop s
  /\ sample_rate s1 = sample_rate s /\ max_turns s1 = max_turns s.
Proof.
  unfold check_context_timeout.
  destruct (conversation_turns s); [simpl; auto|].
  destruct (Qlt_bool _ _); simpl; auto.
Qed.

Lemma check_context_timeout_quiet (now now_reset : Q) (s : service) :
  turns_emitted (snd (check_context_timeout now now_reset s)) = []
  /\ llm_messages (snd (check_context_timeout now now_reset s)) = [].
Proof.
  unfold check_context_timeout.
  destruct (conversation_turns s); [simpl; auto|].
  destruct (Qlt_bool _ _); simpl; auto.
Qed.

Lemma min_speech_frames_16000 (s : service) :
  sample_rate s = 16000%Z -> min_speech_frames s = 7%Z.
Proof. unfold min_speech_frames. intros ->. reflexivity. Qed.

Section LoopFacts.
Context {rt : PyRuntime}.

Lemma vad_step_speech (e : env) (s : service) (l : locals) :
  speech_env e = true ->
  vad_step e s l
  = (s,
     {| recording := true;
        frames := frames l ++ [chunk_of e];
        silence_start := None;
        speech_detected := if recording l then speech_detected l else true |},
     if recording l then [] else [send_message "user_speaking" []],
     Next).
Proof.
  unfold speech_env, chunk_of, vad_step.
  destruct (audio_read e); [|discriminate]. intros ->. reflexivity.
Qed.

Lemma vad_step_idle (e : env) (s : service) (l : locals) :
  silence_env e = true -> recording l = false ->
  vad_step e s l = (s, l, [], Next).
Proof.
  unfold silence_env, vad_step.
  destruct (audio_read e); [|discriminate].
  intros H ->. apply negb_true_iff in H. rewrite H. reflexivity.
Qed.

Lemma vad_step_wait (e : env) (s : service) (l : locals) :
  silence_env e = true -> recording l = true ->
  timed_out (silence_since e l) e = false ->
  vad_step e s l
  = (s,
     {| recording := true;
        frames := frames l ++ [chunk_of e];
        silence_start := Some (silence_since e l);
        speech_detected := speech_detected l |},
     [], Next).
Proof.
  unfold silence_env, chunk_of, vad_step, timed_out, silence_since.
  destruct (audio_read e); [|discriminate].
  intros H -> T. apply negb_true_iff in H. rewrite H, T. reflexivity.
Qed.

Lemma vad_step_drop (e : env) (s : service) (l : locals) :
  silence_env e = true -> recording l = true ->
  timed_out (silence_since e l) e = true ->
  speech_detected l
  && (Z.of_nat (length (frames l ++ [chunk_of e])) >? min_speech_frames s)%Z
  = false ->
  vad_step e s l = (s, idle, [], Next).
Proof.
  unfold silence_env, chunk_of, vad_step, timed_out, silence_since.
  destruct (audio_read e); [|discriminate].
  intros H -> T D. apply negb_true_iff in H. rewrite H, T, D. reflexivity.
Qed.

Lemma vad_step_final (e : env) (s : service) (l : locals) (t : pystr) :
  finalizes e s l t ->
  vad_step e s l
  = let '(s', said, fl) := respond_to_turn e s t in
    (s',
     match fl with
     | Break =>
         {| recording := true;
            frames := frames l ++ [chunk_of e];
            silence_start := Some (silence_since e l);
            speech_detected := speech_detected l |}
     | Next => idle
     end,
     CallTranscribe (frames l ++ [chunk_of e]) :: said, fl).
Proof.
  intros (_ & Hsil & Hrec & Hsp & Hto & Hlen & segments & Htr & Ht).
  revert Hsil Hto Hlen.
  unfold silence_env, chunk_of, vad_step, timed_out, silence_since.
  destruct (audio_read e); [|discriminate].
  intros H T L. apply negb_true_iff in H. rewrite H, Hrec, T, Hsp.
  apply Z.gt_lt, Z.gtb_lt in L. rewrite L, Htr, Ht. reflexivity.
Qed.

(** The context check in front of the chunk. *)
Lemma loop_body_unmuted (e : env) (s : service) (l : locals) :
  is_muted s = false ->
  loop_body e s l
  = let r := check_context_timeout (now_ctx_check e) (now_ctx_reset e) s in
    let '(s', l', tr, fl) := vad_step e (snd (fst r)) l in
    (s', l', snd r ++ tr, fl).
Proof.
  intros Hm. unfold loop_body.
  pose proof (check_context_timeout_keeps (now_ctx_check e) (now_ctx_reset e) s)
    as (Hk & _).
  destruct (check_context_timeout (now_ctx_check e) (now_ctx_reset e) s)
    as [[v s1] checked].
  simpl in *. rewrite Hk, Hm. reflexivity.
Qed.

Lemma speak_text_quiet (tts : py_result unit) (s : service) (text : pystr) :
  turns_emitted (speak_text tts s text) = []
  /\ llm_messages (speak_text tts s text) = [].
Proof. destruct tts; simpl; auto. Qed.

Lemma generate_fast_response_trace (llm : http_result) (s : service)
  (user_input : pystr) :
  turns_emitted (snd (generate_fast_response llm s user_input)) = []
  /\ llm_messages (snd (generate_fast_response llm s user_input))
     = [build_messages s user_input].
Proof.
  unfold generate_fast_response.
  destruct llm as [| |msg|status_code body]; try (simpl; auto; fail).
  destruct (status_code =? 200)%Z; [|simpl; auto].
  destruct body as [raw|msg]; [|simpl; auto].
  destruct (truthy (strip raw)); [|simpl; auto]. simpl negb. cbv iota.
  destruct (_parse_dual_output (strip raw)) as [answer_text instruction_text].
  destruct (truthy instruction_text); simpl; auto.
Qed.

Lemma respond_to_turn_quiet (e : env) (s : service) (t : pystr) :
  turns_emitted (snd (fst (respond_to_turn e s t))) = [].
Proof.
  unfold respond_to_turn.
  destruct (truthy t); [|reflexivity].
  destruct (_ || _).
  - cbn [fst snd]. rewrite !turns_emitted_app.
    rewrite (proj1 (speak_text_quiet _ _ _)). reflexivity.
  - pose proof (generate_fast_response_trace (llm_result e)
                  (add_conversation_turn (now_user_turn e) (py "user") t s) t)
      as [Hg _].
    destruct (generate_fast_response (llm_result e) _ t) as [response generated].
    cbn [fst snd] in Hg.
    destruct (truthy response); cbn [fst snd];
      rewrite !turns_emitted_app, Hg, ?(proj1 (speak_text_quiet _ _ _));
      reflexivity.
Qed.

End LoopFacts.

Section TurnFacts.
Context {rt : PyRuntime}.

Lemma finalizes_after_check (e : env) (s : service) (l : locals) (t : pystr) :
  finalizes e s l t ->
  finalizes e
    (snd (fst (check_context_timeout (now_ctx_check e) (now_ctx_reset e) s)))
    l t.
Proof.
  pose proof (check_context_timeout_keeps (now_ctx_check e) (now_ctx_reset e) s)
    as (Hm & _ & Hr & _).
  unfold finalizes, min_speech_frames. cbv zeta in Hm, Hr.
  rewrite Hm, Hr. auto.
Qed.

(** A pass that ends a turn: the context check, the hand-over to the
    transcriber, then the response. *)
Lemma loop_body_final (e : env) (s : service) (l : locals) (t : pystr) :
  finalizes e s l t ->
  loop_body e s l
  = let r := check_context_timeout (now_ctx_check e) (now_ctx_reset e) s in
    let '(s', said, fl) := respond_to_turn e (snd (fst r)) t in
    (s',
     match fl with
     | Break =>
         {| recording := true;
            frames := frames l ++ [chunk_of e];
            silence_start := Some (silence_since e l);
            speech_detected := speech_detected l |}
     | Next => idle
     end,
     snd r ++ CallTranscribe (frames l ++ [chunk_of e]) :: said, fl).
Proof.
  intros F. rewrite (loop_body_unmuted e s l (proj1 F)). cbv zeta.
  rewrite (vad_step_final (finalizes_after_check F)).
  destruct (respond_to_turn e _ t) as [[s' said] fl]. reflexivity.
Qed.

Lemma last_k_snoc (A : Type) (k : nat) (l : list A) (u : A) :
  1 <= k -> exists ctx, last_k k (l ++ [u]) = ctx ++ [u].
Proof.
  intros Hk. unfold last_k. rewrite length_app. simpl length.
  exists (skipn (length l + 1 - k) l).
  rewrite skipn_app.
  replace (length l + 1 - k - length l) with 0 by lia. reflexivity.
Qed.

Lemma add_conversation_turn_ends (now : Q) (r c : pystr) (s : service) :
  (1 <= max_turns s)%Z ->
  exists older,
    conversation_turns (add_conversation_turn now r c s)
    = older ++ [{| role := r; content := c |}].
Proof.
  intros Hm. unfold add_conversation_turn. simpl.
  destruct (Z.of_nat (length (conversation_turns s ++ _)) >? max_turns s)%Z
    eqn:E.
  - apply Z.gtb_lt in E. rewrite length_app in E. simpl in E.
    destruct (conversation_turns s) as [|x older]; [simpl in E; lia|].
    exists older. reflexivity.
  - exists (conversation_turns s). reflexivity.
Qed.

End TurnFacts.

(* ===================================================================== *)
(** ** C10: saying goodbye *)
(* ===================================================================== *)

(** C10.  When a pass of the loop ends a turn whose transcript is not
    empty and, lowercased, contains "goodbye" or "exit", that pass emits
    the transcription event, announces and speaks "Goodbye!", sets the
    stop flag and leaves the loop; the history is what the context check
    of that pass left, and nothing is posted to the LLM. *)
Theorem C10_goodbye_ends_loop {rt : PyRuntime} (e : env) (s : service)
  (l : locals) (t : pystr) (rest : list env) :
  should_stop s = false ->
  finalizes e s l t ->
  t <> [] ->
  contains (py "goodbye") (str_lower t) || contains (py "exit") (str_lower t)
  = true ->
  let r := check_context_timeout (now_ctx_check e) (now_ctx_reset e) s in
  let s1 := snd (fst r) in
  let tr :=
    snd r
    ++ [CallTranscribe (frames l ++ [chunk_of e]);
        send_message "transcription" [("text"%string, t)];
        send_message "jarvis_speaking" [("text"%string, py "Goodbye!")]]
    ++ speak_text (tts_result e) s1 (py "Goodbye!") in
  exists l',
    loop_body e s l = (set_stop s1, l', tr, Break)
    /\ while_loop (e :: rest) s l = (set_stop s1, l', tr, Stopped)
    /\ should_stop (set_stop s1) = true
    /\ conversation_turns (set_stop s1) = conversation_turns s1
    /\ llm_messages tr = []
    /\ In (CallTTS (py "Goodbye!") (current_voice s1)) tr.
Proof.
  intros Hrun F Ht Hbye r s1 tr.
  assert (Hbody : loop_body e s l
                  = (set_stop s1,
                     {| recording := true;
                        frames := frames l ++ [chunk_of e];
                        silence_start := Some (silence_since e l);
                        speech_detected := speech_detected l |},
                     tr, Break)).
  { rewrite (loop_body_final F). cbv zeta. fold r. fold s1.
    unfold respond_to_turn.
    apply truthy_true_iff in Ht. rewrite Ht, Hbye. reflexivity. }
  eexists. split; [exact Hbody|]. repeat split.
  - simpl. rewrite Hrun, Hbody. reflexivity.
  - unfold tr, s1, r. rewrite !llm_messages_app.
    rewrite (proj2 (check_context_timeout_quiet _ _ _)).
    rewrite (proj2 (speak_text_quiet _ _ _)). reflexivity.
  - unfold tr. apply in_or_app. right. apply in_or_app. right.
    left. reflexivity.
Qed.

(** The theorem on a turn of nine frames whose transcript is
    "Okay, goodbye Jarvis". *)
Lemma C10_goodbye_ends_loop_witness :
  let s := init_service (py "http://localhost:11434") (py "prompt") 0 in
  let l := recording_with (repeat [1000%Z] 8) (Some 10%Q) in
  let e :=
    {| now_ctx_check := 11; now_ctx_reset := 11;
       audio_read := Ok [0%Z];
       now_silence_start := 11; now_silence_check := 11;
       transcribe_result := Ok [py " Okay, goodbye Jarvis."];
       now_user_turn := 12; llm_result := PostTimeout;
       now_assistant_turn := 13; tts_result := Ok tt |} in
  @while_loop ascii_runtime [e; e] s l
  = (set_stop s,
     recording_with (repeat [1000%Z] 8 ++ [[0%Z]]) (Some 10%Q),
     [CallTranscribe (repeat [1000%Z] 8 ++ [[0%Z]]);
      send_message "transcription" [("text"%string, py "Okay, goodbye Jarvis.")];
      send_message "jarvis_speaking" [("text"%string, py "Goodbye!")];
      CallTTS (py "Goodbye!") (py "af_bella")],
     Stopped).
Proof.
  intros s l e.
  destruct (@C10_goodbye_ends_loop ascii_runtime e s l
              (py "Okay, goodbye Jarvis.") [e]) as (l' & Hb & Hw & _).
  - reflexivity.
  - unfold finalizes. repeat split; try (vm_compute; reflexivity).
    exists [py " Okay, goodbye Jarvis."]. split; vm_compute; reflexivity.
  - vm_compute. congruence.
  - vm_compute. reflexivity.
  - rewrite Hw.
    assert (Hl : l' = recording_with (repeat [1000%Z] 8 ++ [[0%Z]]) (Some 10%Q)).
    { assert (H := f_equal (fun x => snd (fst (fst x))) Hb).
      cbn [fst snd] in H. rewrite <- H. vm_compute. reflexivity. }
    rewrite Hl. vm_compute. reflexivity.
Defined.

(* ===================================================================== *)
(** ** C8: the message list posted to the LLM *)
(* ===================================================================== *)

(** C8, what the code does.  When a pass of the loop ends a turn with a
    transcript that is not empty and is not a goodbye, exactly one
    message list is posted: the system prompt, the last 8 records of
    the history, and the new user message.  The user turn has been added
    to the history before, so (for [max_turns] at least 1) the last of
    those history records is the same user message: it is posted twice
    in a row. *)
Theorem C8_user_message_posted_twice {rt : PyRuntime} (e : env) (s : service)
  (l : locals) (t : pystr) :
  finalizes e s l t ->
  t <> [] ->
  contains (py "goodbye") (str_lower t) || contains (py "exit") (str_lower t)
  = false ->
  (1 <= max_turns s)%Z ->
  let r := check_context_timeout (now_ctx_check e) (now_ctx_reset e) s in
  let s2 := add_conversation_turn (now_user_turn e) (py "user") t (snd (fst r)) in
  let u := {| role := py "user"; content := t |} in
  llm_messages (trace_of (loop_body e s l))
  = [[{| role := py "system"; content := system_prompt s2 |}]
     ++ last_k 8 (conversation_turns s2) ++ [u]]
  /\ exists ctx,
       llm_messages (trace_of (loop_body e s l))
       = [{| role := py "system"; content := system_prompt s2 |}
          :: ctx ++ [u; u]].
Proof.
  intros F Ht Hbye Hm r s2 u. subst r.
  assert (Hposted :
    llm_messages (trace_of (loop_body e s l)) = [build_messages s2 t]).
  { rewrite (loop_body_final F). cbv zeta.
    unfold respond_to_turn.
    apply truthy_true_iff in Ht. rewrite Ht, Hbye. fold s2.
    pose proof (generate_fast_response_trace (llm_result e) s2 t) as [_ Hg].
    destruct (generate_fast_response (llm_result e) s2 t)
      as [response generated].
    cbn [fst snd] in Hg.
    destruct (truthy response); unfold trace_of; cbn [fst snd];
      change (?a ++ CallTranscribe ?b :: ?c)
        with (a ++ [CallTranscribe b] ++ c);
      rewrite !llm_messages_app, Hg,
        ?(proj2 (speak_text_quiet _ _ _)),
        (proj2 (check_context_timeout_quiet _ _ _));
      reflexivity. }
  split; [exact Hposted|].
  rewrite Hposted. unfold build_messages.
  destruct (add_conversation_turn_ends (now_user_turn e) (py "user") t
              (snd (fst (check_context_timeout (now_ctx_check e)
                           (now_ctx_reset e) s)))) as (older & Hold).
  { pose proof (check_context_timeout_keeps (now_ctx_check e)
                  (now_ctx_reset e) s) as (_ & _ & _ & Hk).
    cbv zeta in Hk. rewrite Hk. exact Hm. }
  fold s2 in Hold. rewrite Hold.
  destruct (@last_k_snoc _ 8 older {| role := py "user"; content := t |})
    as (ctx & Hctx); [lia|].
  exists ctx. rewrite Hctx. fold u. rewrite <- app_assoc. reflexivity.
Qed.

(** The theorem on a fresh service and the transcript "hello there":
    the list posted is the system prompt and the user message twice. *)
Lemma C8_user_message_posted_twice_witness :
  let s := init_service (py "http://localhost:11434") (py "prompt") 0 in
  let l := recording_with (repeat [1000%Z] 8) (Some 10%Q) in
  let e :=
    {| now_ctx_check := 11; now_ctx_reset := 11;
       audio_read := Ok [0%Z];
       now_silence_start := 11; now_silence_check := 11;
       transcribe_result := Ok [py " hello there"];
       now_user_turn := 12;
       llm_result := Response 200 (Ok (py "[ANSWER] Hello!"));
       now_assistant_turn := 13; tts_result := Ok tt |} in
  llm_messages (trace_of (@loop_body ascii_runtime e s l))
  = [[{| role := py "system"; content := py "prompt" |};
      {| role := py "user"; content := py "hello there" |};
      {| role := py "user"; content := py "hello there" |}]].
Proof.
  intros s l e.
  rewrite (proj1 (@C8_user_message_posted_twice ascii_runtime e s l
                    (py "hello there")
                    ltac:(unfold finalizes; repeat split;
                          try (vm_compute; reflexivity);
                          exists [py " hello there"];
                          split; vm_compute; reflexivity)
                    ltac:(vm_compute; congruence)
                    ltac:(vm_compute; reflexivity)
                    ltac:(vm_compute; congruence))).
  vm_compute. reflexivity.
Defined.

(* ===================================================================== *)
(** ** C4: one turn across a pause *)
(* ===================================================================== *)

Section Pause.
Context {rt : PyRuntime}.

Lemma listening_after_check (e : env) (s : service) :
  listening s ->
  listening
    (snd (fst (check_context_timeout (now_ctx_check e) (now_ctx_reset e) s))).
Proof.
  pose proof (check_context_timeout_keeps (now_ctx_check e) (now_ctx_reset e) s)
    as (Hm & Hs & Hr & _).
  unfold listening. cbv zeta in Hm, Hs, Hr. rewrite Hm, Hs, Hr. auto.
Qed.

(** A pass whose chunk step keeps the service and hands nothing to the
    transcriber does not add to the Turns of the run. *)
Lemma while_loop_quiet_pass (e : env) (rest : list env) (s : service)
  (l l' : locals) (tr : list effect) :
  listening s ->
  (forall s1, vad_step e s1 l = (s1, l', tr, Next)) ->
  turns_emitted tr = [] ->
  exists s',
    listening s'
    /\ turns_emitted (trace_of (while_loop (e :: rest) s l))
       = turns_emitted (trace_of (while_loop rest s' l')).
Proof.
  intros Hl Hv Hq.
  exists (snd (fst (check_context_timeout (now_ctx_check e) (now_ctx_reset e) s))).
  split; [apply listening_after_check; exact Hl|].
  simpl while_loop. rewrite (proj1 (proj2 Hl)).
  rewrite (loop_body_unmuted e s l (proj1 Hl)). cbv zeta. rewrite Hv.
  destruct (while_loop rest _ l') as [[[s'' l''] tr'] x].
  unfold trace_of. cbn [fst snd].
  rewrite !turns_emitted_app, Hq.
  rewrite (proj1 (check_context_timeout_quiet _ _ _)). reflexivity.
Qed.

Lemma pass_speech_idle (e : env) (rest : list env) (s : service) :
  listening s -> speech_env e = true ->
  exists s',
    listening s'
    /\ turns_emitted (trace_of (while_loop (e :: rest) s idle))
       = turns_emitted
           (trace_of (while_loop rest s' (recording_with [chunk_of e] None))).
Proof.
  intros Hl Hsp.
  apply (@while_loop_quiet_pass e rest s idle _
           [send_message "user_speaking" []] Hl); [|reflexivity].
  intros s1. rewrite (vad_step_speech e s1 idle Hsp). reflexivity.
Qed.

Lemma pass_speech_recording (e : env) (rest : list env) (s : service)
  (fr : list frame) (since : option Q) :
  listening s -> speech_env e = true ->
  exists s',
    listening s'
    /\ turns_emitted (trace_of (while_loop (e :: rest) s (recording_with fr since)))
       = turns_emitted
           (trace_of (while_loop rest s'
                        (recording_with (fr ++ [chunk_of e]) None))).
Proof.
  intros Hl Hsp.
  apply (@while_loop_quiet_pass e rest s (recording_with fr since) _ [] Hl);
    [|reflexivity].
  intros s1. rewrite (vad_step_speech e s1 (recording_with fr since) Hsp).
  reflexivity.
Qed.

Lemma pass_wait (e : env) (rest : list env) (s : service)
  (fr : list frame) (since : option Q) :
  listening s ->
  waits_since (silence_since e (recording_with fr since)) e = true ->
  exists s',
    listening s'
    /\ turns_emitted (trace_of (while_loop (e :: rest) s (recording_with fr since)))
       = turns_emitted
           (trace_of (while_loop rest s'
                        (recording_with (fr ++ [chunk_of e])
                           (Some (silence_since e (recording_with fr since)))))).
Proof.
  intros Hl Hw. apply andb_true_iff in Hw as [Hsil Hto].
  apply negb_true_iff in Hto.
  apply (@while_loop_quiet_pass e rest s (recording_with fr since) _ [] Hl);
    [|reflexivity].
  intros s1.
  rewrite (vad_step_wait e s1 (recording_with fr since) Hsil eq_refl Hto).
  reflexivity.
Qed.

(** A run of speech passes while recording. *)
Lemma run_speech : forall (sp rest : list env) (s : service) (fr : list frame),
  listening s -> forallb speech_env sp = true ->
  exists s',
    listening s'
    /\ turns_emitted (trace_of (while_loop (sp ++ rest) s (recording_with fr None)))
       = turns_emitted
           (trace_of (while_loop rest s'
                        (recording_with (fr ++ List.map chunk_of sp) None))).
Proof.
  induction sp as [|e sp IH]; intros rest s fr Hl Hsp.
  - exists s. simpl. rewrite app_nil_r. auto.
  - simpl in Hsp. apply andb_true_iff in Hsp as [He Hsp].
    destruct (@pass_speech_recording e (sp ++ rest) s fr None Hl He)
      as (s1 & Hl1 & E1).
    destruct (IH rest s1 (fr ++ [chunk_of e]) Hl1 Hsp) as (s2 & Hl2 & E2).
    exists s2. split; [exact Hl2|].
    simpl app. rewrite E1, E2. simpl List.map.
    rewrite <- app_assoc. reflexivity.
Qed.

(** A run of silent passes below the timeout, once the silence has begun. *)
Lemma run_wait : forall (qs rest : list env) (s : service) (fr : list frame)
  (t0 : Q),
  listening s -> forallb (waits_since t0) qs = true ->
  exists s',
    listening s'
    /\ turns_emitted
         (trace_of (while_loop (qs ++ rest) s (recording_with fr (Some t0))))
       = turns_emitted
           (trace_of (while_loop rest s'
                        (recording_with (fr ++ List.map chunk_of qs) (Some t0)))).
Proof.
  induction qs as [|e qs IH]; intros rest s fr t0 Hl Hq.
  - exists s. simpl. rewrite app_nil_r. auto.
  - simpl in Hq. apply andb_true_iff in Hq as [He Hq].
    destruct (@pass_wait e (qs ++ rest) s fr (Some t0) Hl He) as (s1 & Hl1 & E1).
    destruct (IH rest s1 (fr ++ [chunk_of e]) t0 Hl1 Hq) as (s2 & Hl2 & E2).
    exists s2. split; [exact Hl2|].
    change (silence_since e (recording_with fr (Some t0))) with t0 in E1.
    simpl app. rewrite E1, E2. simpl List.map.
    rewrite <- app_assoc. reflexivity.
Qed.

(** The chunk step that ends a turn hands the buffer over exactly once,
    whatever the transcriber and the responder then do. *)
Lemma vad_step_hands_over (e : env) (s : service) (fr : list frame)
  (since : option Q) :
  sample_rate s = 16000%Z ->
  silence_env e = true ->
  timed_out (silence_since e (recording_with fr since)) e = true ->
  7 < length fr + 1 ->
  turns_emitted (trace_of (vad_step e s (recording_with fr since)))
  = [fr ++ [chunk_of e]].
Proof.
  intros Hr Hsil Hto Hlen. revert Hsil Hto.
  unfold silence_env, chunk_of, vad_step, timed_out, silence_since.
  destruct (audio_read e) as [c|]; [|discriminate].
  intros H T. apply negb_true_iff in H. rewrite H. cbn [recording_with recording
    silence_start frames speech_detected] in *. rewrite T.
  rewrite (min_speech_frames_16000 s Hr), length_app. simpl length.
  replace (Z.of_nat (length fr + 1) >? 7)%Z with true
    by (symmetry; apply Z.gtb_lt; lia).
  cbn [andb]. destruct (transcribe_result e) as [segments|msg].
  - pose proof (respond_to_turn_quiet e s (strip (join (py " ") segments))) as Q.
    destruct (respond_to_turn e s _) as [[s' said] fl].
    unfold trace_of. cbn [fst snd] in *.
    change (CallTranscribe (fr ++ [c]) :: said)
      with ([CallTranscribe (fr ++ [c])] ++ said).
    rewrite turns_emitted_app, Q. reflexivity.
  - reflexivity.
Qed.

Lemma pass_final (e : env) (s : service) (fr : list frame) (since : option Q) :
  listening s ->
  silence_env e = true ->
  timed_out (silence_since e (recording_with fr since)) e = true ->
  7 < length fr + 1 ->
  turns_emitted (trace_of (while_loop [e] s (recording_with fr since)))
  = [fr ++ [chunk_of e]].
Proof.
  intros Hl Hsil Hto Hlen.
  pose proof (listening_after_check e Hl) as (_ & Hs1 & Hr1).
  simpl while_loop. rewrite (proj1 (proj2 Hl)).
  rewrite (loop_body_unmuted e s _ (proj1 Hl)). cbv zeta.
  pose proof (@vad_step_hands_over e _ fr since Hr1 Hsil Hto Hlen) as Hv.
  destruct (vad_step e _ (recording_with fr since)) as [[[s' l'] tr] fl].
  unfold trace_of in *. cbn [fst snd] in Hv.
  destruct fl.
  - destruct (should_stop s'); cbn [fst snd];
      rewrite ?app_nil_r, turns_emitted_app, Hv,
        (proj1 (check_context_timeout_quiet _ _ _)); reflexivity.
  - cbn [fst snd].
    rewrite turns_emitted_app, Hv,
      (proj1 (check_context_timeout_quiet _ _ _)). reflexivity.
Qed.

End Pause.

(** C4, as amended.  For 20 passes classified as speech, then 5 silent
    passes on which the timeout is not reached, then 20 more speech
    passes, then silent passes the last of which reaches the timeout,
    the loop hands exactly one Turn to the transcriber.  That Turn holds
    every chunk read, the silent ones included: the 45 chunks up to the
    second run of speech and the chunks of the closing silence, 45 + n
    frames for n closing passes (n is at least 1). *)
Theorem C4_one_turn_across_pause {rt : PyRuntime} (s : service)
  (sp1 sil1 sp2 waits : list env) (final : env) :
  listening s ->
  length sp1 = 20 -> forallb speech_env sp1 = true ->
  length sil1 = 5 ->
  forallb (waits_since (silence_begins sil1 final)) sil1 = true ->
  length sp2 = 20 -> forallb speech_env sp2 = true ->
  forallb (waits_since (silence_begins (waits ++ [final]) final)) waits = true ->
  silence_env final = true ->
  timed_out (silence_begins (waits ++ [final]) final) final = true ->
  let envs := sp1 ++ sil1 ++ sp2 ++ waits ++ [final] in
  turns_emitted (trace_of (while_loop envs s idle)) = [List.map chunk_of envs]
  /\ length (List.map chunk_of envs) = 45 + (length waits + 1).
Proof.
  intros Hl L1 S1 L2 W1 L3 S2 W2 Hsil Hto envs.
  split.
  2:{ unfold envs. rewrite length_map, !length_app, L1, L2, L3. simpl. lia. }
  unfold envs.
  destruct sp1 as [|e0 sp1]; [discriminate|].
  destruct sil1 as [|q1 qs1]; [discriminate|].
  destruct sp2 as [|e1 sp2]; [discriminate|].
  simpl in S1, W1, S2. unfold silence_begins in W1. simpl hd in W1.
  apply andb_true_iff in S1 as [S1a S1].
  apply andb_true_iff in W1 as [W1a W1].
  apply andb_true_iff in S2 as [S2a S2].
  simpl in L1, L2, L3.
  (* first run of speech *)
  simpl app.
  destruct (@pass_speech_idle _ e0 (sp1 ++ q1 :: qs1 ++ e1 :: sp2 ++ waits ++ [final])
              s Hl S1a) as (s1 & Hl1 & ->).
  destruct (@run_speech _ sp1 (q1 :: qs1 ++ e1 :: sp2 ++ waits ++ [final])
              s1 [chunk_of e0] Hl1 S1) as (s2 & Hl2 & ->).
  (* the pause *)
  destruct (@pass_wait _ q1 (qs1 ++ e1 :: sp2 ++ waits ++ [final]) s2
              ([chunk_of e0] ++ List.map chunk_of sp1) None Hl2 W1a)
    as (s3 & Hl3 & ->).
  change (silence_since q1 (recording_with _ None)) with (now_silence_start q1).
  destruct (@run_wait _ qs1 (e1 :: sp2 ++ waits ++ [final]) s3
              (([chunk_of e0] ++ List.map chunk_of sp1) ++ [chunk_of q1])
              (now_silence_start q1) Hl3 W1) as (s4 & Hl4 & ->).
  (* second run of speech *)
  destruct (@pass_speech_recording _ e1 (sp2 ++ waits ++ [final]) s4
              ((([chunk_of e0] ++ List.map chunk_of sp1) ++ [chunk_of q1])
               ++ List.map chunk_of qs1)
              (Some (now_silence_start q1)) Hl4 S2a) as (s5 & Hl5 & ->).
  destruct (@run_speech _ sp2 (waits ++ [final]) s5
              (((([chunk_of e0] ++ List.map chunk_of sp1) ++ [chunk_of q1])
                ++ List.map chunk_of qs1) ++ [chunk_of e1]) Hl5 S2)
    as (s6 & Hl6 & ->).
  set (fr := ((((([chunk_of e0] ++ List.map chunk_of sp1) ++ [chunk_of q1])
               ++ List.map chunk_of qs1) ++ [chunk_of e1])
             ++ List.map chunk_of sp2)).
  assert (Hfr : length fr = 45).
  { unfold fr. rewrite !length_app, !length_map. simpl. lia. }
  assert (Hall :
            fr = List.map chunk_of ((e0 :: sp1) ++ (q1 :: qs1) ++ (e1 :: sp2))).
  { unfold fr. rewrite !map_app, <- !app_assoc. reflexivity. }
  change (e0 :: sp1 ++ q1 :: qs1 ++ e1 :: sp2 ++ waits ++ [final])
    with ((e0 :: sp1) ++ (q1 :: qs1) ++ (e1 :: sp2) ++ waits ++ [final]).
  (* the closing silence *)
  destruct waits as [|w ws].
  - simpl app at 5. unfold silence_begins in Hto. simpl in Hto.
    rewrite (@pass_final _ final s6 fr None Hl6 Hsil Hto); [|lia].
    rewrite Hall, !map_app, <- !app_assoc. reflexivity.
  - unfold silence_begins in Hto, W2. simpl in Hto, W2.
    apply andb_true_iff in W2 as [W2a W2].
    change ((w :: ws) ++ [final]) with (w :: ws ++ [final]).
    destruct (@pass_wait _ w (ws ++ [final]) s6 fr None Hl6 W2a)
      as (s7 & Hl7 & ->).
    change (silence_since w (recording_with fr None)) with (now_silence_start w).
    destruct (@run_wait _ ws [final] s7 (fr ++ [chunk_of w])
                (now_silence_start w) Hl7 W2) as (s8 & Hl8 & ->).
    rewrite (@pass_final _ final s8 ((fr ++ [chunk_of w]) ++ List.map chunk_of ws)
               (Some (now_silence_start w)) Hl8 Hsil Hto).
    2:{ rewrite !length_app. lia. }
    rewrite Hall.
    change (w :: ws ++ [final]) with ([w] ++ ws ++ [final]).
    rewrite !map_app, <- !app_assoc. reflexivity.
Qed.

(** The theorem on chunks arriving in real time, one every 64 ms: 20
    loud, 5 quiet, 20 loud, then quiet ones; the timeout is reached on
    the 17th of them, and the Turn holds 62 chunks. *)
Lemma C4_one_turn_across_pause_witness :
  let s := init_service (py "http://localhost:11434") (py "prompt") 0 in
  let at_chunk (k : nat) : Q := (inject_Z (Z.of_nat k) * chunk_seconds)%Q in
  let envs :=
    passes_from 0 20 loud ++ passes_from (at_chunk 20) 5 quiet
    ++ passes_from (at_chunk 25) 20 loud
    ++ passes_from (at_chunk 45) 16 quiet ++ [pass_at (at_chunk 61) quiet] in
  turns_emitted (trace_of (@while_loop ascii_runtime envs s idle))
  = [repeat loud 20 ++ repeat quiet 5 ++ repeat loud 20 ++ repeat quiet 17].
Proof.
  intros s at_chunk envs. subst envs.
  rewrite (proj1 (@C4_one_turn_across_pause ascii_runtime s
                    (passes_from 0 20 loud)
                    (passes_from (at_chunk 20) 5 quiet)
                    (passes_from (at_chunk 25) 20 loud)
                    (passes_from (at_chunk 45) 16 quiet)
                    (pass_at (at_chunk 61) quiet)
                    ltac:(repeat split)
                    eq_refl ltac:(vm_compute; reflexivity)
                    eq_refl ltac:(vm_compute; reflexivity)
                    eq_refl ltac:(vm_compute; reflexivity)
                    ltac:(vm_compute; reflexivity)
                    ltac:(vm_compute; reflexivity)
                    ltac:(vm_compute; reflexivity))).
  vm_compute. reflexivity.
Defined.

(** C4 as stated fails on the size of the Turn: in the run above it
    holds 62 frames; and when a single closing pass already reaches the
    timeout (its clock reads 2 seconds after the silence began) it holds
    46.  The closing silent chunks are part of the Turn. *)
Lemma C4_counterexample :
  let s := init_service (py "http://localhost:11434") (py "prompt") 0 in
  let at_chunk (k : nat) : Q := (inject_Z (Z.of_nat k) * chunk_seconds)%Q in
  let before :=
    passes_from 0 20 loud ++ passes_from (at_chunk 20) 5 quiet
    ++ passes_from (at_chunk 25) 20 loud in
  let real_time :=
    before ++ passes_from (at_chunk 45) 16 quiet ++ [pass_at (at_chunk 61) quiet] in
  let stalled :=
    before
    ++ [{| now_ctx_check := at_chunk 45%nat; now_ctx_reset := at_chunk 45%nat;
           audio_read := Ok quiet;
           now_silence_start := at_chunk 45%nat;
           now_silence_check := (at_chunk 45%nat + 2)%Q;
           transcribe_result := Ok [];
           now_user_turn := (at_chunk 45%nat + 2)%Q;
           llm_result := PostConnectionError;
           now_assistant_turn := (at_chunk 45%nat + 2)%Q;
           tts_result := Ok tt |}] in
  List.map (@length frame)
    (turns_emitted (trace_of (@while_loop ascii_runtime real_time s idle)))
  = [62]
  /\ List.map (@length frame)
       (turns_emitted (trace_of (@while_loop ascii_runtime stalled s idle)))
     = [46].
Proof. vm_compute. split; reflexivity. Qed.

(* ===================================================================== *)
(** ** C3: short turns *)
(* ===================================================================== *)

(** C3: what the loop does with a short turn.  Take speech of at most 7
    chunks (0.448 s, within [MIN_SPEECH_DURATION]), then silent passes
    up to the one that reaches the timeout.  The length test of line 448
    counts every buffered frame, the silent ones appended at line 444
    included; as soon as speech and silence together make more than 7
    frames the turn is not discarded: it is handed to the transcriber,
    silence and all.  Chunks that arrive in real time are 64 ms apart
    and the timeout is 1 s, so the closing silence alone is 16 frames
    or more. *)
Theorem C3_short_speech_is_transcribed {rt : PyRuntime} (s : service)
  (speech waits : list env) (final : env) :
  listening s ->
  speech <> [] -> forallb speech_env speech = true ->
  length speech <= 7 ->
  forallb (waits_since (silence_begins (waits ++ [final]) final)) waits = true ->
  silence_env final = true ->
  timed_out (silence_begins (waits ++ [final]) final) final = true ->
  7 <= length speech + length waits ->
  let envs := speech ++ waits ++ [final] in
  turns_emitted (trace_of (while_loop envs s idle)) = [List.map chunk_of envs].
Proof.
  intros Hl Hne Hsp _ W Hsil Hto Hlen envs. unfold envs.
  destruct speech as [|e0 sp]; [congruence|].
  simpl in Hsp. apply andb_true_iff in Hsp as [S0 Hsp].
  simpl length in Hlen. simpl app.
  destruct (@pass_speech_idle _ e0 (sp ++ waits ++ [final]) s Hl S0)
    as (s1 & Hl1 & ->).
  destruct (@run_speech _ sp (waits ++ [final]) s1 [chunk_of e0] Hl1 Hsp)
    as (s2 & Hl2 & ->).
  set (fr := [chunk_of e0] ++ List.map chunk_of sp).
  assert (Hfr : length fr = S (length sp)).
  { unfold fr. rewrite length_app, length_map. reflexivity. }
  destruct waits as [|w ws].
  - simpl app. unfold silence_begins in Hto. simpl in Hto.
    simpl length in Hlen.
    rewrite (@pass_final _ final s2 fr None Hl2 Hsil Hto); [|lia].
    unfold fr. cbn [List.map]. rewrite map_app. reflexivity.
  - unfold silence_begins in Hto, W. simpl in Hto, W.
    apply andb_true_iff in W as [Wa W].
    change ((w :: ws) ++ [final]) with (w :: ws ++ [final]).
    destruct (@pass_wait _ w (ws ++ [final]) s2 fr None Hl2 Wa)
      as (s3 & Hl3 & ->).
    change (silence_since w (recording_with fr None)) with (now_silence_start w).
    destruct (@run_wait _ ws [final] s3 (fr ++ [chunk_of w])
                (now_silence_start w) Hl3 W) as (s4 & Hl4 & ->).
    rewrite (@pass_final _ final s4 ((fr ++ [chunk_of w]) ++ List.map chunk_of ws)
               (Some (now_silence_start w)) Hl4 Hsil Hto).
    2:{ rewrite !length_app, length_map. simpl length in *. lia. }
    unfold fr. f_equal. rewrite <- !app_assoc. cbn [app List.map]. f_equal.
    rewrite !map_app. cbn [List.map app]. rewrite ?map_app. reflexivity.
Qed.

(** The theorem on a cough in real time: one loud chunk, then quiet
    chunks 64 ms apart.  The timeout is reached on the 17th of them, and
    the cough is handed to the transcriber with the 17 quiet chunks. *)
Lemma C3_short_speech_is_transcribed_witness :
  let s := init_service (py "http://localhost:11434") (py "prompt") 0 in
  let envs :=
    [pass_at 0 loud] ++ passes_from chunk_seconds 16 quiet
    ++ [pass_at (17 * chunk_seconds) quiet] in
  turns_emitted (trace_of (@while_loop ascii_runtime envs s idle))
  = [loud :: repeat quiet 17].
Proof.
  intros s envs. subst envs.
  rewrite (@C3_short_speech_is_transcribed ascii_runtime s
             [pass_at 0 loud] (passes_from chunk_seconds 16 quiet)
             (pass_at (17 * chunk_seconds) quiet)
             ltac:(repeat split)
             ltac:(discriminate)
             ltac:(vm_compute; reflexivity)
             ltac:(vm_compute; lia)
             ltac:(vm_compute; reflexivity)
             ltac:(vm_compute; reflexivity)
             ltac:(vm_compute; reflexivity)
             ltac:(vm_compute; lia)).
  vm_compute. reflexivity.
Defined.

(* ===================================================================== *)
(** ** C7: the announcement *)
(* ===================================================================== *)

Section Announcement.
Context {rt : PyRuntime}.

Local Arguments py : simpl never.
Local Arguments str_of_nat : simpl never.

Lemma read_items_in_full (items : list pystr) (a : pystr) :
  length items <= 4 -> read_items items a = a ++ read_in_full items.
Proof.
  destruct items as [|x1 [|x2 [|x3 [|x4 [|x5 more]]]]]; intros H;
    simpl in H; try lia; unfold read_items; simpl;
    rewrite <- ?app_assoc, ?app_nil_r; simpl; reflexivity.
Qed.

Lemma read_first_three_in_full (items : list pystr) (a : pystr) :
  3 <= length items ->
  read_first_three items a = a ++ read_in_full (firstn 3 items).
Proof.
  destruct items as [|x1 [|x2 [|x3 more]]]; intros H; simpl in H; try lia.
  unfold read_first_three. simpl. rewrite <- ?app_assoc. simpl. reflexivity.
Qed.

Lemma read_questions_more : forall (more : list pystr) (i : nat) (a : pystr),
  read_questions_from (S i) more a
  = a ++ concat (List.map (fun y => py " Also, " ++ y) more).
Proof.
  induction more as [|q more IH]; intros i a; simpl.
  - rewrite app_nil_r. reflexivity.
  - rewrite IH, <- !app_assoc. reflexivity.
Qed.

(** The announcement is the headline followed by the four parts. *)
Lemma build_announcement_parts (text : pystr)
  (changes notes risks next_questions : list pystr) :
  build_announcement text changes notes risks next_questions
  = text ++ changes_part changes ++ notes_part notes ++ risks_part risks
    ++ questions_part next_questions.
Proof.
  unfold build_announcement.
  set (a1 := match changes with [] => text | _ :: _ => _ end).
  assert (H1 : a1 = text ++ changes_part changes).
  { unfold a1, changes_part. destruct changes as [|c cs].
    - rewrite app_nil_r. reflexivity.
    - destruct (length (c :: cs) <=? 3) eqn:E.
      + apply Nat.leb_le in E. rewrite read_items_in_full by lia.
        rewrite <- app_assoc. reflexivity.
      + apply Nat.leb_gt in E. rewrite read_first_three_in_full by lia.
        rewrite <- !app_assoc. reflexivity. }
  set (a2 := match notes with [] => a1 | _ :: _ => _ end).
  assert (H2 : a2 = a1 ++ notes_part notes).
  { unfold a2, notes_part. destruct notes as [|c cs].
    - rewrite app_nil_r. reflexivity.
    - destruct (length (c :: cs) <=? 4) eqn:E.
      + apply Nat.leb_le in E. rewrite read_items_in_full by lia.
        rewrite <- app_assoc. reflexivity.
      + apply Nat.leb_gt in E. rewrite read_first_three_in_full by lia.
        rewrite <- !app_assoc. reflexivity. }
  set (a3 := match risks with [] => a2 | _ :: _ => _ end).
  assert (H3 : a3 = a2 ++ risks_part risks).
  { unfold a3, risks_part. destruct risks as [|c cs].
    - rewrite app_nil_r. reflexivity.
    - destruct (length (c :: cs) <=? 2) eqn:E.
      + apply Nat.leb_le in E. rewrite read_items_in_full by lia.
        rewrite <- app_assoc. reflexivity.
      + rewrite <- ?app_assoc. reflexivity. }
  assert (H4 : match next_questions with
               | [] => a3
               | _ :: _ => read_questions_from 0 next_questions (a3 ++ py ". ")
               end = a3 ++ questions_part next_questions).
  { destruct next_questions as [|q more].
    - rewrite app_nil_r. reflexivity.
    - simpl. rewrite read_questions_more, <- !app_assoc. reflexivity. }
  rewrite H4, H3, H2, H1, <- !app_assoc. reflexivity.
Qed.

End Announcement.

(** C7, as amended.  The spoken announcement is a function of the
    command.  With changes a, b, c, d (default headline, no other list)
    it reads "Task completed a, b, and c, and 1 more change"; with
    changes a, b it reads "Task completed a, and b"; with 3 risks it
    reads "Task completed. Note: 3 potential risks to be aware of".  In
    general the text handed to the clean-up for speech is the headline
    followed by the parts for changes, notes, risks and questions: up to
    3 changes, 4 notes, 2 risks are read in full with "and" before the
    last of two or more; of more changes or notes the first 3 are read
    and the number of the others is stated; of more risks none is read
    and their number is stated. *)
Theorem C7_announcement_format {rt : PyRuntime} :
  announcement_of (announce_command [py "a"; py "b"; py "c"; py "d"] [] [])
  = py "Task completed a, b, and c, and 1 more change"
  /\ announcement_of (announce_command [py "a"; py "b"] [] [])
     = py "Task completed a, and b"
  /\ (forall r1 r2 r3,
        announcement_of (announce_command [] [] [r1; r2; r3])
        = py "Task completed. Note: 3 potential risks to be aware of")
  /\ (forall text changes notes risks next_questions,
        build_announcement text changes notes risks next_questions
        = text ++ changes_part changes ++ notes_part notes
          ++ risks_part risks ++ questions_part next_questions).
Proof.
  split; [vm_compute; reflexivity|].
  split; [vm_compute; reflexivity|].
  split; [intros r1 r2 r3; vm_compute; reflexivity|].
  apply build_announcement_parts.
Qed.

(** C7 as stated fails on its first example and on long risk lists:
    four changes are announced as the first three and "1 more change",
    not as two and "2 more changes"; and four risks are announced by
    their number alone. *)
Lemma C7_counterexample :
  @announcement_of ascii_runtime
    (announce_command [py "a"; py "b"; py "c"; py "d"] [] [])
  = py "Task completed a, b, and c, and 1 more change"
  /\ contains (py "a, b, and 2 more changes")
       (@announcement_of ascii_runtime
          (announce_command [py "a"; py "b"; py "c"; py "d"] [] []))
     = false
  /\ @announcement_of ascii_runtime
       (announce_command [] [] [py "r1"; py "r2"; py "r3"; py "r4"])
     = py "Task completed. Note: 4 potential risks to be aware of".
Proof. vm_compute. repeat split. Qed.

(* ===================================================================== *)
(** * Further properties of the audio loop *)
(* ===================================================================== *)

Section PassCases.
Context {rt : PyRuntime}.

Lemma generate_fast_response_nonempty (llm : http_result) (s : service)
  (user_input : pystr) :
  truthy (fst (generate_fast_response llm s user_input)) = true.
Proof.
  apply truthy_true_iff.
  pose proof (fallback_response_nonempty user_input) as Hf.
  unfold generate_fast_response.
  destruct llm as [| |msg|status_code body]; try exact Hf.
  destruct (status_code =? 200)%Z; [|exact Hf].
  destruct body as [raw|msg]; [|exact Hf].
  destruct (truthy (strip raw)); [|exact Hf]. simpl negb. cbv iota.
  destruct (_parse_dual_output (strip raw)) as [answer_text instruction_text].
  simpl fst. destruct (truthy answer_text) eqn:E; [|exact Hf].
  apply truthy_true_iff. exact E.
Qed.

(** The three things [respond_to_turn] can do. *)
Lemma respond_to_turn_cases (e : env) (s : service) (t : pystr) :
  (t = [] /\ respond_to_turn e s t = (s, [], Next))
  \/ (t <> []
      /\ contains (py "goodbye") (str_lower t)
         || contains (py "exit") (str_lower t) = true
      /\ respond_to_turn e s t
         = (set_stop s,
            [send_message "transcription" [("text"%string, t)]]
            ++ [send_message "jarvis_speaking" [("text"%string, py "Goodbye!")]]
            ++ speak_text (tts_result e) s (py "Goodbye!"),
            Break))
  \/ (t <> []
      /\ contains (py "goodbye") (str_lower t)
         || contains (py "exit") (str_lower t) = false
      /\ let s2 := add_conversation_turn (now_user_turn e) (py "user") t s in
         let response := fst (generate_fast_response (llm_result e) s2 t) in
         let s3 := add_conversation_turn (now_assistant_turn e)
                     (py "assistant") response s2 in
         respond_to_turn e s t
         = (s3,
            [send_message "transcription" [("text"%string, t)]]
            ++ snd (generate_fast_response (llm_result e) s2 t)
            ++ [send_message "jarvis_speaking" [("text"%string, response)]]
            ++ [send_message "conversation_turn"
                  [("user_text"%string, t);
                   ("jarvis_response"%string, response)]]
            ++ speak_text (tts_result e) s3 response
            ++ [send_message "listening" []],
            Next)).
Proof.
  unfold respond_to_turn. destruct t as [|c t'].
  - left. split; reflexivity.
  - right. cbn [truthy].
    destruct (contains (py "goodbye") (str_lower (c :: t'))
              || contains (py "exit") (str_lower (c :: t'))) eqn:E.
    + left. repeat split; congruence.
    + right. split; [congruence|]. split; [reflexivity|]. cbv zeta.
      pose proof (generate_fast_response_nonempty (llm_result e)
                    (add_conversation_turn (now_user_turn e) (py "user")
                       (c :: t') s) (c :: t')) as Hne.
      destruct (generate_fast_response (llm_result e) _ (c :: t'))
        as [response generated].
      cbn [fst snd] in *. rewrite Hne. reflexivity.
Qed.

(** The seven things [vad_step] can do. *)
Lemma vad_step_cases (e : env) (s : service) (l : locals) :
  let buffered := frames l ++ [chunk_of e] in
  let waiting :=
    {| recording := true; frames := buffered;
       silence_start := Some (silence_since e l);
       speech_detected := speech_detected l |} in
  (exists msg,
     audio_read e = Raise msg
     /\ vad_step e s l
        = (s, l, [log_error (py "Error in audio loop: " ++ msg)], Next))
  \/ (speech_env e = true
      /\ vad_step e s l
         = (s,
            {| recording := true; frames := buffered; silence_start := None;
               speech_detected :=
                 if recording l then speech_detected l else true |},
            if recording l then [] else [send_message "user_speaking" []],
            Next))
  \/ (silence_env e = true /\ recording l = false
      /\ vad_step e s l = (s, l, [], Next))
  \/ (silence_env e = true /\ recording l = true
      /\ timed_out (silence_since e l) e = false
      /\ vad_step e s l = (s, waiting, [], Next))
  \/ (silence_env e = true /\ recording l = true
      /\ timed_out (silence_since e l) e = true
      /\ speech_detected l
         && (Z.of_nat (length buffered) >? min_speech_frames s)%Z = false
      /\ vad_step e s l = (s, idle, [], Next))
  \/ (silence_env e = true /\ recording l = true
      /\ timed_out (silence_since e l) e = true
      /\ speech_detected l = true
      /\ (Z.of_nat (length buffered) > min_speech_frames s)%Z
      /\ exists msg,
           transcribe_result e = Raise msg
           /\ vad_step e s l
              = (s, waiting,
                 [CallTranscribe buffered;
                  log_error (py "Error in audio loop: " ++ msg)], Next))
  \/ (silence_env e = true /\ recording l = true
      /\ timed_out (silence_since e l) e = true
      /\ speech_detected l = true
      /\ (Z.of_nat (length buffered) > min_speech_frames s)%Z
      /\ exists segments,
           transcribe_result e = Ok segments
           /\ vad_step e s l
              = let '(s', said, fl) :=
                  respond_to_turn e s (strip (join (py " ") segments)) in
                (s', match fl with Break => waiting | Next => idle end,
                 CallTranscribe buffered :: said, fl)).
Proof.
  cbv zeta.
  destruct (audio_read e) as [c|msg] eqn:Ha.
  2:{ left. exists msg. split; [reflexivity|].
      unfold vad_step. rewrite Ha. reflexivity. }
  right.
  destruct (speech_env e) eqn:Hsp.
  { left. split; [reflexivity|]. apply vad_step_speech. exact Hsp. }
  right.
  assert (Hsil : silence_env e = true).
  { unfold silence_env. unfold speech_env in Hsp. rewrite Ha in *.
    rewrite Hsp. reflexivity. }
  destruct (recording l) eqn:Hrec.
  2:{ left. split; [exact Hsil|]. split; [reflexivity|].
      apply vad_step_idle; assumption. }
  right.
  destruct (timed_out (silence_since e l) e) eqn:Hto.
  2:{ left. split; [exact Hsil|]. split; [reflexivity|].
      split; [reflexivity|]. apply vad_step_wait; assumption. }
  right.
  destruct (speech_detected l
            && (Z.of_nat (length (frames l ++ [chunk_of e]))
                >? min_speech_frames s)%Z) eqn:Htest.
  2:{ left. split; [exact Hsil|]. split; [reflexivity|].
      split; [reflexivity|]. split; [reflexivity|].
      apply vad_step_drop; assumption. }
  right. apply andb_true_iff in Htest as [Hsd Hlen].
  assert (Hstep : forall X,
    (match transcribe_result e with
     | Ok segments =>
         let '(s', said, fl) :=
           respond_to_turn e s (strip (join (py " ") segments)) in
         (s',
          match fl with
          | Break =>
              {| recording := true; frames := frames l ++ [chunk_of e];
                 silence_start := Some (silence_since e l);
                 speech_detected := speech_detected l |}
          | Next => idle
          end, CallTranscribe (frames l ++ [chunk_of e]) :: said, fl)
     | Raise msg =>
         (s,
          {| recording := true; frames := frames l ++ [chunk_of e];
             silence_start := Some (silence_since e l);
             speech_detected := speech_detected l |},
          [CallTranscribe (frames l ++ [chunk_of e]);
           log_error (py "Error in audio loop: " ++ msg)], Next)
     end) = X -> vad_step e s l = X).
  { intros X <-.
    unfold vad_step, chunk_of in *. unfold silence_env in Hsil.
    unfold timed_out, silence_since in *.
    rewrite Ha in *. apply negb_true_iff in Hsil.
    rewrite Hsil, Hrec, Hto, Hsd, Hlen. reflexivity. }
  apply Z.gtb_lt, Z.lt_gt in Hlen.
  destruct (transcribe_result e) as [segments|msg] eqn:Htr.
  - right. split; [exact Hsil|]. split; [reflexivity|].
    split; [reflexivity|]. split; [exact Hsd|]. split; [exact Hlen|].
    exists segments. split; [reflexivity|]. apply Hstep. reflexivity.
  - left. split; [exact Hsil|]. split; [reflexivity|].
    split; [reflexivity|]. split; [exact Hsd|]. split; [exact Hlen|].
    exists msg. split; [reflexivity|]. apply Hstep. reflexivity.
Qed.

End PassCases.

Ltac vad_cases e s l :=
  let H := fresh "Hcases" in
  pose proof (vad_step_cases e s l) as H; cbv zeta in H;
  destruct H as
    [(?msg & ?Ha & ->)
    |[(?Hsp & ->)
    |[(?Hsil & ?Hrec & ->)
    |[(?Hsil & ?Hrec & ?Hto & ->)
    |[(?Hsil & ?Hrec & ?Hto & ?Htest & ->)
    |[(?Hsil & ?Hrec & ?Hto & ?Hsd & ?Hlen & ?msg & ?Htr & ->)
    |(?Hsil & ?Hrec & ?Hto & ?Hsd & ?Hlen & ?segments & ?Htr & ->)]]]]]].

Lemma add_conversation_turn_bounded (now : Q) (r c : pystr) (s : service) :
  (0 <= max_turns s)%Z -> history_bounded s ->
  history_bounded (add_conversation_turn now r c s).
Proof.
  intros Hm Hb.
  destruct (add_conversation_turn_last_k now r c s [] Hm Hb) as [H _].
  exact H.
Qed.

Lemma check_context_timeout_bounded (now now_reset : Q) (s : service) :
  (0 <= max_turns s)%Z -> history_bounded s ->
  history_bounded (snd (fst (check_context_timeout now now_reset s))).
Proof.
  intros Hm Hb. unfold check_context_timeout.
  destruct (conversation_turns s) eqn:E; [exact Hb|].
  destruct (Qlt_bool _ _); [|exact Hb].
  unfold history_bounded. simpl. exact Hm.
Qed.

Section PassInvariants.
Context {rt : PyRuntime}.

(** What [respond_to_turn] keeps. *)
Lemma respond_to_turn_keeps (e : env) (s : service) (t : pystr) :
  let s' := fst (fst (respond_to_turn e s t)) in
  sample_rate s' = sample_rate s /\ max_turns s' = max_turns s
  /\ is_muted s' = is_muted s
  /\ ((0 <= max_turns s)%Z -> history_bounded s -> history_bounded s').
Proof.
  cbv zeta.
  destruct (respond_to_turn_cases e s t)
    as [(_ & ->) | [(_ & _ & ->) | (_ & _ & H)]].
  - simpl. auto.
  - simpl. auto.
  - cbv zeta in H. rewrite H. cbn [fst]. repeat split.
    intros Hm Hb. apply add_conversation_turn_bounded; [exact Hm|].
    apply add_conversation_turn_bounded; assumption.
Qed.

(** What [vad_step] keeps. *)
Lemma vad_step_keeps (e : env) (s : service) (l : locals) :
  let s' := service_of (vad_step e s l) in
  sample_rate s' = sample_rate s /\ max_turns s' = max_turns s
  /\ is_muted s' = is_muted s
  /\ ((0 <= max_turns s)%Z -> history_bounded s -> history_bounded s').
Proof.
  cbv zeta. vad_cases e s l; try (unfold service_of; simpl; auto; fail).
  pose proof (respond_to_turn_keeps e s (strip (join (py " ") segments))) as K.
  cbv zeta in K.
  destruct (respond_to_turn e s _) as [[s' said] fl].
  unfold service_of. cbn [fst snd] in *. exact K.
Qed.

(** What a pass keeps. *)
Lemma loop_body_keeps (e : env) (s : service) (l : locals) :
  let s' := service_of (loop_body e s l) in
  sample_rate s' = sample_rate s /\ max_turns s' = max_turns s
  /\ is_muted s' = is_muted s
  /\ ((0 <= max_turns s)%Z -> history_bounded s -> history_bounded s').
Proof.
  cbv zeta. unfold loop_body.
  pose proof (check_context_timeout_keeps (now_ctx_check e) (now_ctx_reset e) s)
    as (K1 & _ & K3 & K4).
  pose proof (@check_context_timeout_bounded (now_ctx_check e)
                (now_ctx_reset e) s) as Kb.
  destruct (check_context_timeout (now_ctx_check e) (now_ctx_reset e) s)
    as [[v s1] checked].
  cbn [fst snd] in *.
  destruct (is_muted s1) eqn:Hm.
  - unfold service_of. cbn [fst snd]. rewrite Hm. auto.
  - pose proof (vad_step_keeps e s1 l) as V. cbv zeta in V.
    destruct (vad_step e s1 l) as [[[s' l'] tr] fl].
    unfold service_of in *. cbn [fst snd] in *.
    destruct V as (V1 & V2 & V3 & V4).
    rewrite V1, V2, V3, K3, K4, Hm. repeat split; auto.
    intros H0 Hb. apply V4; [rewrite K4; exact H0|]. apply Kb; assumption.
Qed.

(** A chunk step hands over only buffers longer than the minimum. *)
Lemma vad_step_turn_floor (e : env) (s : service) (l : locals) :
  Forall (fun fr => (min_speech_frames s < Z.of_nat (length fr))%Z)
    (turns_emitted (trace_of (vad_step e s l))).
Proof.
  vad_cases e s l; unfold trace_of; cbn [fst snd].
  - constructor.
  - destruct (recording l); constructor.
  - constructor.
  - constructor.
  - constructor.
  - simpl. constructor; [lia|constructor].
  - pose proof (respond_to_turn_quiet e s (strip (join (py " ") segments))) as Q.
    destruct (respond_to_turn e s _) as [[s' said] fl].
    cbn [fst snd] in *.
    change (CallTranscribe ?b :: said) with ([CallTranscribe b] ++ said).
    rewrite turns_emitted_app, Q. simpl. constructor; [lia|constructor].
Qed.

(** A chunk step keeps the locals coherent. *)
Lemma vad_step_coherent (e : env) (s : service) (l : locals) :
  coherent l -> coherent (locals_of (vad_step e s l)).
Proof.
  intros Hc.
  assert (Hsd : recording l = true -> speech_detected l = true).
  { destruct Hc as [-> | (_ & H & _)]; [discriminate|auto]. }
  assert (Hne : forall c, frames l ++ [c] <> []).
  { intros c. destruct (frames l); discriminate. }
  vad_cases e s l; unfold locals_of; cbn [fst snd]; try exact Hc;
    try (left; reflexivity).
  - right. cbn. destruct (recording l); auto.
  - right. cbn. auto.
  - right. cbn. auto.
  - destruct (respond_to_turn e s _) as [[s' said] fl]. cbn [fst snd].
    destruct fl; [left; reflexivity|]. right. cbn. auto.
Qed.

End PassInvariants.

Section RunInvariants.
Context {rt : PyRuntime}.

Lemma loop_body_turn_floor (e : env) (s : service) (l : locals) :
  Forall (fun fr => (min_speech_frames s < Z.of_nat (length fr))%Z)
    (turns_emitted (trace_of (loop_body e s l))).
Proof.
  unfold loop_body.
  pose proof (check_context_timeout_keeps (now_ctx_check e) (now_ctx_reset e) s)
    as (_ & _ & K3 & _).
  pose proof (check_context_timeout_quiet (now_ctx_check e) (now_ctx_reset e) s)
    as (Q & _).
  destruct (check_context_timeout (now_ctx_check e) (now_ctx_reset e) s)
    as [[v s1] checked].
  cbn [fst snd] in *.
  destruct (is_muted s1).
  - unfold trace_of. cbn [fst snd]. rewrite Q. constructor.
  - pose proof (vad_step_turn_floor e s1 l) as V.
    destruct (vad_step e s1 l) as [[[s' l'] tr] fl].
    unfold trace_of in *. cbn [fst snd] in *.
    rewrite turns_emitted_app, Q. simpl.
    unfold min_speech_frames in *. rewrite K3 in V. exact V.
Qed.

Lemma loop_body_coherent (e : env) (s : service) (l : locals) :
  coherent l -> coherent (locals_of (loop_body e s l)).
Proof.
  intros Hc. unfold loop_body.
  destruct (check_context_timeout (now_ctx_check e) (now_ctx_reset e) s)
    as [[v s1] checked].
  destruct (is_muted s1); [exact Hc|].
  pose proof (vad_step_coherent e s1 Hc) as V.
  destruct (vad_step e s1 l) as [[[s' l'] tr] fl].
  exact V.
Qed.

(** An invariant of the passes is an invariant of the run. *)
Lemma while_loop_invariant (P : service -> locals -> Prop) :
  (forall e s l, P s l ->
     P (service_of (loop_body e s l)) (locals_of (loop_body e s l))) ->
  forall envs s l,
    P s l ->
    P (service_of (while_loop envs s l)) (locals_of (while_loop envs s l)).
Proof.
  intros Hstep. induction envs as [|e rest IH]; intros s l HP; simpl.
  - destruct (should_stop s); exact HP.
  - destruct (should_stop s); [exact HP|].
    pose proof (Hstep e s l HP) as H1.
    destruct (loop_body e s l) as [[[s1 l1] tr] fl].
    unfold service_of, locals_of in H1. cbn [fst snd] in H1.
    destruct fl.
    + pose proof (IH s1 l1 H1) as H2.
      destruct (while_loop rest s1 l1) as [[[s2 l2] tr2] x]. exact H2.
    + exact H1.
Qed.

End RunInvariants.

(** X1.  Whatever the microphone, the clock and the other services do,
    every Turn handed to the transcriber during a run of the loop holds
    more frames than [min_speech_frames]; for the service as constructed
    that is more than 7 frames, at least 0.512 s of audio. *)
Theorem turn_never_below_minimum {rt : PyRuntime} :
  (forall (envs : list env) (s : service) (l : locals),
     Forall (fun fr => (min_speech_frames s < Z.of_nat (length fr))%Z)
       (turns_emitted (trace_of (while_loop envs s l))))
  /\ (forall url prompt now,
        min_speech_frames (init_service url prompt now) = 7%Z).
Proof.
  split; [|reflexivity].
  induction envs as [|e rest IH]; intros s l; simpl.
  - destruct (should_stop s); constructor.
  - destruct (should_stop s); [constructor|].
    pose proof (loop_body_turn_floor e s l) as H1.
    pose proof (loop_body_keeps e s l) as (K & _).
    destruct (loop_body e s l) as [[[s1 l1] tr] fl].
    unfold trace_of, service_of in *. cbn [fst snd] in *.
    destruct fl; [|exact H1].
    pose proof (IH s1 l1) as H2.
    destruct (while_loop rest s1 l1) as [[[s2 l2] tr2] x].
    cbn [fst snd] in *. rewrite turns_emitted_app.
    apply Forall_app. split; [exact H1|].
    unfold min_speech_frames in *. rewrite K in H2. exact H2.
Qed.

(** X2.  In every state the loop reaches from its initial locals the
    flag [speech_detected] equals [recording]; while nothing is recorded
    the buffer is empty and no silence is timed; while a turn is
    recorded the buffer is not empty. *)
Theorem locals_stay_coherent {rt : PyRuntime} (envs : list env) (s : service) :
  let l := locals_of (while_loop envs s idle) in
  speech_detected l = recording l
  /\ (recording l = false -> frames l = [] /\ silence_start l = None)
  /\ (recording l = true -> frames l <> []).
Proof.
  cbv zeta.
  assert (H : coherent (locals_of (while_loop envs s idle))).
  { apply (while_loop_invariant (fun _ l => coherent l)).
    - intros e s0 l0. apply loop_body_coherent.
    - left. reflexivity. }
  destruct H as [-> | (Hr & Hs & Hf)].
  - repeat split; intros; discriminate.
  - rewrite Hr, Hs. repeat split; congruence.
Qed.

(** X3.  Once [max_turns] is not negative and the history is within it,
    it stays within it: after any run of the audio loop and after any
    run of the command listener the history holds at most [max_turns]
    records, and [max_turns] is what it was. *)
Theorem history_bound_is_invariant {rt : PyRuntime} (s : service) :
  (0 <= max_turns s)%Z ->
  history_bounded s ->
  (forall envs l,
     history_bounded (service_of (while_loop envs s l))
     /\ max_turns (service_of (while_loop envs s l)) = max_turns s)
  /\ (forall inputs,
        history_bounded (fst (fst (listen_for_commands inputs s)))
        /\ max_turns (fst (fst (listen_for_commands inputs s))) = max_turns s).
Proof.
  intros Hm Hb. split.
  - intros envs l.
    apply (while_loop_invariant
             (fun s' _ => history_bounded s' /\ max_turns s' = max_turns s));
      [|split; [exact Hb|reflexivity]].
    intros e s0 l0 [Hb0 Hm0].
    pose proof (loop_body_keeps e s0 l0) as (_ & K2 & _ & K4).
    split; [apply K4; [rewrite Hm0; exact Hm|exact Hb0]|].
    rewrite K2. exact Hm0.
  - intros inputs. revert s Hm Hb.
    induction inputs as [|i rest IH]; intros s Hm Hb; simpl.
    + destruct (should_stop s); auto.
    + destruct (should_stop s); [auto|].
      assert (Hstep : history_bounded (fst (listen_step i s))
                      /\ max_turns (fst (listen_step i s)) = max_turns s).
      { unfold listen_step. destruct (line i) as [text|msg]; [|auto].
        destruct (truthy text); [|auto].
        destruct (decoded i) as [|c|why]; try (simpl; auto; fail).
        unfold handle_command.
        repeat (match goal with
                | |- context [if ?b then _ else _] => destruct b
                end; try (cbn [fst]; unfold history_bounded in *; simpl;
                          auto; fail)).
        cbn [fst]. split; [|reflexivity].
        apply add_conversation_turn_bounded; [exact Hm|exact Hb]. }
      destruct Hstep as [Hb1 Hm1].
      destruct (listen_step i s) as [s1 tr]. cbn [fst] in *.
      assert (Hm1' : (0 <= max_turns s1)%Z) by (rewrite Hm1; exact Hm).
      pose proof (IH s1 Hm1' Hb1) as [H2 H3].
      destruct (listen_for_commands rest s1) as [[s2 tr2] x].
      cbn [fst] in *. split; [exact H2|]. rewrite H3. exact Hm1.
Qed.

Lemma history_bound_is_invariant_witness :
  let s :=
    set_context (init_service (py "http://localhost:11434") (py "prompt") 0)
      (repeat {| role := py "user"; content := py "again" |} 8) 0 in
  let e :=
    {| now_ctx_check := 3; now_ctx_reset := 3;
       audio_read := Ok quiet;
       now_silence_start := 3; now_silence_check := 3;
       transcribe_result := Ok [py "one more"]; now_user_turn := 3;
       llm_result := PostTimeout; now_assistant_turn := 3;
       tts_result := Ok tt |} in
  history_bounded
    (service_of
       (@while_loop ascii_runtime [e; e] s
          (recording_with (repeat loud 20) (Some 1%Q)))).
Proof.
  intros s e.
  assert (Hm : (0 <= max_turns s)%Z) by (vm_compute; discriminate).
  assert (Hb : history_bounded s) by (vm_compute; discriminate).
  apply (proj1 (@history_bound_is_invariant ascii_runtime s Hm Hb)).
Defined.

Section MutedRuns.
Context {rt : PyRuntime}.

Lemma loop_body_muted (e : env) (s : service) (l : locals) :
  is_muted s = true ->
  loop_body e s l
  = (snd (fst (check_context_timeout (now_ctx_check e) (now_ctx_reset e) s)),
     l,
     snd (check_context_timeout (now_ctx_check e) (now_ctx_reset e) s),
     Next).
Proof.
  intros Hm. unfold loop_body.
  pose proof (check_context_timeout_keeps (now_ctx_check e) (now_ctx_reset e) s)
    as (K & _).
  destruct (check_context_timeout (now_ctx_check e) (now_ctx_reset e) s)
    as [[v s1] checked].
  cbn [fst snd] in *. rewrite K, Hm. reflexivity.
Qed.

(** Muted and with an empty history, the loop does nothing at all. *)
Lemma muted_run_silent : forall (envs : list env) (s : service) (l : locals),
  is_muted s = true -> conversation_turns s = [] ->
  exists x, while_loop envs s l = (s, l, [], x).
Proof.
  induction envs as [|e rest IH]; intros s l Hm Hc; simpl.
  - destruct (should_stop s); eexists; reflexivity.
  - destruct (should_stop s); [eexists; reflexivity|].
    rewrite (loop_body_muted e s l Hm).
    rewrite (check_context_timeout_empty _ _ s Hc). cbn [fst snd].
    destruct (IH s l Hm Hc) as (x & ->). eexists. reflexivity.
Qed.

Lemma muted_run : forall (envs : list env) (s : service) (l : locals),
  is_muted s = true ->
  locals_of (while_loop envs s l) = l
  /\ (trace_of (while_loop envs s l) = []
      \/ trace_of (while_loop envs s l) = [auto_reset_event]).
Proof.
  induction envs as [|e rest IH]; intros s l Hm; simpl.
  - destruct (should_stop s); auto.
  - destruct (should_stop s); [auto|].
    rewrite (loop_body_muted e s l Hm).
    pose proof (check_context_timeout_keeps (now_ctx_check e) (now_ctx_reset e) s)
      as (K & _).
    unfold check_context_timeout in *.
    destruct (conversation_turns s) as [|r0 rs] eqn:Hc.
    + cbn [fst snd].
      destruct (@muted_run_silent rest s l Hm Hc) as (x & ->). auto.
    + destruct (Qlt_bool _ _).
      * cbn [fst snd].
        destruct (@muted_run_silent rest (set_context s [] (now_ctx_reset e))
                    l Hm eq_refl) as (x & ->).
        unfold locals_of, trace_of. cbn [fst snd]. auto.
      * cbn [fst snd]. destruct (IH s l Hm) as [H1 H2].
        destruct (while_loop rest s l) as [[[s2 l2] tr2] x].
        unfold locals_of, trace_of in *. cbn [fst snd] in *. auto.
Qed.

End MutedRuns.

(** X4.  After a [mute] command the audio loop leaves its locals as they
    are for as long as it runs: no chunk is buffered, nothing is handed
    to the transcriber or posted to the LLM.  The only thing a muted
    pass still does is the inactivity check: the run emits nothing, or
    the one debug event of a context reset. *)
Theorem muted_loop_buffers_nothing {rt : PyRuntime} (ce : cmd_env)
  (s : service) (envs : list env) (l : locals) :
  let muted := fst (handle_command ce s (command_named "mute")) in
  is_muted muted = true
  /\ locals_of (while_loop envs muted l) = l
  /\ (trace_of (while_loop envs muted l) = []
      \/ trace_of (while_loop envs muted l) = [auto_reset_event]).
Proof.
  cbv zeta. split; [reflexivity|].
  apply muted_run. reflexivity.
Qed.

(** X5.  A pass whose audio read raises reports the error and changes
    nothing else: the locals, and with them a turn that is being
    recorded, are kept, and the loop goes on.  The service is what the
    inactivity check of that pass left. *)
Theorem failed_read_keeps_buffer {rt : PyRuntime} (e : env) (s : service)
  (l : locals) (msg : pystr) (rest : list env) :
  is_muted s = false -> should_stop s = false ->
  audio_read e = Raise msg ->
  let r := check_context_timeout (now_ctx_check e) (now_ctx_reset e) s in
  loop_body e s l
  = (snd (fst r), l,
     snd r ++ [log_error (py "Error in audio loop: " ++ msg)], Next)
  /\ turns_emitted (trace_of (while_loop (e :: rest) s l))
     = turns_emitted (trace_of (while_loop rest (snd (fst r)) l)).
Proof.
  intros Hm Hs Ha. cbv zeta.
  assert (Hb : loop_body e s l
               = (snd (fst (check_context_timeout (now_ctx_check e)
                              (now_ctx_reset e) s)), l,
                  snd (check_context_timeout (now_ctx_check e)
                         (now_ctx_reset e) s)
                  ++ [log_error (py "Error in audio loop: " ++ msg)], Next)).
  { rewrite (loop_body_unmuted e s l Hm). cbv zeta.
    unfold vad_step. rewrite Ha. reflexivity. }
  split; [exact Hb|].
  simpl while_loop. rewrite Hs, Hb.
  destruct (while_loop rest _ l) as [[[s2 l2] tr2] x].
  unfold trace_of. cbn [fst snd].
  rewrite !turns_emitted_app.
  rewrite (proj1 (check_context_timeout_quiet _ _ _)). reflexivity.
Qed.

Lemma failed_read_keeps_buffer_witness :
  let s := init_service (py "http://localhost:11434") (py "prompt") 0 in
  let l := recording_with [loud; loud] None in
  let e :=
    {| now_ctx_check := 1; now_ctx_reset := 1;
       audio_read := Raise (py "Input overflowed");
       now_silence_start := 1; now_silence_check := 1;
       transcribe_result := Ok []; now_user_turn := 1;
       llm_result := PostTimeout; now_assistant_turn := 1;
       tts_result := Ok tt |} in
  @loop_body ascii_runtime e s l
  = (s, l, [log_error (py "Error in audio loop: Input overflowed")], Next).
Proof.
  intros s l e.
  rewrite (proj1 (@failed_read_keeps_buffer ascii_runtime e s l
                    (py "Input overflowed") [] eq_refl eq_refl eq_refl)).
  reflexivity.
Defined.

Section TurnOutcomes.
Context {rt : PyRuntime}.

(** One more pass of a running loop that does not break. *)
Lemma while_loop_next (e : env) (rest : list env) (s s' : service)
  (l l' : locals) (tr : list effect) :
  should_stop s = false ->
  loop_body e s l = (s', l', tr, Next) ->
  while_loop (e :: rest) s l
  = (service_of (while_loop rest s' l'), locals_of (while_loop rest s' l'),
     tr ++ trace_of (while_loop rest s' l'), snd (while_loop rest s' l')).
Proof.
  intros Hs Hb. simpl. rewrite Hs, Hb.
  destruct (while_loop rest s' l') as [[[s2 l2] tr2] x]. reflexivity.
Qed.

Lemma add_two_turns_end (n1 n2 : Q) (r1 c1 r2 c2 : pystr) (s : service) :
  (2 <= max_turns s)%Z ->
  exists older,
    conversation_turns
      (add_conversation_turn n2 r2 c2 (add_conversation_turn n1 r1 c1 s))
    = older ++ [{| role := r1; content := c1 |}; {| role := r2; content := c2 |}].
Proof.
  intros Hm.
  destruct (add_conversation_turn_ends n1 r1 c1 s) as (o1 & H1); [lia|].
  unfold add_conversation_turn at 1. cbn [conversation_turns set_context].
  rewrite H1. cbn [max_turns set_context add_conversation_turn].
  rewrite <- app_assoc. cbn [app].
  destruct (Z.of_nat (length (o1 ++ [_; _])) >? max_turns s)%Z eqn:E.
  - apply Z.gtb_lt in E. rewrite length_app in E. simpl in E.
    destruct o1 as [|x o1]; [simpl in E; lia|].
    exists o1. reflexivity.
  - exists o1. reflexivity.
Qed.

End TurnOutcomes.

(** X6.  When the transcription raises, the loop reports the error but
    does not reset the turn: the buffer and the silence timer are kept.
    The next silent chunk read after the timeout is appended and the
    buffer is handed to the transcriber again, one frame longer. *)
Theorem failed_transcription_is_retried {rt : PyRuntime} (e1 e2 : env)
  (s : service) (fr : list frame) (since : option Q) (msg : pystr) :
  listening s ->
  silence_env e1 = true -> silence_env e2 = true ->
  timed_out (silence_since e1 (recording_with fr since)) e1 = true ->
  timed_out (silence_since e1 (recording_with fr since)) e2 = true ->
  7 < length fr + 1 ->
  transcribe_result e1 = Raise msg ->
  locals_of (loop_body e1 s (recording_with fr since))
  = recording_with (fr ++ [chunk_of e1])
      (Some (silence_since e1 (recording_with fr since)))
  /\ In (log_error (py "Error in audio loop: " ++ msg))
       (trace_of (loop_body e1 s (recording_with fr since)))
  /\ turns_emitted (trace_of (while_loop [e1; e2] s (recording_with fr since)))
     = [fr ++ [chunk_of e1]; (fr ++ [chunk_of e1]) ++ [chunk_of e2]].
Proof.
  intros Hl Hs1 Hs2 Ht1 Ht2 Hlen Htr.
  set (l := recording_with fr since) in *.
  set (r := check_context_timeout (now_ctx_check e1) (now_ctx_reset e1) s).
  assert (Hl1 : listening (snd (fst r))) by (apply listening_after_check; exact Hl).
  assert (Hb : loop_body e1 s l
               = (snd (fst r),
                  recording_with (fr ++ [chunk_of e1]) (Some (silence_since e1 l)),
                  snd r ++ [CallTranscribe (fr ++ [chunk_of e1]);
                            log_error (py "Error in audio loop: " ++ msg)],
                  Next)).
  { rewrite (loop_body_unmuted e1 s l (proj1 Hl)). cbv zeta. fold r.
    vad_cases e1 (snd (fst r)) l; try congruence.
    - unfold silence_env in Hs1. rewrite Ha in Hs1. discriminate.
    - unfold silence_env in Hs1. unfold speech_env in Hsp.
      destruct (audio_read e1); [|discriminate].
      rewrite Hsp in Hs1. discriminate.
    - unfold l in Hrec. discriminate.
    - exfalso. apply andb_false_iff in Htest as [H|H]; [discriminate|].
      rewrite (min_speech_frames_16000 _ (proj2 (proj2 Hl1))) in H.
      rewrite Z.gtb_ltb in H. apply Z.ltb_ge in H.
      unfold l in H. cbn [frames recording_with] in H.
      rewrite length_app in H. simpl in H. lia.
    - rewrite Htr in Htr0. injection Htr0 as <-. reflexivity. }
  split; [rewrite Hb; reflexivity|]. split.
  { rewrite Hb. unfold trace_of. cbn [fst snd]. apply in_or_app. right.
    right. left. reflexivity. }
  rewrite (@while_loop_next _ e1 [e2] _ _ _ _ _ (proj1 (proj2 Hl)) Hb).
  unfold trace_of at 1. cbn [fst snd].
  rewrite !turns_emitted_app.
  rewrite (@pass_final _ e2 (snd (fst r)) (fr ++ [chunk_of e1])
             (Some (silence_since e1 l)) Hl1 Hs2 Ht2).
  - unfold r.
    rewrite (proj1 (check_context_timeout_quiet _ _ _)). reflexivity.
  - rewrite length_app. lia.
Qed.

Lemma failed_transcription_is_retried_witness :
  let s := init_service (py "http://localhost:11434") (py "prompt") 0 in
  let e1 :=
    {| now_ctx_check := 5; now_ctx_reset := 5; audio_read := Ok quiet;
       now_silence_start := 5; now_silence_check := 5;
       transcribe_result := Raise (py "out of memory"); now_user_turn := 5;
       llm_result := PostTimeout; now_assistant_turn := 5;
       tts_result := Ok tt |} in
  let e2 := pass_at 6 quiet in
  turns_emitted
    (trace_of (@while_loop ascii_runtime [e1; e2] s
                 (recording_with (repeat loud 8) (Some 3%Q))))
  = [repeat loud 8 ++ [quiet]; (repeat loud 8 ++ [quiet]) ++ [quiet]].
Proof.
  intros s e1 e2.
  apply (@failed_transcription_is_retried ascii_runtime e1 e2 s
           (repeat loud 8) (Some 3%Q) (py "out of memory")).
  - repeat split.
  - vm_compute. reflexivity.
  - vm_compute. reflexivity.
  - vm_compute. reflexivity.
  - vm_compute. reflexivity.
  - vm_compute. lia.
  - reflexivity.
Defined.

(** X7.  A turn whose transcript is empty is dropped after the
    hand-over: the pass emits nothing more, the history and every other
    field of the service are what the inactivity check left, and the
    locals are reset. *)
Theorem empty_transcript_is_dropped {rt : PyRuntime} (e : env) (s : service)
  (l : locals) :
  finalizes e s l [] ->
  let r := check_context_timeout (now_ctx_check e) (now_ctx_reset e) s in
  loop_body e s l
  = (snd (fst r), idle,
     snd r ++ [CallTranscribe (frames l ++ [chunk_of e])], Next).
Proof.
  intros F. cbv zeta. rewrite (loop_body_final F). reflexivity.
Qed.

Lemma empty_transcript_is_dropped_witness :
  let s := init_service (py "http://localhost:11434") (py "prompt") 0 in
  let l := recording_with (repeat loud 8) (Some 3%Q) in
  let e :=
    {| now_ctx_check := 5; now_ctx_reset := 5; audio_read := Ok quiet;
       now_silence_start := 5; now_silence_check := 5;
       transcribe_result := Ok [py "  "; py " "]; now_user_turn := 5;
       llm_result := PostTimeout; now_assistant_turn := 5;
       tts_result := Ok tt |} in
  @loop_body ascii_runtime e s l
  = (s, idle, [CallTranscribe (repeat loud 8 ++ [quiet])], Next).
Proof.
  intros s l e.
  rewrite (@empty_transcript_is_dropped ascii_runtime e s l).
  - reflexivity.
  - unfold finalizes. repeat split; try (vm_compute; reflexivity).
    exists [py "  "; py " "]. split; vm_compute; reflexivity.
Defined.

(** X8.  A turn with a transcript that is not empty and is no goodbye
    is answered in one pass: the reply is not empty; the events are, in
    order, the transcription, those of the LLM call, [jarvis_speaking],
    [conversation_turn], the speech and [listening]; the text announced,
    the text reported, the text spoken and the text stored are the same
    reply; the locals are reset.  With room for two records the history
    ends with the user record and the reply, and the last activity is
    the time the reply was stored. *)
Theorem answered_turn_bookkeeping {rt : PyRuntime} (e : env) (s : service)
  (l : locals) (t : pystr) :
  finalizes e s l t ->
  t <> [] ->
  contains (py "goodbye") (str_lower t) || contains (py "exit") (str_lower t)
  = false ->
  let r := check_context_timeout (now_ctx_check e) (now_ctx_reset e) s in
  let s2 := add_conversation_turn (now_user_turn e) (py "user") t (snd (fst r)) in
  let response := fst (generate_fast_response (llm_result e) s2 t) in
  let s3 := add_conversation_turn (now_assistant_turn e) (py "assistant")
              response s2 in
  response <> []
  /\ loop_body e s l
     = (s3, idle,
        snd r
        ++ [CallTranscribe (frames l ++ [chunk_of e]);
            send_message "transcription" [("text"%string, t)]]
        ++ snd (generate_fast_response (llm_result e) s2 t)
        ++ [send_message "jarvis_speaking" [("text"%string, response)];
            send_message "conversation_turn"
              [("user_text"%string, t); ("jarvis_response"%string, response)]]
        ++ speak_text (tts_result e) s3 response
        ++ [send_message "listening" []],
        Next)
  /\ last_activity_time s3 = now_assistant_turn e
  /\ ((2 <= max_turns s)%Z ->
      exists older,
        conversation_turns s3
        = older ++ [{| role := py "user"; content := t |};
                    {| role := py "assistant"; content := response |}]).
Proof.
  intros F Ht Hbye. cbv zeta.
  split.
  { apply truthy_true_iff. apply generate_fast_response_nonempty. }
  split.
  { rewrite (loop_body_final F). cbv zeta.
    destruct (respond_to_turn_cases e
                (snd (fst (check_context_timeout (now_ctx_check e)
                             (now_ctx_reset e) s))) t)
      as [(H & _) | [(_ & H & _) | (_ & _ & H)]]; try congruence.
    cbv zeta in H. rewrite H. reflexivity. }
  split; [reflexivity|].
  intros Hm. apply add_two_turns_end.
  pose proof (check_context_timeout_keeps (now_ctx_check e) (now_ctx_reset e) s)
    as (_ & _ & _ & K).
  cbv zeta in K. rewrite K. exact Hm.
Qed.

Lemma answered_turn_bookkeeping_witness :
  let s := init_service (py "http://localhost:11434") (py "prompt") 0 in
  let l := recording_with (repeat loud 8) (Some 3%Q) in
  let e :=
    {| now_ctx_check := 5; now_ctx_reset := 5; audio_read := Ok quiet;
       now_silence_start := 5; now_silence_check := 5;
       transcribe_result := Ok [py " Make a file."]; now_user_turn := 6;
       llm_result :=
         Response 200 (Ok (py "[ANSWER] On it. [INSTRUCTION] Create a file"));
       now_assistant_turn := 7; tts_result := Ok tt |} in
  conversation_turns (service_of (@loop_body ascii_runtime e s l))
  = [{| role := py "user"; content := py "Make a file." |};
     {| role := py "assistant"; content := py "On it." |}].
Proof.
  intros s l e.
  destruct (@answered_turn_bookkeeping ascii_runtime e s l (py "Make a file."))
    as (_ & Hb & _).
  - unfold finalizes. repeat split; try (vm_compute; reflexivity).
    exists [py " Make a file."]. split; vm_compute; reflexivity.
  - vm_compute. congruence.
  - vm_compute. reflexivity.
  - rewrite Hb. vm_compute. reflexivity.
Defined.

Lemma add_conversation_turn_room (now : Q) (r c : pystr) (s : service) :
  (Z.of_nat (length (conversation_turns s)) < max_turns s)%Z ->
  conversation_turns (add_conversation_turn now r c s)
  = conversation_turns s ++ [{| role := r; content := c |}].
Proof.
  intros H. unfold add_conversation_turn. cbn [conversation_turns set_context].
  rewrite length_app. simpl length.
  replace (Z.of_nat (length (conversation_turns s) + 1) >? max_turns s)%Z
    with false; [reflexivity|].
  symmetry. rewrite Z.gtb_ltb. apply Z.ltb_ge. lia.
Qed.

(** X9.  When a turn ends after the inactivity timeout has passed, the
    old history is dropped before the turn is answered: the pass first
    reports the reset, what is posted to the LLM holds the system
    prompt and the new user message only (the user message twice, as in
    every post), and with room for two records the history afterwards
    is the new user record and the reply. *)
Theorem stale_history_is_not_sent {rt : PyRuntime} (e : env) (s : service)
  (l : locals) (t : pystr) :
  finalizes e s l t ->
  t <> [] ->
  contains (py "goodbye") (str_lower t) || contains (py "exit") (str_lower t)
  = false ->
  conversation_turns s <> [] ->
  (context_timeout s < now_ctx_check e - last_activity_time s)%Q ->
  (1 <= max_turns s)%Z ->
  let u := {| role := py "user"; content := t |} in
  hd_error (trace_of (loop_body e s l)) = Some auto_reset_event
  /\ llm_messages (trace_of (loop_body e s l))
     = [[{| role := py "system"; content := system_prompt s |}; u; u]]
  /\ ((2 <= max_turns s)%Z ->
      exists response,
        response <> []
        /\ conversation_turns (service_of (loop_body e s l))
           = [u; {| role := py "assistant"; content := response |}]).
Proof.
  intros F Ht Hbye Hne Hlate Hm. cbv zeta.
  assert (Hc : check_context_timeout (now_ctx_check e) (now_ctx_reset e) s
               = (PyNone, set_context s [] (now_ctx_reset e), [auto_reset_event])).
  { unfold check_context_timeout.
    destruct (conversation_turns s); [congruence|].
    apply Qlt_bool_true in Hlate. rewrite Hlate. reflexivity. }
  set (s1 := set_context s [] (now_ctx_reset e)).
  set (s2 := add_conversation_turn (now_user_turn e) (py "user") t s1).
  assert (H2 : conversation_turns s2 = [{| role := py "user"; content := t |}]).
  { unfold s2. rewrite add_conversation_turn_room; [reflexivity|].
    simpl. lia. }
  assert (Hb : loop_body e s l
               = (add_conversation_turn (now_assistant_turn e) (py "assistant")
                    (fst (generate_fast_response (llm_result e) s2 t)) s2,
                  idle,
                  [auto_reset_event]
                  ++ CallTranscribe (frames l ++ [chunk_of e])
                     :: [send_message "transcription" [("text"%string, t)]]
                     ++ snd (generate_fast_response (llm_result e) s2 t)
                     ++ [send_message "jarvis_speaking"
                           [("text"%string,
                             fst (generate_fast_response (llm_result e) s2 t))]]
                     ++ [send_message "conversation_turn"
                           [("user_text"%string, t);
                            ("jarvis_response"%string,
                             fst (generate_fast_response (llm_result e) s2 t))]]
                     ++ speak_text (tts_result e)
                          (add_conversation_turn (now_assistant_turn e)
                             (py "assistant")
                             (fst (generate_fast_response (llm_result e) s2 t))
                             s2)
                          (fst (generate_fast_response (llm_result e) s2 t))
                     ++ [send_message "listening" []],
                  Next)).
  { rewrite (loop_body_final F). cbv zeta. rewrite Hc. cbn [fst snd].
    fold s1.
    destruct (respond_to_turn_cases e s1 t)
      as [(H & _) | [(_ & H & _) | (_ & _ & H)]]; try congruence.
    cbv zeta in H. fold s2 in H. rewrite H. reflexivity. }
  rewrite Hb. unfold trace_of, service_of. cbn [fst snd]. split; [reflexivity|].
  split.
  - change (?a ++ CallTranscribe ?b :: ?c) with (a ++ [CallTranscribe b] ++ c).
    rewrite !llm_messages_app.
    rewrite (proj2 (generate_fast_response_trace _ _ _)).
    rewrite (proj2 (speak_text_quiet _ _ _)).
    unfold build_messages. rewrite H2. reflexivity.
  - intros Hm2.
    exists (fst (generate_fast_response (llm_result e) s2 t)). split.
    + apply truthy_true_iff. apply generate_fast_response_nonempty.
    + rewrite add_conversation_turn_room; [rewrite H2; reflexivity|].
      rewrite H2. simpl. lia.
Qed.

Lemma stale_history_is_not_sent_witness :
  let s0 := init_service (py "http://localhost:11434") (py "prompt") 0 in
  let s := add_conversation_turn 10 (py "assistant") (py "Done.")
             (add_conversation_turn 9 (py "user") (py "Build it") s0) in
  let l := recording_with (repeat loud 8) (Some 300%Q) in
  let e :=
    {| now_ctx_check := 302; now_ctx_reset := 302; audio_read := Ok quiet;
       now_silence_start := 302; now_silence_check := 302;
       transcribe_result := Ok [py " What now?"]; now_user_turn := 303;
       llm_result := PostConnectionError;
       now_assistant_turn := 304; tts_result := Ok tt |} in
  llm_messages (trace_of (@loop_body ascii_runtime e s l))
  = [[{| role := py "system"; content := py "prompt" |};
      {| role := py "user"; content := py "What now?" |};
      {| role := py "user"; content := py "What now?" |}]].
Proof.
  intros s0 s l e.
  apply (@stale_history_is_not_sent ascii_runtime e s l (py "What now?")).
  - unfold finalizes. repeat split; try (vm_compute; reflexivity).
    exists [py " What now?"]. split; vm_compute; reflexivity.
  - vm_compute. congruence.
  - vm_compute. reflexivity.
  - vm_compute. congruence.
  - vm_compute. reflexivity.
  - vm_compute. congruence.
Defined.

(* ===================================================================== *)
(** * Further properties of the command handler *)
(* ===================================================================== *)

(** X10.  A command dict whose ["command"] value is none of the six
    known names, or which has no such key, changes nothing: the listener
    answers with one error event naming the value ([None] for a missing
    key) and the state is as before. *)
Theorem unknown_command_is_rejected {rt : PyRuntime} (ce : cmd_env)
  (s : service) (text : pystr) (c : command) :
  line ce = Ok text -> text <> [] -> decoded ce = Decoded c ->
  unknown_command c = true ->
  listen_step ce s
  = (s, [log_error (py "Unknown command: " ++ str_of_cmd (c_command c))])
  /\ (c_command c = None ->
      listen_step ce s = (s, [log_error (py "Unknown command: None")])).
Proof.
  intros Hl Ht Hd Hu.
  assert (H : listen_step ce s
              = (s, [log_error (py "Unknown command: "
                                ++ str_of_cmd (c_command c))])).
  { unfold listen_step. rewrite Hl, Hd.
    apply truthy_true_iff in Ht. rewrite Ht.
    unfold unknown_command, known_commands in Hu. cbn [forallb] in Hu.
    repeat (apply andb_true_iff in Hu; destruct Hu as [?H Hu]).
    repeat match goal with
           | H : negb _ = true |- _ => apply negb_true_iff in H
           end.
    unfold handle_command.
    repeat match goal with
           | H : cmd_eq _ _ = false |- _ => rewrite H; clear H
           end.
    reflexivity. }
  split; [exact H|]. intros Hn. rewrite H, Hn. reflexivity.
Qed.

Lemma unknown_command_is_rejected_witness :
  let s := init_service (py "http://localhost:11434") (py "prompt") 0 in
  let c := {| c_command := None; c_voice := Some (py "bm_george");
              c_text := None; c_changes := None; c_notes := None;
              c_risks := None; c_next_questions := None |} in
  @listen_step ascii_runtime (command_input c 1 (Ok tt)) s
  = (s, [log_error (py "Unknown command: None")]).
Proof.
  intros s c.
  apply (proj2 (@unknown_command_is_rejected ascii_runtime
                  (command_input c 1 (Ok tt)) s (py "{...}" ++ [10%N]) c
                  eq_refl ltac:(vm_compute; congruence) eq_refl eq_refl)).
  reflexivity.
Defined.

(** X11.  [shutdown] is cooperative and silent: handling it emits no
    event; after it the listener reads no further line, and the audio
    loop, whatever it was recording, makes no further pass. *)
Theorem shutdown_stops_both_loops {rt : PyRuntime} (ce : cmd_env)
  (s : service) (text : pystr) (c : command) :
  line ce = Ok text -> text <> [] -> decoded ce = Decoded c ->
  c_command c = Some (py "shutdown") ->
  should_stop s = false ->
  (forall rest, listen_for_commands (ce :: rest) s = (set_stop s, [], Stopped))
  /\ (forall envs l, while_loop envs (set_stop s) l = (set_stop s, l, [], Stopped)).
Proof.
  intros Hl Ht Hd Hc Hs. split.
  - intros rest. simpl. rewrite Hs.
    unfold listen_step. rewrite Hl, Hd.
    apply truthy_true_iff in Ht. rewrite Ht.
    unfold handle_command. rewrite Hc. cbn.
    destruct rest; reflexivity.
  - intros envs l. destruct envs; reflexivity.
Qed.

Lemma shutdown_stops_both_loops_witness :
  let s := init_service (py "http://localhost:11434") (py "prompt") 0 in
  let stop := command_input (command_named "shutdown") 1 (Ok tt) in
  let mute := command_input (command_named "mute") 2 (Ok tt) in
  @listen_for_commands ascii_runtime [stop; mute] s = (set_stop s, [], Stopped)
  /\ @while_loop ascii_runtime [pass_at 3 loud] (set_stop s) idle
     = (set_stop s, idle, [], Stopped).
Proof.
  intros s stop mute.
  destruct (@shutdown_stops_both_loops ascii_runtime stop s
              (py "{...}" ++ [10%N]) (command_named "shutdown")
              eq_refl ltac:(vm_compute; congruence) eq_refl eq_refl eq_refl)
    as [H1 H2].
  split; [apply H1|apply H2].
Defined.

Section AnnounceFacts.
Context {rt : PyRuntime}.

Lemma handle_announce (ce : cmd_env) (s : service) (c : command) :
  c_command c = Some (py "announce") ->
  let s' := add_conversation_turn (now_announce_turn ce) (py "assistant")
              (announcement_of c)
              (set_context s (conversation_turns s) (now_command ce)) in
  handle_command ce s c
  = (s',
     [debug (py "Announcing: " ++ announcement_of c)]
     ++ speak_text (announce_tts ce) s' (announcement_of c)
     ++ [send_message "jarvis_speaking" [("text"%string, announcement_of c)]]).
Proof.
  intros Hc. cbv zeta. unfold handle_command. rewrite Hc. reflexivity.
Qed.

Lemma last_k_keeps_last (A : Type) (k : nat) (l : list A) (u : A) :
  1 <= k -> In u (last_k k (l ++ [u])).
Proof.
  intros Hk. destruct (@last_k_snoc _ k l u Hk) as (ctx & ->).
  apply in_or_app. right. left. reflexivity.
Qed.

End AnnounceFacts.

Section FollowUp.
Context {rt : PyRuntime}.

(** The message list posted for a turn that is answered: built from the
    history as the inactivity check left it, with the user record
    added. *)
Lemma finalized_turn_post (e : env) (s : service) (l : locals) (t : pystr) :
  finalizes e s l t ->
  t <> [] ->
  contains (py "goodbye") (str_lower t) || contains (py "exit") (str_lower t)
  = false ->
  llm_messages (trace_of (loop_body e s l))
  = [build_messages
       (add_conversation_turn (now_user_turn e) (py "user") t
          (snd (fst (check_context_timeout (now_ctx_check e)
                       (now_ctx_reset e) s)))) t].
Proof.
  intros F Ht Hbye. rewrite (loop_body_final F). cbv zeta.
  destruct (respond_to_turn_cases e
              (snd (fst (check_context_timeout (now_ctx_check e)
                           (now_ctx_reset e) s))) t)
    as [(H & _) | [(_ & H & _) | (_ & _ & H)]]; try congruence.
  cbv zeta in H. rewrite H. unfold trace_of. cbn [fst snd].
  change (?a ++ CallTranscribe ?b :: ?c) with (a ++ [CallTranscribe b] ++ c).
  rewrite !llm_messages_app.
  rewrite (proj2 (check_context_timeout_quiet _ _ _)).
  rewrite (proj2 (generate_fast_response_trace _ _ _)).
  rewrite (proj2 (speak_text_quiet _ _ _)). reflexivity.
Qed.

(** The inactivity check before the timeout has passed. *)
Lemma check_context_timeout_in_time (now now_reset : Q) (s : service) :
  (now - last_activity_time s <= context_timeout s)%Q ->
  check_context_timeout now now_reset s = (PyNone, s, []).
Proof.
  intros H. unfold check_context_timeout.
  destruct (conversation_turns s); [reflexivity|].
  apply Qlt_bool_false in H. rewrite H. reflexivity.
Qed.

Lemma last_k_keeps_last_two (A : Type) (k : nat) (l : list A) (a u : A) :
  2 <= k -> In a (last_k k (l ++ [a; u])).
Proof.
  intros Hk. unfold last_k. rewrite length_app. simpl length.
  rewrite skipn_app.
  replace (length l + 2 - k - length l) with 0 by lia.
  apply in_or_app. right. left. reflexivity.
Qed.

End FollowUp.

(** X12.  An [announce] command stores what it speaks: the announcement
    is added to the history as an assistant record at the time read for
    it, the same text is handed to the TTS and reported in
    [jarvis_speaking], and the report is emitted last even when the TTS
    raises.  When the audio loop then answers a turn before the
    inactivity timeout has passed, with [max_turns] at least 2, the
    message list it posts to the LLM contains that record. *)
Theorem announcement_enters_history {rt : PyRuntime} (ce : cmd_env)
  (s : service) (c : command) :
  c_command c = Some (py "announce") ->
  (1 <= max_turns s)%Z ->
  let a := announcement_of c in
  let s' := fst (handle_command ce s c) in
  let tr := snd (handle_command ce s c) in
  last_activity_time s' = now_announce_turn ce
  /\ (exists older,
        conversation_turns s'
        = older ++ [{| role := py "assistant"; content := a |}])
  /\ hd_error tr = Some (debug (py "Announcing: " ++ a))
  /\ In (CallTTS a (current_voice s)) tr
  /\ last tr (debug []) = send_message "jarvis_speaking" [("text"%string, a)]
  /\ (forall (e : env) (l : locals) (t : pystr),
        finalizes e s' l t ->
        t <> [] ->
        contains (py "goodbye") (str_lower t)
        || contains (py "exit") (str_lower t) = false ->
        (now_ctx_check e - last_activity_time s' <= context_timeout s')%Q ->
        (2 <= max_turns s)%Z ->
        exists ms,
          llm_messages (trace_of (loop_body e s' l)) = [ms]
          /\ In {| role := py "assistant"; content := a |} ms).
Proof.
  intros Hc Hm. cbv zeta. rewrite (@handle_announce _ ce s c Hc). cbv zeta.
  cbn [fst snd].
  set (s' := add_conversation_turn _ _ _ _).
  destruct (@add_conversation_turn_ends (now_announce_turn ce) (py "assistant")
              (announcement_of c)
              (set_context s (conversation_turns s) (now_command ce)) Hm)
    as (older & Hold).
  fold s' in Hold.
  split; [reflexivity|]. split; [exists older; exact Hold|].
  split; [reflexivity|]. split.
  { right. left. reflexivity. }
  split.
  { unfold speak_text. destruct (announce_tts ce); reflexivity. }
  intros e l t F Ht Hbye Hin Hm2. eexists. split.
  - apply (finalized_turn_post F Ht Hbye).
  - rewrite (@check_context_timeout_in_time _ _ s' Hin). cbn [fst snd].
    destruct (@add_two_turns_end (now_announce_turn ce) (now_user_turn e)
                (py "assistant") (announcement_of c) (py "user") t
                (set_context s (conversation_turns s) (now_command ce)) Hm2)
      as (older2 & H2).
    fold s' in H2. unfold build_messages.
    apply in_or_app. right. apply in_or_app. left.
    rewrite H2. apply last_k_keeps_last_two. lia.
Qed.

Lemma announcement_enters_history_witness :
  let s := init_service (py "http://localhost:11434") (py "prompt") 0 in
  let c := announce_command [py "Created app.py"] [] [] in
  let ce := command_input c 5 (Raise (py "no audio device")) in
  let s' := fst (@handle_command ascii_runtime ce s c) in
  let e :=
    {| now_ctx_check := 40; now_ctx_reset := 40; audio_read := Ok quiet;
       now_silence_start := 40; now_silence_check := 40;
       transcribe_result := Ok [py " Which file?"]; now_user_turn := 41;
       llm_result := PostConnectionError;
       now_assistant_turn := 42; tts_result := Ok tt |} in
  last_activity_time s' = 5%Q
  /\ snd (@handle_command ascii_runtime ce s c)
     = [debug (py "Announcing: Task completed. Created app py");
        CallTTS (py "Task completed. Created app py") (py "af_bella");
        log_error (py "TTS failed: no audio device");
        send_message "jarvis_speaking"
          [("text"%string, py "Task completed. Created app py")]]
  /\ exists ms,
       llm_messages
         (trace_of (@loop_body ascii_runtime e s'
                      (recording_with (repeat loud 8) (Some 39%Q)))) = [ms]
       /\ In {| role := py "assistant";
                content := py "Task completed. Created app py" |} ms.
Proof.
  intros s c ce s' e.
  destruct (@announcement_enters_history ascii_runtime ce s c eq_refl
              ltac:(vm_compute; congruence)) as (H1 & _ & _ & _ & _ & H6).
  split; [exact H1|]. split; [vm_compute; reflexivity|].
  apply (H6 e (recording_with (repeat loud 8) (Some 39%Q)) (py "Which file?")).
  - unfold finalizes. repeat split; try (vm_compute; reflexivity).
    exists [py " Which file?"]. split; vm_compute; reflexivity.
  - vm_compute. congruence.
  - vm_compute. reflexivity.
  - vm_compute. congruence.
  - vm_compute. congruence.
Defined.

(** X13.  [change_voice] sets the voice of every later synthesis and
    nothing else: the voice becomes the ["voice"] value, or ["af_bella"]
    when the key is missing; the history, the flags and the last
    activity are untouched; and an announcement handled afterwards is
    spoken with the new voice. *)
Theorem change_voice_affects_later_speech {rt : PyRuntime} (ce1 ce2 : cmd_env)
  (s : service) (c1 c2 : command) :
  c_command c1 = Some (py "change_voice") ->
  c_command c2 = Some (py "announce") ->
  let v := get_default (c_voice c1) (py "af_bella") in
  let s1 := fst (handle_command ce1 s c1) in
  s1 = set_voice s v
  /\ snd (handle_command ce1 s c1) = [debug (py "Voice changed to: " ++ v)]
  /\ In (CallTTS (announcement_of c2) v) (snd (handle_command ce2 s1 c2))
  /\ (forall text tts, hd_error (speak_text tts s1 text) = Some (CallTTS text v)).
Proof.
  intros H1 H2. cbv zeta.
  assert (E : handle_command ce1 s c1
              = (set_voice s (get_default (c_voice c1) (py "af_bella")),
                 [debug (py "Voice changed to: "
                         ++ get_default (c_voice c1) (py "af_bella"))])).
  { unfold handle_command. rewrite H1. reflexivity. }
  rewrite E. cbn [fst snd]. repeat split.
  rewrite (@handle_announce _ ce2 _ c2 H2). cbv zeta. cbn [snd].
  right. left. reflexivity.
Qed.

Lemma change_voice_affects_later_speech_witness :
  let s := init_service (py "http://localhost:11434") (py "prompt") 0 in
  let c1 := {| c_command := Some (py "change_voice");
               c_voice := Some (py "bm_george"); c_text := None;
               c_changes := None; c_notes := None; c_risks := None;
               c_next_questions := None |} in
  let c2 := announce_command [] [] [] in
  let s1 := fst (@handle_command ascii_runtime (command_input c1 1 (Ok tt)) s c1) in
  current_voice s1 = py "bm_george"
  /\ In (CallTTS (@announcement_of ascii_runtime c2) (py "bm_george"))
       (snd (@handle_command ascii_runtime (command_input c2 2 (Ok tt)) s1 c2)).
Proof.
  intros s c1 c2 s1.
  destruct (@change_voice_affects_later_speech ascii_runtime
              (command_input c1 1 (Ok tt)) (command_input c2 2 (Ok tt))
              s c1 c2 eq_refl eq_refl) as (H1 & _ & H3 & _).
  fold s1 in H1, H3. split; [rewrite H1; reflexivity|exact H3].
Defined.

(** X14.  After [reset_context] the history is empty and the last
    activity is the time of the command, also when the command is
    repeated; the inactivity check then does nothing whatever the clock
    reads, and when the audio loop then answers a turn, with [max_turns]
    at least 1, the message list it posts to the LLM holds the system
    prompt and the new user message (twice, as in every post of the
    loop) and no earlier record. *)
Theorem reset_context_clears {rt : PyRuntime} (ce : cmd_env) (s : service)
  (c : command) :
  c_command c = Some (py "reset_context") ->
  let s1 := fst (handle_command ce s c) in
  s1 = set_context s [] (now_command ce)
  /\ (forall ce', fst (handle_command ce' s1 c) = set_context s [] (now_command ce'))
  /\ (forall now now_reset,
        check_context_timeout now now_reset s1 = (PyNone, s1, []))
  /\ (forall (e : env) (l : locals) (t : pystr),
        finalizes e s1 l t ->
        t <> [] ->
        contains (py "goodbye") (str_lower t)
        || contains (py "exit") (str_lower t) = false ->
        (1 <= max_turns s)%Z ->
        llm_messages (trace_of (loop_body e s1 l))
        = [[{| role := py "system"; content := system_prompt s |};
            {| role := py "user"; content := t |};
            {| role := py "user"; content := t |}]]).
Proof.
  intros Hc. cbv zeta.
  assert (E : forall ce0 s0,
            handle_command ce0 s0 c
            = (set_context s0 [] (now_command ce0),
               [debug (py "Conversation context manually reset")])).
  { intros ce0 s0. unfold handle_command. rewrite Hc. reflexivity. }
  rewrite !E. cbn [fst]. repeat split.
  - intros ce'. rewrite E. reflexivity.
  - intros e l t F Ht Hbye Hm.
    rewrite (finalized_turn_post F Ht Hbye).
    rewrite check_context_timeout_empty; [|reflexivity]. cbn [fst snd].
    unfold build_messages.
    rewrite add_conversation_turn_room; [reflexivity|].
    cbn [conversation_turns set_context max_turns length]. lia.
Qed.

Lemma reset_context_clears_witness :
  let s0 := init_service (py "http://localhost:11434") (py "prompt") 0 in
  let s := add_conversation_turn 3 (py "user") (py "Build it") s0 in
  let c := command_named "reset_context" in
  let s1 := fst (@handle_command ascii_runtime (command_input c 7 (Ok tt)) s c) in
  let e :=
    {| now_ctx_check := 40; now_ctx_reset := 40; audio_read := Ok quiet;
       now_silence_start := 40; now_silence_check := 40;
       transcribe_result := Ok [py " Start over."]; now_user_turn := 41;
       llm_result := PostConnectionError;
       now_assistant_turn := 42; tts_result := Ok tt |} in
  conversation_turns s1 = []
  /\ last_activity_time s1 = 7%Q
  /\ check_context_timeout 1000 1000 s1 = (PyNone, s1, [])
  /\ llm_messages
       (trace_of (@loop_body ascii_runtime e s1
                    (recording_with (repeat loud 8) (Some 39%Q))))
     = [[{| role := py "system"; content := py "prompt" |};
         {| role := py "user"; content := py "Start over." |};
         {| role := py "user"; content := py "Start over." |}]].
Proof.
  intros s0 s c s1 e.
  destruct (@reset_context_clears ascii_runtime (command_input c 7 (Ok tt))
              s c eq_refl) as (H1 & _ & H3 & H4).
  fold s1 in H1, H3, H4. split; [rewrite H1; reflexivity|].
  split; [rewrite H1; reflexivity|]. split; [apply H3|].
  apply (H4 e (recording_with (repeat loud 8) (Some 39%Q)) (py "Start over.")).
  - unfold finalizes. repeat split; try (vm_compute; reflexivity).
    exists [py " Start over."]. split; vm_compute; reflexivity.
  - vm_compute. congruence.
  - vm_compute. reflexivity.
  - vm_compute. congruence.
Defined.

(* ===================================================================== *)
(** * Further properties of the response generator *)
(* ===================================================================== *)

Lemma lstrip_idempotent (s : pystr) : lstrip (lstrip s) = lstrip s.
Proof.
  induction s as [|c t IH]; [reflexivity|].
  simpl. destruct (is_space c) eqn:E; [exact IH|].
  simpl. rewrite E. reflexivity.
Qed.

Lemma rstrip_idempotent (s : pystr) : rstrip (rstrip s) = rstrip s.
Proof.
  induction s as [|c t IH]; [reflexivity|].
  simpl. destruct (rstrip t) as [|r0 r] eqn:E.
  - destruct (is_space c) eqn:Ec; [reflexivity|]. simpl. rewrite Ec. reflexivity.
  - simpl. simpl in IH. rewrite IH. reflexivity.
Qed.

Lemma rstrip_lstrip_commute (s : pystr) : rstrip (lstrip s) = lstrip (rstrip s).
Proof.
  induction s as [|c t IH]; [reflexivity|].
  destruct (is_space c) eqn:Ec.
  - rewrite (lstrip_rstrip_cons_space c t Ec). simpl lstrip at 1.
    rewrite Ec. exact IH.
  - clear IH. simpl lstrip at 1. rewrite Ec. simpl rstrip.
    destruct (rstrip t); rewrite ?Ec; simpl; rewrite Ec; reflexivity.
Qed.

Lemma strip_idempotent (s : pystr) : strip (strip s) = strip s.
Proof.
  unfold strip. rewrite rstrip_lstrip_commute, rstrip_idempotent.
  apply lstrip_idempotent.
Qed.

Lemma last_k_suffix (A : Type) (k : nat) (l : list A) :
  l = firstn (length l - k) l ++ last_k k l.
Proof. unfold last_k. symmetry. apply firstn_skipn. Qed.

Lemma last_k_exact_length (A : Type) (k : nat) (l : list A) :
  length (last_k k l) = Nat.min k (length l).
Proof. unfold last_k. rewrite length_skipn. lia. Qed.

(** X15.  Every call of [generate_fast_response] posts exactly one
    message list, whatever becomes of the request: the system prompt,
    then the most recent records of the history in their order (all of
    them up to 8, the last 8 of more), then the user message; so between
    2 and 10 messages. *)
Theorem posted_messages_shape {rt : PyRuntime} (llm : http_result)
  (s : service) (user_input : pystr) :
  let ctx := last_k 8 (conversation_turns s) in
  llm_messages (snd (generate_fast_response llm s user_input))
  = [{| role := py "system"; content := system_prompt s |}
     :: ctx ++ [{| role := py "user"; content := user_input |}]]
  /\ length ctx = Nat.min 8 (length (conversation_turns s))
  /\ conversation_turns s
     = firstn (length (conversation_turns s) - 8) (conversation_turns s) ++ ctx.
Proof.
  cbv zeta. split; [|split].
  - apply generate_fast_response_trace.
  - apply last_k_exact_length.
  - apply last_k_suffix.
Qed.

Section ParserFacts.
Context {rt : PyRuntime}.

Lemma parse_dual_output_trimmed (s : pystr) :
  strip (fst (_parse_dual_output s)) = fst (_parse_dual_output s)
  /\ strip (snd (_parse_dual_output s)) = snd (_parse_dual_output s).
Proof.
  unfold _parse_dual_output.
  destruct (search answer_re s) as [ma|]; destruct (search instruction_re s) as [mi|];
    cbn [fst snd];
    repeat match goal with
           | |- context [if ?b then _ else _] => destruct b
           end;
    split; try apply strip_idempotent; reflexivity.
Qed.

Lemma parse_dual_output_blank (s : pystr) :
  _parse_dual_output s = ([], []) -> strip s = [].
Proof.
  unfold _parse_dual_output.
  set (a := match search answer_re s with Some m => strip (group 1 m) | None => [] end).
  set (i := match search instruction_re s with Some m => strip (group 1 m) | None => [] end).
  destruct a as [|a0 a']; destruct i as [|i0 i']; cbn [truthy negb andb];
    intros H; congruence.
Qed.

End ParserFacts.

(** X16.  The parser returns trimmed texts, and it returns an empty
    answer together with an empty instruction only for blank content:
    content that holds anything but whitespace always gives an answer or
    an instruction. *)
Theorem parser_output_trimmed_and_not_lost {rt : PyRuntime} (content : pystr) :
  strip (fst (_parse_dual_output content)) = fst (_parse_dual_output content)
  /\ strip (snd (_parse_dual_output content)) = snd (_parse_dual_output content)
  /\ (_parse_dual_output content = ([], []) -> strip content = []).
Proof.
  destruct (parse_dual_output_trimmed content) as [H1 H2].
  repeat split; try assumption. apply parse_dual_output_blank.
Qed.

Lemma parser_output_trimmed_and_not_lost_witness :
  strip (py "  " ++ [10%N]) = [].
Proof.
  apply (proj2 (proj2 (@parser_output_trimmed_and_not_lost ascii_runtime
                         (py "  " ++ [10%N])))).
  vm_compute. reflexivity.
Defined.

(** X17.  An instruction is signalled to the parent process only for a
    200 response with content that is not blank; at most one is
    signalled per call; it is the instruction the parser found in the
    trimmed content, it is not empty and it is trimmed.  No failure
    path signals an instruction. *)
Theorem instruction_signalled_only_on_success {rt : PyRuntime}
  (llm : http_result) (s : service) (user_input : pystr) :
  let signalled :=
    instructions_signalled (snd (generate_fast_response llm s user_input)) in
  signalled = []
  \/ exists raw,
       llm = Response 200 (Ok raw)
       /\ strip raw <> []
       /\ signalled = [snd (_parse_dual_output (strip raw))]
       /\ snd (_parse_dual_output (strip raw)) <> []
       /\ strip (snd (_parse_dual_output (strip raw)))
          = snd (_parse_dual_output (strip raw)).
Proof.
  cbv zeta. unfold generate_fast_response.
  destruct llm as [| |msg|status_code body]; try (left; reflexivity).
  destruct (status_code =? 200)%Z eqn:Est; [|left; reflexivity].
  apply Z.eqb_eq in Est. subst status_code.
  destruct body as [raw|msg]; [|left; reflexivity].
  destruct (truthy (strip raw)) eqn:Et; [|left; reflexivity].
  simpl negb. cbv iota.
  pose proof (parse_dual_output_trimmed (strip raw)) as [_ Htrim].
  destruct (_parse_dual_output (strip raw))
    as [answer_text instruction_text] eqn:Ep.
  cbn [fst snd] in *.
  destruct (truthy instruction_text) eqn:Ei; [|left; reflexivity].
  right. exists raw. rewrite Ep. cbn [fst snd].
  split; [reflexivity|].
  split; [apply truthy_true_iff; exact Et|].
  split; [reflexivity|].
  split; [apply truthy_true_iff; exact Ei|exact Htrim].
Qed.

(** X18.  The fallback responder answers with one of four fixed
    replies, and its keywords are matched as substrings of the
    lowercased input: an input whose lowercased form has [hi] anywhere
    in it, inside a word too, is greeted with "Hello!" whatever else it
    contains. *)
Theorem fallback_replies_are_fixed {rt : PyRuntime} (user_input : pystr) :
  In (_fallback_response user_input) fallback_replies
  /\ (forall before after,
        str_lower user_input = before ++ py "hi" ++ after ->
        _fallback_response user_input = py "Hello!").
Proof.
  split.
  - unfold _fallback_response, fallback_replies.
    destruct (existsb _ _); [left; reflexivity|].
    destruct (existsb _ _); [right; left; reflexivity|].
    destruct (contains _ _); [right; right; left; reflexivity|].
    right; right; right; left; reflexivity.
  - intros before after H. unfold _fallback_response. rewrite H.
    assert (Hc : contains (py "hi") (before ++ py "hi" ++ after) = true).
    { clear H. induction before as [|b before IH].
      - reflexivity.
      - change (contains (py "hi") ((b :: before) ++ py "hi" ++ after))
          with (starts_with (py "hi") ((b :: before) ++ py "hi" ++ after)
                || contains (py "hi") (before ++ py "hi" ++ after)).
        rewrite IH. apply orb_true_r. }
    cbn [existsb]. rewrite Hc. rewrite orb_true_r. reflexivity.
Qed.

Lemma fallback_replies_are_fixed_witness :
  @_fallback_response ascii_runtime (py "Is THIS broken?") = py "Hello!".
Proof.
  apply (proj2 (@fallback_replies_are_fixed ascii_runtime (py "Is THIS broken?"))
           (py "is t") (py "s broken?")).
  vm_compute. reflexivity.
Defined.

(* ===================================================================== *)
(** * The energy of a chunk *)
(* ===================================================================== *)

Lemma abs_sum_bounds (chunk : frame) :
  Forall (fun x => (-32767 <= x <= 32767)%Z) chunk ->
  (0 <= fold_right Z.add 0 (List.map abs_int16 chunk)
   <= 32767 * Z.of_nat (length chunk))%Z.
Proof.
  induction 1 as [|x chunk Hx _ IH]; [simpl; lia|].
  cbn [List.map fold_right length]. cbv beta in Hx.
  set (rest := fold_right Z.add 0%Z (List.map abs_int16 chunk)) in *.
  unfold abs_int16. destruct (Z.eqb_spec x (-32768)); lia.
Qed.

Lemma abs_sum_full_scale (n : nat) :
  fold_right Z.add 0%Z (List.map abs_int16 (repeat (-32768)%Z n))
  = (-32768 * Z.of_nat n)%Z.
Proof.
  induction n as [|n IH]; [reflexivity|].
  cbn [repeat List.map fold_right]. rewrite IH.
  change (abs_int16 (-32768)) with (-32768)%Z. lia.
Qed.

(** X19.  For a chunk that is not empty and has no sample at the
    negative full scale, the energy lies between 0 and 32767.  At the
    negative full scale the absolute value wraps: a chunk whose samples
    are all -32768 has a negative energy and is classified as silence. *)
Theorem energy_range_and_wrap :
  (forall chunk : frame,
     chunk <> [] ->
     Forall (fun x => (-32767 <= x <= 32767)%Z) chunk ->
     (0 <= calculate_energy chunk)%Q /\ (calculate_energy chunk <= 32767)%Q)
  /\ (forall n : nat,
        (calculate_energy (repeat (-32768)%Z (S n)) <= - (32768))%Q
        /\ Qlt_bool SILENCE_THRESHOLD
             (calculate_energy (repeat (-32768)%Z (S n))) = false).
Proof.
  split.
  - intros chunk Hne Hall.
    pose proof (abs_sum_bounds Hall) as [Hlo Hhi].
    assert (Hn : (0 < Z.of_nat (length chunk))%Z)
      by (destruct chunk; [congruence|simpl; lia]).
    assert (HnQ : (0 < inject_Z (Z.of_nat (length chunk)))%Q).
    { change 0%Q with (inject_Z 0). rewrite <- Zlt_Qlt. exact Hn. }
    unfold calculate_energy. split.
    + apply Qle_shift_div_l; [exact HnQ|].
      rewrite Qmult_0_l. change 0%Q with (inject_Z 0).
      rewrite <- Zle_Qle. exact Hlo.
    + apply Qle_shift_div_r; [exact HnQ|].
      change 32767%Q with (inject_Z 32767).
      rewrite <- inject_Z_mult, <- Zle_Qle. exact Hhi.
  - intros n.
    assert (HnQ : (0 < inject_Z (Z.of_nat (length (repeat (-32768)%Z (S n)))))%Q).
    { change 0%Q with (inject_Z 0). rewrite <- Zlt_Qlt.
      rewrite repeat_length. lia. }
    assert (Hle : (calculate_energy (repeat (-32768)%Z (S n)) <= - (32768))%Q).
    { unfold calculate_energy. apply Qle_shift_div_r; [exact HnQ|].
      rewrite abs_sum_full_scale, repeat_length.
      change (- (32768))%Q with (inject_Z (-32768)).
      rewrite <- inject_Z_mult, <- Zle_Qle. lia. }
    split; [exact Hle|].
    apply Qlt_bool_false. unfold SILENCE_THRESHOLD.
    eapply Qle_trans; [exact Hle|]. discriminate.
Qed.

Lemma energy_range_and_wrap_witness :
  (0 <= calculate_energy [120; (-300); 32767; (-32767)]%Z)%Q
  /\ (calculate_energy [120; (-300); 32767; (-32767)]%Z <= 32767)%Q.
Proof.
  apply (proj1 energy_range_and_wrap).
  - discriminate.
  - repeat constructor; lia.
Defined.

(* ===================================================================== *)
(** * The text handed to the synthesizer *)
(* ===================================================================== *)

Section FormatFacts.
Context {rt : PyRuntime}.

Lemma lit_ignorecase_dot (x : N) : lit_ignorecase 46 x = true -> x = 46%N.
Proof.
  unfold lit_ignorecase. change (ascii_lower 46) with 46%N.
  rewrite !orb_true_iff, !andb_true_iff, !N.eqb_eq.
  intros [[H | [H _]] | [H _]]; try discriminate H.
  unfold sre_lower in H.
  destruct ((65 <=? x) && (x <=? 90))%N eqn:E1.
  { apply andb_true_iff in E1. destruct E1 as [E1 _].
    apply N.leb_le in E1. lia. }
  destruct (x =? 304)%N; [discriminate|].
  destruct (x =? 8490)%N; [discriminate|]. exact H.
Qed.

Lemma marker_needs_dot (w : pystr) : forall rest : pystr,
  existsb (N.eqb 46) w = true -> ~ In 46%N rest -> marker_here w rest = false.
Proof.
  induction w as [|p w IH]; intros rest Hw Hr; [discriminate|].
  destruct rest as [|x xs]; [reflexivity|].
  cbn [marker_here]. cbn [existsb] in Hw.
  destruct (N.eqb_spec 46 p) as [<- | _].
  - destruct (lit_ignorecase 46 x) eqn:E; [|reflexivity].
    apply lit_ignorecase_dot in E. exfalso. apply Hr. left. auto.
  - rewrite IH; [apply andb_false_r|exact Hw|].
    intros Hin. apply Hr. right. exact Hin.
Qed.

Lemma abbreviation_needs_dot (w : pystr) :
  existsb (N.eqb 46) w = true -> needs_dot (Cat Bow (lit_i w)).
Proof.
  intros Hw bef rest Hr. unfold match_at. cbn [rmatch].
  destruct (xorb (word_at bef) (word_at rest)); [|reflexivity].
  rewrite rmatch_lit_i, marker_needs_dot; auto.
Qed.

Lemma sub_loop_needs_dot (r : re) (repl : caps -> pystr) :
  needs_dot r ->
  forall (fuel : nat) (rest bef out : pystr),
    ~ In 46%N rest -> sub_loop fuel r repl bef rest out = out ++ rest.
Proof.
  intros Hr. induction fuel as [|f IH]; intros rest bef out Hd; [reflexivity|].
  cbn [sub_loop]. rewrite (Hr bef rest Hd).
  destruct rest as [|x xs]; [rewrite app_nil_r; reflexivity|].
  rewrite IH; [rewrite <- app_assoc; reflexivity|].
  intros Hin. apply Hd. right. exact Hin.
Qed.

Lemma sub_needs_dot (r : re) (repl : caps -> pystr) (text : pystr) :
  needs_dot r -> ~ In 46%N text -> sub r repl text = text.
Proof.
  intros Hr Hd. unfold sub. rewrite sub_loop_needs_dot; auto.
Qed.

Lemma replacements_need_dot :
  Forall (fun p : re * pystr => needs_dot (fst p)) replacements.
Proof.
  unfold replacements. cbn [List.map].
  repeat (apply Forall_cons;
          [apply abbreviation_needs_dot; reflexivity|]).
  apply Forall_nil.
Qed.

Lemma abbrev_patterns_need_dot :
  Forall (fun p : re * (caps -> pystr) => needs_dot (fst p)) abbrev_patterns.
Proof.
  unfold abbrev_patterns.
  repeat apply Forall_cons; [| |apply Forall_nil];
    intros bef rest Hd; unfold match_at; cbn [fst rmatch plus in_class];
    (destruct rest as [|x [|y ys]]; [reflexivity| |]);
    (destruct (is_word x); [|reflexivity]); [reflexivity| |reflexivity|];
    (destruct (N.eqb_spec 46 y) as [<- | _]; [|reflexivity]);
    exfalso; apply Hd; right; left; reflexivity.
Qed.

Lemma lstrip_shorter (s : pystr) : (length (lstrip s) <= length s)%nat.
Proof.
  induction s as [|c t IH]; [apply Nat.le_refl|].
  simpl. destruct (is_space c); simpl; lia.
Qed.

Lemma squeeze_nonspace (x : N) (t : pystr) :
  is_space x = false -> squeeze (x :: t) = x :: squeeze t.
Proof. intros H. cbn [squeeze]. rewrite H. reflexivity. Qed.

Lemma squeeze_space_end (x : N) :
  is_space x = true -> squeeze [x] = [32%N].
Proof. intros H. cbn [squeeze]. rewrite H. reflexivity. Qed.

Lemma squeeze_space_space (x y : N) (t : pystr) :
  is_space x = true -> is_space y = true ->
  squeeze (x :: y :: t) = squeeze (y :: t).
Proof.
  intros Hx Hy.
  change (squeeze (x :: y :: t))
    with (if is_space x
          then if is_space y then squeeze (y :: t) else 32%N :: squeeze (y :: t)
          else x :: squeeze (y :: t)).
  rewrite Hx, Hy. reflexivity.
Qed.

Lemma squeeze_space_nonspace (x y : N) (t : pystr) :
  is_space x = true -> is_space y = false ->
  squeeze (x :: y :: t) = 32%N :: y :: squeeze t.
Proof.
  intros Hx Hy.
  change (squeeze (x :: y :: t))
    with (if is_space x
          then if is_space y then squeeze (y :: t) else 32%N :: squeeze (y :: t)
          else x :: squeeze (y :: t)).
  rewrite Hx, Hy, (@squeeze_nonspace y t Hy). reflexivity.
Qed.

Lemma squeeze_space (xs : pystr) : forall x : N,
  is_space x = true -> squeeze (x :: xs) = 32%N :: squeeze (lstrip xs).
Proof.
  induction xs as [|y ys IH]; intros x Hx.
  - apply squeeze_space_end. exact Hx.
  - cbn [lstrip]. destruct (is_space y) eqn:Hy.
    + rewrite (@squeeze_space_space x y ys Hx Hy). apply IH. exact Hy.
    + rewrite (@squeeze_space_nonspace x y ys Hx Hy), (@squeeze_nonspace y ys Hy).
      reflexivity.
Qed.

(** [\s+] at the cursor: fails unless a whitespace character is next,
    and then takes the whole run. *)
Lemma spaces_at_cursor (bef : pystr) (x : N) (xs : pystr) :
  is_space x = true ->
  exists ws, match_at (plus CSpace) bef (x :: xs)
             = Some (rev ws ++ x :: bef, lstrip xs, []).
Proof.
  intros Hx. unfold match_at, plus. cbn [rmatch in_class]. rewrite Hx.
  destruct (@greedy_space_total rt (fun b r => accept b r [])) with
    (rest := xs) (bef := x :: bef) as (ws & E & _).
  { intros b r. discriminate. }
  exists ws. exact E.
Qed.

Lemma sub_loop_spaces : forall (fuel : nat) (rest bef out : pystr),
  (length rest < fuel)%nat ->
  sub_loop fuel (plus CSpace) (fun _ => [32%N]) bef rest out
  = out ++ squeeze rest.
Proof.
  induction fuel as [|f IH]; intros rest bef out Hf; [lia|].
  cbn [sub_loop]. destruct rest as [|x xs].
  - unfold match_at, plus. cbn [rmatch]. rewrite app_nil_r. reflexivity.
  - cbn [length] in Hf. destruct (is_space x) eqn:Hx.
    + destruct (@spaces_at_cursor bef x xs Hx) as (ws & ->).
      replace (Nat.eqb (length (rev ws ++ x :: bef)) (length bef)) with false.
      2:{ symmetry. apply Nat.eqb_neq. rewrite length_app. cbn [length]. lia. }
      rewrite IH.
      * rewrite (@squeeze_space xs x Hx), <- app_assoc. reflexivity.
      * pose proof (lstrip_shorter xs). lia.
    + unfold match_at, plus. cbn [rmatch in_class]. rewrite Hx.
      rewrite IH; [|lia].
      rewrite (@squeeze_nonspace x xs Hx), <- app_assoc. reflexivity.
Qed.

Lemma sub_spaces (text : pystr) :
  sub (plus CSpace) (fun _ => py " ") text = squeeze text.
Proof.
  unfold sub. change (py " ") with [32%N].
  rewrite sub_loop_spaces; [reflexivity|lia].
Qed.

Lemma squeeze_single_spaced (u : pystr) : single_spaced (squeeze u) = true.
Proof.
  induction u as [|x t IH]; [reflexivity|].
  destruct (is_space x) eqn:Hx.
  - destruct t as [|y t'].
    + rewrite (@squeeze_space_end x Hx). reflexivity.
    + destruct (is_space y) eqn:Hy.
      * rewrite (@squeeze_space_space x y t' Hx Hy). exact IH.
      * rewrite (@squeeze_space_nonspace x y t' Hx Hy).
        rewrite (@squeeze_nonspace y t' Hy) in IH.
        change (single_spaced (32%N :: y :: squeeze t'))
          with ((negb (is_space 32) || (32 =? 32)%N)
                && negb (is_space 32 && is_space y)
                && single_spaced (y :: squeeze t')).
        rewrite Hy, IH. reflexivity.
  - rewrite (@squeeze_nonspace x t Hx).
    change (single_spaced (x :: squeeze t))
      with ((negb (is_space x) || (x =? 32)%N)
            && match squeeze t with
               | y :: _ => negb (is_space x && is_space y)
               | [] => true
               end
            && single_spaced (squeeze t)).
    rewrite Hx, IH. destruct (squeeze t); reflexivity.
Qed.

Lemma single_spaced_tail (x : N) (t : pystr) :
  single_spaced (x :: t) = true -> single_spaced t = true.
Proof.
  change (single_spaced (x :: t))
    with ((negb (is_space x) || (x =? 32)%N)
          && match t with
             | y :: _ => negb (is_space x && is_space y)
             | [] => true
             end
          && single_spaced t).
  intros H. apply andb_true_iff in H. apply H.
Qed.

Lemma single_spaced_lstrip (s : pystr) :
  single_spaced s = true -> single_spaced (lstrip s) = true.
Proof.
  induction s as [|c t IH]; intros H; [reflexivity|].
  cbn [lstrip]. destruct (is_space c); [|exact H].
  apply IH. exact (@single_spaced_tail _ _ H).
Qed.

Lemma rstrip_head (t : pystr) (r0 : N) (r : pystr) :
  rstrip t = r0 :: r -> exists t', t = r0 :: t'.
Proof.
  destruct t as [|c t]; [discriminate|].
  cbn [rstrip]. destruct (rstrip t); [destruct (is_space c)|];
    intros H; inversion H; subst; eauto.
Qed.

Lemma single_spaced_rstrip (s : pystr) :
  single_spaced s = true -> single_spaced (rstrip s) = true.
Proof.
  induction s as [|c t IH]; intros H; [reflexivity|].
  cbn [rstrip]. destruct (rstrip t) as [|r0 r] eqn:E.
  - destruct (is_space c) eqn:Hc; [reflexivity|].
    cbn [single_spaced]. rewrite Hc. reflexivity.
  - destruct (@rstrip_head _ _ _ E) as [t' ->].
    specialize (IH (@single_spaced_tail _ _ H)).
    change (single_spaced (c :: r0 :: t'))
      with ((negb (is_space c) || (c =? 32)%N)
            && negb (is_space c && is_space r0)
            && single_spaced (r0 :: t')) in H.
    change (single_spaced (c :: r0 :: r))
      with ((negb (is_space c) || (c =? 32)%N)
            && negb (is_space c && is_space r0)
            && single_spaced (r0 :: r)).
    apply andb_true_iff in H. destruct H as [H _].
    rewrite H, IH. reflexivity.
Qed.

Lemma lstrip_starts_clean (s : pystr) : starts_clean (lstrip s) = true.
Proof.
  induction s as [|c t IH]; [reflexivity|].
  cbn [lstrip]. destruct (is_space c) eqn:Hc; [exact IH|].
  cbn [starts_clean]. rewrite Hc. reflexivity.
Qed.

Lemma rstrip_ends_clean (s : pystr) : ends_clean (rstrip s) = true.
Proof.
  induction s as [|c t IH]; [reflexivity|].
  cbn [rstrip]. destruct (rstrip t) as [|r0 r] eqn:E.
  - destruct (is_space c) eqn:Hc; [reflexivity|].
    cbn [ends_clean last]. rewrite Hc. reflexivity.
  - exact IH.
Qed.

(** X20.  A text without a full stop is changed in its whitespace only:
    each run of whitespace becomes one space and the ends are trimmed.
    No abbreviation is expanded and nothing else is rewritten. *)
Theorem text_without_full_stop_only_respaced (text : pystr) :
  ~ In 46%N text -> _format_for_tts text = strip (squeeze text).
Proof.
  intros Hd. unfold _format_for_tts.
  assert (H1 : forall l : list (re * pystr),
             Forall (fun p => needs_dot (fst p)) l ->
             fold_left (fun t '(pattern, replacement) =>
                          sub pattern (fun _ => replacement) t) l text = text).
  { induction 1 as [|[r w] l Hr _ IH]; [reflexivity|].
    cbn [fold_left]. rewrite (@sub_needs_dot _ _ _ Hr Hd). exact IH. }
  rewrite (H1 _ replacements_need_dot).
  assert (H2 : forall l : list (re * (caps -> pystr)),
             Forall (fun p => needs_dot (fst p)) l ->
             fold_left (fun t '(pattern, replacement) =>
                          sub pattern replacement t) l text = text).
  { induction 1 as [|[r w] l Hr _ IH]; [reflexivity|].
    cbn [fold_left]. rewrite (@sub_needs_dot _ _ _ Hr Hd). exact IH. }
  rewrite (H2 _ abbrev_patterns_need_dot), sub_spaces. reflexivity.
Qed.

(** X21.  Whatever the reply, the text handed to the synthesizer has no
    whitespace character other than the space, no two spaces in a row,
    and no space at either end. *)
Theorem spoken_text_is_single_spaced (text : pystr) :
  single_spaced (_format_for_tts text) = true
  /\ starts_clean (_format_for_tts text) = true
  /\ ends_clean (_format_for_tts text) = true.
Proof.
  unfold _format_for_tts. cbv zeta. rewrite sub_spaces.
  set (u := fold_left _ _ text).
  split; [|split].
  - unfold strip. apply single_spaced_lstrip, single_spaced_rstrip.
    apply squeeze_single_spaced.
  - unfold strip. apply lstrip_starts_clean.
  - unfold strip. rewrite <- rstrip_lstrip_commute. apply rstrip_ends_clean.
Qed.

End FormatFacts.

Lemma text_without_full_stop_only_respaced_witness :
  @_format_for_tts ascii_runtime (py "  Dr Who   vs" ++ [9%N; 10%N] ++ py "etc ")
  = py "Dr Who vs etc".
Proof.
  rewrite (@text_without_full_stop_only_respaced ascii_runtime).
  - vm_compute. reflexivity.
  - vm_compute. intuition discriminate.
Defined.

(* ===================================================================== *)
(** * Starting and shutting down *)
(* ===================================================================== *)

Section StartFacts.
Context {rt : PyRuntime}.


(** [initialize_components] stopped by an exception at step [st]. *)
Lemma initialize_components_raises (call : init_step -> outcome)
  (st : init_step) (msg : pystr) :
  (forall st', step_index st' < step_index st -> call st' = Returns) ->
  call st = Raises msg ->
  initialize_components call no_components
  = (Raises msg, loaded_before st,
     firstn (S (step_index st)) status_lines
     ++ [log_error (py "Failed to initialize components: " ++ msg)]).
Proof.
  intros Hb Hr. unfold initialize_components.
  destruct st; cbn [step_index] in Hb;
    rewrite ?(Hb LoadWhisper), ?(Hb LoadKokoro), ?(Hb Prewarm)
      by (cbn; lia);
    rewrite Hr; reflexivity.
Qed.

(** X22.  When a step of [initialize_components] raises an exception,
    [start] lets that exception through after the clean-up: the parent
    is sent the status lines up to the failing step, one error with the
    message, and [shutdown_complete]; the components loaded before the
    failing step stay assigned and no other is; the audio stream is not
    opened, [ready] is not sent, and no pass of the loop runs, so that
    the fields the loop works on are untouched.  This holds whatever
    the later calls would have come to, unless an interrupt arrives
    during the clean-up. *)
Theorem failed_initialisation_shuts_down (call : init_step -> outcome)
  (open close : outcome) (envs : list env)
  (cut : option (service * list effect)) (s : service)
  (st : init_step) (msg : pystr) :
  (forall st', step_index st' < step_index st -> call st' = Returns) ->
  call st = Raises msg ->
  close <> Interrupted ->
  start call open envs cut close s
  = (Raised msg, s, loaded_before st,
     firstn (S (step_index st)) status_lines
     ++ [log_error (py "Failed to initialize components: " ++ msg);
         send_message "shutdown_complete" []]).
Proof.
  intros Hb Hr Hc. unfold start.
  rewrite (initialize_components_raises call st Hb Hr).
  unfold finally_cleanup, cleanup.
  replace (audio_stream (loaded_before st) || pyaudio_instance (loaded_before st))
    with false by reflexivity.
  destruct close as [|mc|]; [| |congruence];
    rewrite <- app_assoc; reflexivity.
Qed.






End StartFacts.

Lemma failed_initialisation_shuts_down_witness :
  let s := init_service (py "http://localhost:11434") (py "prompt") 0 in
  let call :=
    fun st => match st with
              | Prewarm => Raises (py "no voice")
              | _ => Returns
              end in
  @start ascii_runtime call Returns [] None (Raises (py "busy")) s
  = (Raised (py "no voice"), s,
     {| whisper_model := true; kokoro_tts := true;
        pyaudio_instance := false; audio_stream := false |},
     [status (py "Loading Whisper STT...");
      status (py "Loading Kokoro TTS with GPU...");
      status (py "Pre-warming TTS...");
      log_error (py "Failed to initialize components: no voice");
      send_message "shutdown_complete" []]).
Proof.
  intros s call.
  rewrite (@failed_initialisation_shuts_down ascii_runtime call Returns
             (Raises (py "busy")) [] None s Prewarm (py "no voice")).
  - reflexivity.
  - intros [| | |]; cbn; intros H; try reflexivity; lia.
  - reflexivity.
  - discriminate.
Defined.

(* ===================================================================== *)
(** * The parser on a reply with an answer marker *)
(* ===================================================================== *)

Section AnswerPattern.
Context {rt : PyRuntime}.

Lemma lit_ignorecase_symbol (p x : N) :
  (p < 65 \/ 90 < p < 97)%N -> lit_ignorecase p x = true -> x = p.
Proof.
  intros Hp. unfold lit_ignorecase, ascii_lower.
  destruct ((65 <=? p) && (p <=? 90))%N eqn:E.
  { apply andb_true_iff in E. destruct E as [E1 E2].
    apply N.leb_le in E1. apply N.leb_le in E2. lia. }
  rewrite !orb_true_iff, !andb_true_iff, !N.eqb_eq.
  intros [[H | [H _]] | [H _]]; try lia.
  unfold sre_lower in H.
  destruct ((65 <=? x) && (x <=? 90))%N eqn:E1.
  { apply andb_true_iff in E1. destruct E1 as [E1 E2].
    apply N.leb_le in E1. apply N.leb_le in E2. lia. }
  destruct (x =? 304)%N; [lia|].
  destruct (x =? 8490)%N; [lia|]. exact H.
Qed.

(** The lookahead of [answer_re] at the cursor. *)
Lemma look_step (b r : pystr) (cs : caps) :
  rmatch (Look (Alt (lit_i INSTRUCTION) Eos)) accept b r cs
  = if marker_here INSTRUCTION r then Some (b, r, cs)
    else match r with
         | [] => Some (b, r, cs)
         | [c] => if (c =? 10)%N then Some (b, r, cs) else None
         | _ => None
         end.
Proof.
  cbn [rmatch]. rewrite rmatch_lit_i.
  destruct (marker_here INSTRUCTION r); [reflexivity|].
  destruct r as [|c [|d r]]; cbn; try reflexivity.
  destruct (c =? 10)%N; reflexivity.
Qed.

(** The lazy group followed by the lookahead always succeeds; it stops
    at the first instruction marker, or else at the end of the text or
    just before a final newline. *)
Lemma lazy_group_look (b0 : pystr) (cs : caps) : forall (r acc : pystr),
  exists g tl,
    rep_lazy CDot
      (fun b' r' =>
         rmatch (Look (Alt (lit_i INSTRUCTION) Eos)) accept b' r'
           ((1, rev (firstn (length b' - length b0) b')) :: cs))
      (rev acc ++ b0) r
    = Some (rev g ++ b0, tl, (1, g) :: cs)
    /\ acc ++ r = g ++ tl
    /\ match find_marker INSTRUCTION r with
       | Some j => g = acc ++ firstn j r
       | None => tl = [] \/ tl = [10%N]
       end.
Proof.
  induction r as [|x xs IH]; intros acc.
  - exists acc, []. cbn [rep_lazy]. rewrite look_step.
    change (marker_here INSTRUCTION []) with false. cbv iota.
    rewrite firstn_consumed, app_nil_r.
    split; [reflexivity|]. split; [reflexivity|].
    change (find_marker INSTRUCTION []) with (@None nat). left. reflexivity.
  - assert (Hstep :
      exists g tl,
        rep_lazy CDot
          (fun b' r' =>
             rmatch (Look (Alt (lit_i INSTRUCTION) Eos)) accept b' r'
               ((1, rev (firstn (length b' - length b0) b')) :: cs))
          (x :: rev acc ++ b0) xs
        = Some (rev g ++ b0, tl, (1, g) :: cs)
        /\ acc ++ x :: xs = g ++ tl
        /\ match find_marker INSTRUCTION xs with
           | Some j => g = acc ++ x :: firstn j xs
           | None => tl = [] \/ tl = [10%N]
           end).
    { destruct (IH (acc ++ [x])) as (g & tl & E & A & T).
      exists g, tl. rewrite rev_unit in E. simpl in E.
      rewrite <- app_assoc in A. simpl in A.
      split; [exact E|]. split; [exact A|].
      destruct (find_marker INSTRUCTION xs); [|exact T].
      rewrite <- app_assoc in T. exact T. }
    cbn [rep_lazy]. rewrite look_step.
    cbn [find_marker].
    destruct (marker_here INSTRUCTION (x :: xs)) eqn:M.
    + exists acc, (x :: xs). rewrite firstn_consumed.
      split; [reflexivity|]. split; [reflexivity|].
      cbn [firstn]. rewrite app_nil_r. reflexivity.
    + assert (Hgo :
        exists g tl,
          rep_lazy CDot
            (fun b' r' =>
               rmatch (Look (Alt (lit_i INSTRUCTION) Eos)) accept b' r'
                 ((1, rev (firstn (length b' - length b0) b')) :: cs))
            (x :: rev acc ++ b0) xs
          = Some (rev g ++ b0, tl, (1, g) :: cs)
          /\ acc ++ x :: xs = g ++ tl
          /\ match option_map S (find_marker INSTRUCTION xs) with
             | Some j => g = acc ++ firstn j (x :: xs)
             | None => tl = [] \/ tl = [10%N]
             end).
      { destruct Hstep as (g & tl & E & A & T). exists g, tl.
        split; [exact E|]. split; [exact A|].
        destruct (find_marker INSTRUCTION xs); exact T. }
      destruct xs as [|y ys].
      * destruct (x =? 10)%N eqn:E10.
        -- apply N.eqb_eq in E10. subst x.
           exists acc, [10%N]. rewrite firstn_consumed.
           split; [reflexivity|]. split; [reflexivity|].
           change (find_marker INSTRUCTION []) with (@None nat).
           right. reflexivity.
        -- cbn [in_class]. exact Hgo.
      * cbn [in_class]. exact Hgo.
Qed.

Lemma answer_tail_matches (b t : pystr) :
  exists m, rmatch answer_tail accept b t [] = Some m
            /\ strip (group 1 m) = strip (before_marker INSTRUCTION (lstrip t)).
Proof.
  unfold answer_tail. cbn [rmatch].
  set (K := fun b0 r0 =>
              rep_lazy CDot
                (fun b' r' =>
                   rmatch (Look (Alt (lit_i INSTRUCTION) Eos)) accept b' r'
                     ((1, rev (firstn (length b' - length b0) b')) :: []))
                b0 r0).
  assert (HK : forall b0 r0, exists g tl,
             K b0 r0 = Some (rev g ++ b0, tl, [(1, g)])
             /\ r0 = g ++ tl
             /\ match find_marker INSTRUCTION r0 with
                | Some j => g = firstn j r0
                | None => tl = [] \/ tl = [10%N]
                end).
  { intros b0 r0. destruct (lazy_group_look b0 [] r0 []) as (g & tl & E & A & T).
    exists g, tl. simpl in E. auto. }
  destruct (greedy_space_total K) with (rest := t) (bef := b) as (ws & E & A).
  { intros b0 r0 H. destruct (HK b0 r0) as (g & tl & E & _). congruence. }
  destruct (HK (rev ws ++ b) (lstrip t)) as (g & tl & Eg & Ag & T).
  exists (rev g ++ rev ws ++ b, tl, [(1, g)]). split.
  - change (rep_greedy CSpace K b t = Some (rev g ++ rev ws ++ b, tl, [(1, g)])).
    rewrite E. exact Eg.
  - unfold group. cbn [snd lookup_group Nat.eqb]. unfold before_marker.
    destruct (find_marker INSTRUCTION (lstrip t)) as [j|].
    + rewrite T. reflexivity.
    + rewrite Ag. symmetry. apply strip_app_tail. exact T.
Qed.

Lemma answer_tail_total (b t : pystr) : rmatch answer_tail accept b t [] <> None.
Proof.
  destruct (answer_tail_matches b t) as (m & E & _). congruence.
Qed.

(** Leading whitespace does not change what is taken before the marker. *)
Lemma before_marker_lstrip (t : pystr) :
  strip (before_marker INSTRUCTION (lstrip t))
  = strip (before_marker INSTRUCTION t).
Proof.
  induction t as [|c t IH]; [reflexivity|].
  cbn [lstrip]. destruct (is_space c) eqn:Hc; [|reflexivity].
  rewrite IH.
  assert (M : marker_here INSTRUCTION (c :: t) = false).
  { change (marker_here INSTRUCTION (c :: t))
      with (lit_ignorecase 91 c && marker_here (py "INSTRUCTION]") t).
    destruct (lit_ignorecase 91 c) eqn:L; [|reflexivity].
    apply lit_ignorecase_symbol in L; [|lia]. subst c. discriminate Hc. }
  assert (B : before_marker INSTRUCTION (c :: t)
              = c :: before_marker INSTRUCTION t).
  { unfold before_marker. cbn [find_marker]. rewrite M.
    destruct (find_marker INSTRUCTION t); reflexivity. }
  rewrite B. unfold strip. symmetry.
  apply lstrip_rstrip_cons_space. exact Hc.
Qed.

(** [answer_re] finds the first marker and captures what follows, up to
    the instruction marker. *)
Lemma search_answer (s : pystr) (i : nat) :
  find_marker ANSWER s = Some i ->
  exists m, search answer_re s = Some m
            /\ strip (group 1 m)
               = strip (before_marker INSTRUCTION (skipn (i + 8) s)).
Proof.
  intros H. unfold search.
  change answer_re with (Cat (lit_i ANSWER) answer_tail).
  rewrite (search_from_first_marker ANSWER answer_tail s [] H
             answer_tail_total).
  destruct (answer_tail_matches
              (rev (firstn (length ANSWER) (skipn i s)) ++ rev (firstn i s) ++ [])
              (skipn (length ANSWER) (skipn i s))) as (m & E & G).
  exists m. split; [exact E|].
  rewrite G, before_marker_lstrip, skipn_skipn.
  change (length ANSWER) with 8. rewrite Nat.add_comm. reflexivity.
Qed.

(** X24.  A reply with an answer marker (in any letter case).  The answer
    is the trimmed text between the first answer marker and the next
    instruction marker after it, or the end; the instruction is the
    trimmed text after the first instruction marker of the whole reply,
    wherever it stands; and when both come out empty the whole trimmed
    reply is the answer. *)
Theorem reply_with_answer_marker (s : pystr) (i : nat) :
  find_marker ANSWER s = Some i ->
  let answer := strip (before_marker INSTRUCTION (skipn (i + 8) s)) in
  let instruction :=
    match find_marker INSTRUCTION s with
    | Some k => strip (skipn (k + 13) s)
    | None => []
    end in
  _parse_dual_output s
  = (if negb (truthy answer) && negb (truthy instruction)
     then strip s else answer,
     instruction).
Proof.
  intros H answer instruction. unfold _parse_dual_output.
  destruct (search_answer s H) as (m & -> & ->). fold answer.
  assert (HI : match search instruction_re s with
               | Some m => strip (group 1 m)
               | None => []
               end = instruction).
  { unfold instruction.
    destruct (find_marker INSTRUCTION s) as [k|] eqn:F.
    - destruct (search_instruction s F) as (m' & -> & ->). reflexivity.
    - rewrite (search_instruction_none s F). reflexivity. }
  rewrite HI. reflexivity.
Qed.

End AnswerPattern.

Lemma reply_with_answer_marker_witness :
  @_parse_dual_output ascii_runtime
    (py "[INSTRUCTION] Run it [answer]  On it." ++ [10%N])
  = (py "On it.", py "Run it [answer]  On it.").
Proof.
  rewrite (@reply_with_answer_marker ascii_runtime _ 21).
  - vm_compute. reflexivity.
  - vm_compute. reflexivity.
Defined.
